(** * Options-Backtesting-Prelim: Black-Scholes spread pricing and RSI backtest

    A shallow embedding of [options_pricing_backtest.py] (the classes
    [Options_Pricing] and [Backtest]) and the properties of its pricer and
    of its backtest loop.

    Numbers.  The program computes with IEEE doubles.  They are modelled by
    [fval]: a finite value is a real, and the three special values NaN,
    +inf and -inf are kept, because the program meets them on ordinary
    inputs (the indicator series start with NaN, a zero volatility divides
    by zero).  Closes, the time to expiration and the interest rate are
    finite and are plain reals.  The strikes are rounded to a multiple of
    ten from a double product and a double difference, and a rounding error
    there moves a strike by ten when it crosses a tie; these operations are
    rounded to the nearest double ([rnd64]).  [round(x, -1)] itself, which
    divides by ten, rounds to an integer with ties to even and multiplies
    by ten, is taken over the reals ([round_nd]): for a double [x] below
    2^53 the double quotient lies on the same side of every tie as the real
    one.  The returns, their standard deviation and the Black-Scholes
    formulas are evaluated over the reals, without rounding error: what is
    stated of their values is either stated of the formulas in real
    arithmetic or does not depend on the last digits (which values are NaN,
    zero or an infinity, and of which sign).
    Overflow and the sign of zero are not modelled: a zero divisor is taken
    as +0.0, which is what a standard deviation or a square root yields.

    Dates.  A date is its proleptic Gregorian ordinal (Python's
    [date.toordinal]); adding [timedelta(days=n)] adds [n].  The labels of
    the frame are pandas Timestamps, which end on 2262-04-11: an addition
    that passes this date raises OutOfBoundsDatetime.

    Frame.  The history that yfinance returns and the RSI that ta-lib
    computes from it are inputs: a list of rows, each with its date, its
    close and its RSI.  [df[col][i]] is the value of the first row labelled
    [i].  A repeated label would make [df[col][i]] a Series, and the test
    of line 113 a ValueError: the statements about the exceptions of a
    whole run are made of histories whose index has no repeated date.

    Control.  Python exceptions are the [Raise] outcome.  The two [while]
    loops of the expiration search take fuel; [Diverge] is a loop that has
    not ended when the fuel is used up.  Printing is left out. *)

From Stdlib Require Import Reals Lra Lia List ZArith Bool.
Import ListNotations.
Open Scope R_scope.

(* ------------------------------------------------------------------ *)
(** ** Decidable comparisons on reals, as booleans *)

Definition Rltb (x y : R) : bool := if Rlt_dec x y then true else false.
Definition Reqb (x y : R) : bool := if Req_dec_T x y then true else false.

(* ------------------------------------------------------------------ *)
(** ** Floating-point values *)

Inductive fval : Type :=
| NaN
| PInf
| NInf
| Fin (x : R).

Definition fneg (a : fval) : fval :=
  match a with
  | NaN => NaN
  | PInf => NInf
  | NInf => PInf
  | Fin x => Fin (- x)
  end.

Definition fadd (a b : fval) : fval :=
  match a, b with
  | NaN, _ | _, NaN => NaN
  | Fin x, Fin y => Fin (x + y)
  | PInf, NInf | NInf, PInf => NaN
  | PInf, _ | _, PInf => PInf
  | NInf, _ | _, NInf => NInf
  end.

Definition fsub (a b : fval) : fval := fadd a (fneg b).

(** The infinity of the sign of [x], NaN for zero: inf * x. *)
Definition inf_of_sign (x : R) : fval :=
  if Rltb 0 x then PInf else if Rltb x 0 then NInf else NaN.

Definition fmul (a b : fval) : fval :=
  match a, b with
  | NaN, _ | _, NaN => NaN
  | Fin x, Fin y => Fin (x * y)
  | Fin x, PInf | PInf, Fin x => inf_of_sign x
  | Fin x, NInf | NInf, Fin x => inf_of_sign (- x)
  | PInf, PInf | NInf, NInf => PInf
  | PInf, NInf | NInf, PInf => NInf
  end.

Definition fdiv (a b : fval) : fval :=
  match a, b with
  | NaN, _ | _, NaN => NaN
  | Fin x, Fin y => if Reqb y 0 then inf_of_sign x else Fin (x / y)
  | Fin _, PInf | Fin _, NInf => Fin 0
  | PInf, Fin y => if Rltb y 0 then NInf else PInf
  | NInf, Fin y => if Rltb y 0 then PInf else NInf
  | _, _ => NaN
  end.

(** [np.sqrt], [np.log], [np.exp] *)
Definition fsqrt (a : fval) : fval :=
  match a with
  | NaN | NInf => NaN
  | PInf => PInf
  | Fin x => if Rltb x 0 then NaN else Fin (sqrt x)
  end.

Definition flog (a : fval) : fval :=
  match a with
  | NaN | NInf => NaN
  | PInf => PInf
  | Fin x => if Rltb 0 x then Fin (ln x) else if Rltb x 0 then NaN else NInf
  end.

Definition fexp (a : fval) : fval :=
  match a with
  | NaN => NaN
  | PInf => PInf
  | NInf => Fin 0
  | Fin x => Fin (exp x)
  end.

(** Comparisons: every comparison with NaN is false. *)
Definition fltb (a b : fval) : bool :=
  match a, b with
  | NaN, _ | _, NaN => false
  | Fin x, Fin y => Rltb x y
  | NInf, NInf | PInf, _ | _, NInf => false
  | NInf, _ | _, PInf => true
  end.

Definition fgtb (a b : fval) : bool := fltb b a.

Definition feqb (a b : fval) : bool :=
  match a, b with
  | Fin x, Fin y => Reqb x y
  | PInf, PInf | NInf, NInf => true
  | _, _ => false
  end.

(* ------------------------------------------------------------------ *)
(** ** Rounding: [round(x, ndigits)] on a numpy double

    [rint] rounds to the nearest integer, ties to the even one;
    [round(x, n)] is [rint(x * 10^n) / 10^n] for [n >= 0] and
    [rint(x / 10^-n) * 10^-n] otherwise. *)

Definition rint (x : R) : Z :=
  let f := Int_part x in
  let d := x - IZR f in
  if Rltb d (1 / 2) then f
  else if Rltb (1 / 2) d then (f + 1)%Z
  else if Z.even f then f else (f + 1)%Z.

Definition round_nd (x : R) (ndigits : Z) : R :=
  if (0 <=? ndigits)%Z
  then IZR (rint (x * 10 ^ Z.to_nat ndigits)) / 10 ^ Z.to_nat ndigits
  else IZR (rint (x / 10 ^ Z.to_nat (- ndigits))) * 10 ^ Z.to_nat (- ndigits).

Definition fround (a : fval) (ndigits : Z) : fval :=
  match a with
  | Fin x => Fin (round_nd x ndigits)
  | _ => a
  end.

(* ------------------------------------------------------------------ *)
(** ** Rounding to the nearest double

    [rnd64 x] is the binary64 value nearest to the real [x], ties to the
    even significand: [x] is rounded to a whole number of units in its last
    place, and the unit is 2^(e-52) for 2^e <= |x| < 2^(e+1), with [e] at
    least -1022 (the subnormal range).  A decimal literal denotes the double
    nearest to it, and a product or a difference of two doubles is the
    double nearest to the real result. *)

Definition ulp64 (x : R) : R :=
  powerRZ 2 (Z.max (Int_part (ln (Rabs x) / ln 2)) (-1022) - 52).

Definition rnd64 (x : R) : R :=
  if Reqb x 0 then 0 else IZR (rint (x / ulp64 x)) * ulp64 x.

(** [a * b] and [a - b] on doubles *)
Definition dmul (a b : R) : R := rnd64 (a * b).
Definition dsub (a b : R) : R := rnd64 (a - b).

(** The literals [1.03] and [.03] *)
Definition lit_1_03 : R := rnd64 (103 / 100).
Definition lit_0_03 : R := rnd64 (3 / 100).

(* ------------------------------------------------------------------ *)
(** ** The standard normal distribution function, [si.norm.cdf(d, 0.0, 1.0)]

    Phi(x) = 1/2 + (1/sqrt(2 pi)) * sum_n (-1)^n x^(2n+1) / (n! 2^n (2n+1)),
    the term-by-term integral of the density's power series.  The series in
    [y = x^2] converges everywhere by the ratio test. *)

Definition cdf_coef (n : nat) : R :=
  (-1) ^ n / (INR (fact n) * 2 ^ n * INR (2 * n + 1)).

Lemma cdf_coef_den_pos n : 0 < INR (fact n) * 2 ^ n * INR (2 * n + 1).
Proof.
  apply Rmult_lt_0_compat; [apply Rmult_lt_0_compat|].
  - apply INR_fact_lt_0.
  - apply pow_lt; lra.
  - apply lt_0_INR; lia.
Qed.

Lemma cdf_coef_neq_0 n : cdf_coef n <> 0.
Proof.
  unfold cdf_coef. pose proof (cdf_coef_den_pos n) as Hd.
  intro H. apply Rmult_integral in H. destruct H as [H|H].
  - revert H. apply pow_nonzero. lra.
  - apply Rinv_neq_0_compat in H; [exact H | lra].
Qed.

Lemma cdf_coef_ratio n :
  cdf_coef (S n) / cdf_coef n
  = - (INR (2 * n + 1) / (2 * INR (S n) * INR (2 * n + 3))).
Proof.
  unfold cdf_coef.
  assert (Hp : (-1) ^ n <> 0) by (apply pow_nonzero; lra).
  assert (H2 : 2 ^ n <> 0) by (apply pow_nonzero; lra).
  assert (Hf : INR (fact n) <> 0) by apply INR_fact_neq_0.
  assert (Hs : INR (S n) <> 0) by (apply not_0_INR; lia).
  assert (H3 : INR (2 * n + 3) <> 0) by (apply not_0_INR; lia).
  assert (H1 : INR (2 * n + 1) <> 0) by (apply not_0_INR; lia).
  replace (2 * S n + 1)%nat with (2 * n + 3)%nat by lia.
  rewrite fact_simpl, mult_INR. simpl pow.
  field. repeat split; assumption.
Qed.

Lemma Alembert_cdf : Un_cv (fun n => Rabs (cdf_coef (S n) / cdf_coef n)) 0.
Proof.
  intros eps Heps.
  destruct (archimed_cor1 eps Heps) as [N [HN HNpos]].
  exists N. intros n Hn.
  unfold Rdist. rewrite Rminus_0_r, Rabs_Rabsolu, cdf_coef_ratio, Rabs_Ropp.
  assert (Hs : 0 < INR (S n)) by (apply lt_0_INR; lia).
  assert (H3 : 0 < INR (2 * n + 3)) by (apply lt_0_INR; lia).
  assert (H1 : 0 < INR (2 * n + 1)) by (apply lt_0_INR; lia).
  assert (H13 : INR (2 * n + 1) < INR (2 * n + 3)) by (apply lt_INR; lia).
  assert (HNn : INR N < INR (S n)) by (apply lt_INR; lia).
  assert (HN0 : 0 < INR N) by (apply lt_0_INR; lia).
  rewrite Rabs_right.
  2:{ apply Rle_ge, Rlt_le, Rdiv_lt_0_compat; [assumption|].
      apply Rmult_lt_0_compat; [lra | assumption]. }
  apply Rlt_trans with (/ INR N); [|assumption].
  apply Rlt_trans with (/ INR (S n)).
  - apply Rmult_lt_reg_r with (2 * INR (S n) * INR (2 * n + 3)).
    + apply Rmult_lt_0_compat; [lra | assumption].
    + unfold Rdiv. rewrite Rmult_assoc, Rinv_l.
      2:{ apply Rgt_not_eq. apply Rmult_lt_0_compat; [lra | assumption]. }
      replace (/ INR (S n) * (2 * INR (S n) * INR (2 * n + 3)))
        with (2 * INR (2 * n + 3)) by (field; lra).
      lra.
  - apply Rinv_lt_contravar; [apply Rmult_lt_0_compat; assumption | assumption].
Qed.

Definition cdf_series (y : R) : R :=
  proj1_sig (Alembert_C3 cdf_coef y cdf_coef_neq_0 Alembert_cdf).

Definition norm_cdf (x : R) : R :=
  1 / 2 + x * cdf_series (x * x) / sqrt (2 * PI).

Definition fcdf (a : fval) : fval :=
  match a with
  | NaN => NaN
  | PInf => Fin 1
  | NInf => Fin 0
  | Fin x => Fin (norm_cdf x)
  end.

(* ------------------------------------------------------------------ *)
(** ** Outcomes: a returned value, a raised exception, or a loop that has
       not ended within the fuel *)

Inductive exn : Type := IndexError | KeyError | ValueError | OutOfBoundsDatetime.

Inductive outcome (A : Type) : Type :=
| Ret (a : A)
| Raise (e : exn)
| Diverge.
Arguments Ret {A} a.
Arguments Raise {A} e.
Arguments Diverge {A}.

Definition bind {A B : Type} (c : outcome A) (k : A -> outcome B) : outcome B :=
  match c with
  | Ret a => k a
  | Raise e => Raise e
  | Diverge => Diverge
  end.

Notation "x <- c ;; k" := (bind c (fun x => k))
  (at level 61, c at next level, right associativity).

(** [while cond: s = body(s)] *)
Fixpoint while_loop {St : Type} (fuel : nat) (cond : St -> bool)
  (body : St -> outcome St) (s : St) : outcome St :=
  match fuel with
  | O => Diverge
  | S fuel' =>
      if cond s then s' <- body s ;; while_loop fuel' cond body s' else Ret s
  end.

(* ------------------------------------------------------------------ *)
(** ** Python lists *)

(** [l[i]] for a non-negative [i] *)
Definition py_index {A : Type} (l : list A) (i : nat) : outcome A :=
  match nth_error l i with
  | Some a => Ret a
  | None => Raise IndexError
  end.

(** Position of the first element satisfying [p], which also sees the
    position. *)
Fixpoint find_index {A : Type} (p : nat -> A -> bool) (l : list A) (m : nat)
  : option nat :=
  match l with
  | [] => None
  | a :: l' => if p m a then Some m else find_index p l' (S m)
  end.

(** [l.index(x)]: first position holding a value equal to [x] *)
Definition list_index {A : Type} (eqb : A -> A -> bool) (l : list A) (x : A)
  : outcome nat :=
  match find_index (fun _ a => eqb a x) l 0 with
  | Some m => Ret m
  | None => Raise ValueError
  end.

(** [l.index(l[j])] where the argument is the very object stored at
    position [j]: [list.index] accepts an element that is the same object
    as the argument before it tries [==], so position [j] matches even when
    it holds NaN.  Every slot of the credit lists holds an object of its
    own (each is the result of a fresh multiplication or subtraction), so
    "same object" is "same position". *)
Definition list_index_of_slot (l : list fval) (j : nat) (x : fval)
  : outcome nat :=
  match find_index (fun m a => Nat.eqb m j || feqb a x) l 0 with
  | Some m => Ret m
  | None => Raise ValueError
  end.

(** [l[k] = v] *)
Fixpoint set_nth {A : Type} (l : list A) (k : nat) (v : A) : list A :=
  match l, k with
  | [], _ => []
  | _ :: l', O => v :: l'
  | a :: l', S k' => a :: set_nth l' k' v
  end.

(** [sum(l)]: starts from the integer 0 and adds from the left *)
Definition py_sum (l : list fval) : fval := fold_left fadd l (Fin 0).

(* ------------------------------------------------------------------ *)
(** ** Data *)

Definition date := Z.

(** [date.weekday()]: Monday is 0; ordinal 1 (0001-01-01) is a Monday. *)
Definition weekday (d : date) : Z := (d + 6) mod 7.

(** The last day a Timestamp can hold, 2262-04-11 (a Friday). *)
Definition max_date : date := 825914%Z.

(** [t + timedelta(days=n)] for a positive [n] *)
Definition add_days (t : date) (n : Z) : outcome date :=
  if (t + n <=? max_date)%Z then Ret (t + n)%Z else Raise OutOfBoundsDatetime.

(** One row of the frame [df]: the index label, the close, and the value
    that [ta.RSI(df["Close"], timeperiod=14)] has for this row. *)
Record bar : Type := mkBar {
  bar_date : date;
  bar_Close : R;
  bar_RSI : fval
}.

(** [self]: the history that [yf.Ticker(self.ticker).history(period="max")]
    returns, the time to expiration and the interest rate. *)
Record Options_Pricing : Type := mkPricing {
  getPriceData : list bar;
  exp_ : R;
  intRate : R
}.

(** [df.index] and label lookup [df[col][i]] *)
Definition df_index (df : list bar) : list date := map bar_date df.

Definition loc {A : Type} (col : bar -> A) (df : list bar) (i : date)
  : outcome A :=
  match find (fun b => Z.eqb (bar_date b) i) df with
  | Some b => Ret (col b)
  | None => Raise KeyError
  end.

(* ------------------------------------------------------------------ *)
(** ** getVol: rolling 252-day volatility of log returns *)

(** [np.log(close / close.shift(1))]: the first row has no predecessor.
    The quotient and the logarithm are the real ones. *)
Fixpoint log_returns_from (prev : R) (close : list R) : list fval :=
  match close with
  | [] => []
  | c :: rest => flog (fdiv (Fin c) (Fin prev)) :: log_returns_from c rest
  end.

Definition log_returns (close : list R) : list fval :=
  match close with
  | [] => []
  | c :: rest => NaN :: log_returns_from c rest
  end.

Fixpoint finite_values (l : list fval) : option (list R) :=
  match l with
  | [] => Some []
  | Fin x :: l' =>
      match finite_values l' with
      | Some v => Some (x :: v)
      | None => None
      end
  | _ :: _ => None
  end.

Definition Rsum (l : list R) : R := fold_right Rplus 0 l.

(** Sample standard deviation (one degree of freedom removed). *)
Definition sample_std (xs : list R) : R :=
  let n := INR (length xs) in
  let m := Rsum xs / n in
  sqrt (Rsum (map (fun x => (x - m) * (x - m)) xs) / (n - 1)).

(** [.rolling(window=w).std()]: defined at a row once the [w] values ending
    there are all present.  pandas updates running sums in doubles from
    one window to the next; the value here is the exact deviation of each
    window, which its result approximates. *)
Definition rolling_std (w : nat) (xs : list fval) : list fval :=
  map (fun i =>
         if (S i <? w)%nat then NaN
         else match finite_values (firstn w (skipn (S i - w) xs)) with
              | Some v => Fin (sample_std v)
              | None => NaN
              end)
      (seq 0 (length xs)).

Definition getVol (self : Options_Pricing) : list fval :=
  map (fun s => fmul s (fsqrt (Fin 252)))
      (rolling_std 252 (log_returns (map bar_Close (getPriceData self)))).

(* ------------------------------------------------------------------ *)
(** ** The Black-Scholes formulas of getCallData and getPutData

    Lines 59-65 and 80-86, with every finite operation exact. *)

Definition bs_d1 (S K T r : R) (sigma : fval) : fval :=
  fdiv (fadd (flog (fdiv (Fin S) (Fin K)))
             (fmul (fadd (Fin r) (fmul (Fin (5 / 10)) (fmul sigma sigma))) (Fin T)))
       (fmul sigma (fsqrt (Fin T))).

Definition bs_d2 (S K T r : R) (sigma : fval) : fval :=
  fdiv (fadd (flog (fdiv (Fin S) (Fin K)))
             (fmul (fsub (Fin r) (fmul (Fin (5 / 10)) (fmul sigma sigma))) (Fin T)))
       (fmul sigma (fsqrt (Fin T))).

Definition discounted (K T r : R) : fval :=
  fmul (Fin K) (fexp (fmul (fneg (Fin r)) (Fin T))).

Definition CallPrice (S K T r : R) (sigma : fval) : fval :=
  fsub (fmul (Fin S) (fcdf (bs_d1 S K T r sigma)))
       (fmul (discounted K T r) (fcdf (bs_d2 S K T r sigma))).

Definition PutPrice (S K T r : R) (sigma : fval) : fval :=
  fsub (fmul (discounted K T r) (fcdf (fneg (bs_d2 S K T r sigma))))
       (fmul (Fin S) (fcdf (fneg (bs_d1 S K T r sigma)))).

(** The [while spread > 0] loop of getCallData: [spread] counts down from
    2, [bot] is 0 on the first pass and 5 afterwards. *)
Fixpoint call_loop (self : Options_Pricing) (S : R) (date : nat)
  (spread : nat) (bot : R) (strikes : list R) (calls : list fval)
  : outcome (list R * list fval) :=
  match spread with
  | O => Ret (strikes, calls)
  | Datatypes.S spread' =>
      let K := round_nd (dmul S lit_1_03) (-1) + bot in
      let T := exp_ self in
      let r := intRate self in
      sigma <- py_index (getVol self) date ;;
      call_loop self S date spread' 5
        (strikes ++ [K]) (calls ++ [CallPrice S K T r sigma])
  end.

Definition getCallData (self : Options_Pricing) (S : R) (date : nat)
  : outcome (fval * R * R) :=
  sc <- call_loop self S date 2 0 [] [] ;;
  c0 <- py_index (snd sc) 0 ;;
  c1 <- py_index (snd sc) 1 ;;
  k0 <- py_index (fst sc) 0 ;;
  k1 <- py_index (fst sc) 1 ;;
  Ret (fround (fsub c0 c1) 2, k0, k1).

Fixpoint put_loop (self : Options_Pricing) (S : R) (date : nat)
  (spread : nat) (bot : R) (strikes : list R) (puts : list fval)
  : outcome (list R * list fval) :=
  match spread with
  | O => Ret (strikes, puts)
  | Datatypes.S spread' =>
      let K := round_nd (dsub S (dmul S lit_0_03)) (-1) - bot in
      let T := exp_ self in
      let r := intRate self in
      sigma <- py_index (getVol self) date ;;
      put_loop self S date spread' 5
        (strikes ++ [K]) (puts ++ [PutPrice S K T r sigma])
  end.

Definition getPutData (self : Options_Pricing) (S : R) (date : nat)
  : outcome (fval * R * R) :=
  sc <- put_loop self S date 2 0 [] [] ;;
  p0 <- py_index (snd sc) 0 ;;
  p1 <- py_index (snd sc) 1 ;;
  k0 <- py_index (fst sc) 0 ;;
  k1 <- py_index (fst sc) 1 ;;
  Ret (fround (fsub p0 p1) 2, k0, k1).

(* ------------------------------------------------------------------ *)
(** ** runBackTest *)

(** Lines 111-116: every index label is a valid date; RSI above 70 goes to
    [shortList], otherwise RSI below 30 goes to [longList]. *)
Fixpoint scan_signals (df : list bar) (idx : list date)
  (validDates shortList longList : list date)
  : outcome (list date * list date * list date) :=
  match idx with
  | [] => Ret (validDates, shortList, longList)
  | i :: rest =>
      rsi <- loc bar_RSI df i ;;
      if fgtb rsi (Fin 70)
      then scan_signals df rest (validDates ++ [i]) (shortList ++ [i]) longList
      else if fltb rsi (Fin 30)
      then scan_signals df rest (validDates ++ [i]) shortList (longList ++ [i])
      else scan_signals df rest (validDates ++ [i]) shortList longList
  end.

(** Lines 126-130: thirty days on, forward to a Friday, then forward to a
    date of the index. *)
Definition resolve_expiration (fuel : nat) (validDates : list date) (i : date)
  : outcome date :=
  getExp <- add_days i 30 ;;
  getExp <- while_loop fuel (fun d => negb (weekday d =? 4)%Z)
                       (fun d => add_days d 1) getExp ;;
  while_loop fuel (fun d => negb (existsb (Z.eqb d) validDates))
             (fun d => add_days d 1) getExp.

(** Lines 122-131 and 134-143: the signals whose close lies strictly
    between 100 and 200 become candidates, each with its entry close and
    the close at its expiration. *)
Fixpoint collect_candidates (fuel : nat) (df : list bar) (validDates : list date)
  (signals : list date) (dates : list date) (price expPrice : list R)
  : outcome (list date * list R * list R) :=
  match signals with
  | [] => Ret (dates, price, expPrice)
  | i :: rest =>
      c <- loc bar_Close df i ;;
      if Rltb 100 c && Rltb c 200
      then
        getExp <- resolve_expiration fuel validDates i ;;
        e <- loc bar_Close df getExp ;;
        collect_candidates fuel df validDates rest
          (dates ++ [i]) (price ++ [c]) (expPrice ++ [e])
      else collect_candidates fuel df validDates rest dates price expPrice
  end.

(** Lines 148-155 and 160-167: each of the first fifteen entry closes is
    looked up by value to find its date, priced, and the credit (times the
    contract size 100) and the strike in slot 2 of the pricer's answer are
    recorded. *)
Fixpoint price_spreads (getData : R -> nat -> outcome (fval * R * R))
  (validDates dates : list date) (price : list R) (todo : list R)
  (credit : list fval) (strike : list R)
  : outcome (list fval * list R) :=
  match todo with
  | [] => Ret (credit, strike)
  | i :: rest =>
      w <- list_index Reqb price i ;;
      d <- py_index dates w ;;
      Date <- list_index Z.eqb validDates d ;;
      data <- getData i Date ;;
      price_spreads getData validDates dates price rest
        (credit ++ [fmul (fst (fst data)) (Fin 100)])
        (strike ++ [snd data])
  end.

Inductive side : Type := CALL | PUT.

(** Lines 175 and 186: the profit tests of the two settlement loops. *)
Definition in_profit (s : side) (strike expPrice : R) : bool :=
  match s with
  | CALL => Rltb expPrice strike
  | PUT => Rltb strike expPrice
  end.

Definition strikeWidth : R := 500.

(** One pass of a settlement loop at list position [j] (lines 174-180 and
    185-191): the slot is found again by value, and the slot that was found
    is the one tested and reduced.  Returns the slot found and the list. *)
Definition settle_step (s : side) (strike expPrice : list R) (j : nat)
  (credit : list fval) : outcome (nat * list fval) :=
  i <- py_index credit j ;;
  k <- list_index_of_slot credit j i ;;
  sk <- py_index strike k ;;
  ek <- py_index expPrice k ;;
  ck <- py_index credit k ;;
  if in_profit s sk ek
  then Ret (k, set_nth credit k ck)
  else Ret (k, set_nth credit k (fsub ck (Fin strikeWidth))).

(** [for i in credit: ...]: positions 0, 1, ... of the list being changed. *)
Fixpoint settle_loop (s : side) (strike expPrice : list R)
  (remaining j : nat) (credit : list fval) : outcome (list fval) :=
  match remaining with
  | O => Ret credit
  | Datatypes.S remaining' =>
      kc <- settle_step s strike expPrice j credit ;;
      settle_loop s strike expPrice remaining' (Datatypes.S j) (snd kc)
  end.

Definition settle (s : side) (strike expPrice : list R) (credit : list fval)
  : outcome (list fval) :=
  settle_loop s strike expPrice (length credit) 0 credit.

(** The slots found by the successive passes of a settlement loop. *)
Fixpoint settle_slots (s : side) (strike expPrice : list R)
  (remaining j : nat) (credit : list fval) : outcome (list nat) :=
  match remaining with
  | O => Ret []
  | Datatypes.S remaining' =>
      kc <- settle_step s strike expPrice j credit ;;
      ks <- settle_slots s strike expPrice remaining' (Datatypes.S j) (snd kc) ;;
      Ret (fst kc :: ks)
  end.

(** The local lists of runBackTest when the settlement loops are done. *)
Record locals : Type := mkLocals {
  validDates : list date;
  callDates : list date;
  putDates : list date;
  shortPrice : list R;
  longPrice : list R;
  shortStrike : list R;
  longStrike : list R;
  shortExpPrice : list R;
  longExpPrice : list R;
  pricedShortCredit : list fval;  (* shortCredit after line 155 *)
  pricedLongCredit : list fval;   (* longCredit after line 167 *)
  shortCredit : list fval;        (* after line 180 *)
  longCredit : list fval          (* after line 191 *)
}.

Definition run_to_settlement (fuel : nat) (self : Options_Pricing)
  : outcome locals :=
  let df := getPriceData self in
  sig <- scan_signals df (df_index df) [] [] [] ;;
  let valid := fst (fst sig) in
  calls <- collect_candidates fuel df valid (snd (fst sig)) [] [] [] ;;
  puts <- collect_candidates fuel df valid (snd sig) [] [] [] ;;
  let cDates := fst (fst calls) in
  let sPrice := snd (fst calls) in
  let pDates := fst (fst puts) in
  let lPrice := snd (fst puts) in
  sc <- price_spreads (getCallData self) valid cDates sPrice
          (firstn 15 sPrice) [] [] ;;
  lc <- price_spreads (getPutData self) valid pDates lPrice
          (firstn 15 lPrice) [] [] ;;
  sCredit <- settle CALL (snd sc) (snd calls) (fst sc) ;;
  lCredit <- settle PUT (snd lc) (snd puts) (fst lc) ;;
  Ret (mkLocals valid cDates pDates sPrice lPrice (snd sc) (snd lc)
         (snd calls) (snd puts) (fst sc) (fst lc) sCredit lCredit).

(** What the returned sentence reports. *)
Record report : Type := mkReport {
  pnl : fval;
  collateral : R
}.

Definition runBackTest (fuel : nat) (self : Options_Pricing) : outcome report :=
  st <- run_to_settlement fuel self ;;
  let total := fadd (py_sum (shortCredit st)) (py_sum (longCredit st)) in
  _ <- py_index (callDates st) 0 ;;
  _ <- py_index (callDates st) 15 ;;
  _ <- py_index (putDates st) 0 ;;
  _ <- py_index (putDates st) 15 ;;
  Ret (mkReport total
         (INR (length (firstn 15 (shortPrice st))
               + length (firstn 15 (longPrice st))) * strikeWidth)).

(* ================================================================== *)
(** * Vocabulary of the statements, and the concrete histories *)

(* ------------------------------------------------------------------ *)
(** ** Frame lookups, signals and candidates *)

(** The RSI and the close of the row labelled [d] (NaN and 0 for a label
    that is not in the index; the program only looks up labels that are). *)
Definition rsi_at (df : list bar) (d : date) : fval :=
  match find (fun b => Z.eqb (bar_date b) d) df with
  | Some b => bar_RSI b
  | None => NaN
  end.

Definition close_at (df : list bar) (d : date) : R :=
  match find (fun b => Z.eqb (bar_date b) d) df with
  | Some b => bar_Close b
  | None => 0
  end.

(** The tests of lines 113 and 115. *)
Definition is_short (df : list bar) (d : date) : bool :=
  fgtb (rsi_at df d) (Fin 70).

Definition is_long (df : list bar) (d : date) : bool :=
  negb (fgtb (rsi_at df d) (Fin 70)) && fltb (rsi_at df d) (Fin 30).

(** [validDates], [shortList] and [longList] after the first loop. *)
Definition signal_lists (df : list bar) : list date * list date * list date :=
  (df_index df, filter (is_short df) (df_index df),
   filter (is_long df) (df_index df)).

(** The test of lines 123 and 135. *)
Definition in_band (c : R) : bool := Rltb 100 c && Rltb c 200.

Definition qualifies (df : list bar) (d : date) : bool := in_band (close_at df d).

(** The qualifying candidates of the two sides, in index order. *)
Definition call_candidates (df : list bar) : list date :=
  filter (qualifies df) (filter (is_short df) (df_index df)).

Definition put_candidates (df : list bar) : list date :=
  filter (qualifies df) (filter (is_long df) (df_index df)).

(** The same tests on a row. *)
Definition call_bar (b : bar) : bool :=
  fgtb (bar_RSI b) (Fin 70) && in_band (bar_Close b).

Definition put_bar (b : bar) : bool :=
  (negb (fgtb (bar_RSI b) (Fin 70)) && fltb (bar_RSI b) (Fin 30))
  && in_band (bar_Close b).

(** Strictly ascending dates: a well-formed index. *)
Fixpoint ascending (l : list date) : bool :=
  match l with
  | a :: (b :: _) as rest => (a <? b)%Z && ascending rest
  | _ => true
  end.

(* ------------------------------------------------------------------ *)
(** ** Expirations *)

(** The first Friday on or after [d]. *)
Definition first_friday (d : date) : date := (d + (4 - weekday d) mod 7)%Z.

(** The earliest index date on or after [f], when there is one. *)
Fixpoint earliest_from (valid : list date) (f : date) : option date :=
  match valid with
  | [] => None
  | e :: rest =>
      match earliest_from rest f with
      | None => if (f <=? e)%Z then Some e else None
      | Some m => if (f <=? e)%Z && (e <? m)%Z then Some e else Some m
      end
  end.

(** The date the expiration search is looking for. *)
Definition expiration_of (valid : list date) (i : date) : option date :=
  earliest_from valid (first_friday (i + 30)%Z).

(** The expiration date of an entry date, 0 when the search has none. *)
Definition expiry (valid : list date) (i : date) : date :=
  match expiration_of valid i with
  | Some e => e
  | None => 0%Z
  end.

Definition exp_close (df : list bar) (valid : list date) (i : date) : R :=
  close_at df (expiry valid i).

(** The dates of a list are Timestamps. *)
Definition timestamps (l : list date) : Prop :=
  Forall (fun d => (d <= max_date)%Z) l.

(** Every candidate has an expiration, a Timestamp that the fuel can
    reach. *)
Definition resolvable (fuel : nat) (df : list bar) : Prop :=
  forall d, In d (call_candidates df ++ put_candidates df) ->
    exists e, expiration_of (df_index df) d = Some e /\
              (e <= max_date)%Z /\
              (Z.to_nat (e - first_friday (d + 30))%Z < fuel)%nat.

(** Fuel for every search from a date of the index to end: seven steps to
    the Friday and one for each day up to the last Timestamp. *)
Definition enough_fuel (fuel : nat) (df : list bar) : Prop :=
  (7 <= fuel)%nat /\
  forall d, In d (df_index df) -> (Z.to_nat (max_date - d) <= fuel)%nat.

(* ------------------------------------------------------------------ *)
(** ** Pricing *)

(** The two arguments of the distribution function as real numbers. *)
Definition d1_real (S K T r sigma : R) : R :=
  (ln (S / K) + (r + 5 / 10 * (sigma * sigma)) * T) / (sigma * sqrt T).

Definition d2_real (S K T r sigma : R) : R :=
  (ln (S / K) + (r + - (5 / 10 * (sigma * sigma))) * T) / (sigma * sqrt T).

(** The near strikes, as lines 58 and 79 compute them. *)
Definition near_call_strike (S : R) : R := round_nd (dmul S lit_1_03) (-1).

Definition near_put_strike (S : R) : R := round_nd (dsub S (dmul S lit_0_03)) (-1).

(** How one entry close is priced: its first position in the price list
    gives the date, the date's first position in the index gives the row
    whose volatility is used. *)
Definition priced_with (getData : R -> nat -> outcome (fval * R * R))
  (valid dates : list date) (price : list R) (i : R) (data : fval * R * R)
  : Prop :=
  exists w d Date,
    list_index Reqb price i = Ret w /\
    py_index dates w = Ret d /\
    list_index Z.eqb valid d = Ret Date /\
    getData i Date = Ret data.

(** The credits and strikes recorded from the pricer's answers. *)
Definition credits_of (datas : list (fval * R * R)) : list fval :=
  map (fun data => fmul (fst (fst data)) (Fin 100)) datas.

Definition strikes_of (datas : list (fval * R * R)) : list R := map snd datas.

(* ------------------------------------------------------------------ *)
(** ** Settlement *)

(** The settled value of a credit, by a strike and an expiration price. *)
Definition settled (s : side) (c : fval) (strike expPrice : R) : fval :=
  if in_profit s strike expPrice then c else fsub c (Fin strikeWidth).

(* ------------------------------------------------------------------ *)
(** ** A flat history

    254 daily bars at 110 starting on Wednesday 2021-01-06 (ordinal
    737796); RSI is undefined on the first 14 bars, 50 up to bar 251 and 75
    on bars 252 and 253, which are therefore the two call signals.  Bar 252
    (ordinal 738048) expires on Friday 738078 and bar 253 on Friday 738085;
    the two bars of those dates close at [e1] and [e2].  The interest rate
    is the program's 1%. *)

Definition flat_rsi (k : nat) : fval :=
  if (k <? 14)%nat then NaN else if (k <? 252)%nat then Fin 50 else Fin 75.

Definition flat_bar (k : nat) : bar :=
  mkBar (737796 + Z.of_nat k)%Z 110 (flat_rsi k).

Definition flat_history (e1 e2 : R) : list bar :=
  map flat_bar (seq 0 254) ++ [mkBar 738078%Z e1 (Fin 50); mkBar 738085%Z e2 (Fin 50)].

Definition flat_run (T : R) (e1 e2 : R) : Options_Pricing :=
  mkPricing (flat_history e1 e2) T (1 / 100).

Definition flat_index : list date :=
  map (fun k => (737796 + Z.of_nat k)%Z) (seq 0 254) ++ [738078; 738085]%Z.

(** One month of discounting at 1%. *)
Definition month_discount : R := exp (- (1 / 100) * (1 / 12)).

(** The local lists of the run on the flat history with one month to
    expiration: two call trades sold at 110 for a credit of 9 each, with
    far strike 115, and [sCredit] after settlement. *)
Definition flat_locals (e1 e2 : R) (sCredit : list fval) : locals :=
  mkLocals flat_index [738048; 738049]%Z [] [110; 110] []
    [115; 115] [] [e1; e2] [] [Fin 9; Fin 9] [] sCredit [].

(** The flat history with a put signal as well: bar 253 has RSI 25, so
    that bar 252 is the one call candidate and bar 253 the one put
    candidate. *)
Definition mixed_history (e1 e2 : R) : list bar :=
  map flat_bar (seq 0 253)
  ++ [mkBar 738049%Z 110 (Fin 25); mkBar 738078%Z e1 (Fin 50);
      mkBar 738085%Z e2 (Fin 50)].

Definition mixed_run (e1 e2 : R) : Options_Pricing :=
  mkPricing (mixed_history e1 e2) (1 / 12) (1 / 100).

(** The local lists of that run: a call trade sold at 110 for a credit of
    9 with far strike 115, and a put trade sold at 110 for no credit with
    far strike 105. *)
Definition mixed_locals (e1 e2 : R) (sCredit lCredit : list fval) : locals :=
  mkLocals flat_index [738048]%Z [738049]%Z [110] [110]
    [115] [105] [e1] [e2] [Fin 9] [Fin 0] sCredit lCredit.

(* ------------------------------------------------------------------ *)
(** ** A history with sixteen candidates on each side

    32 daily bars closing at 150 from Wednesday 2021-01-06: RSI 75 on the
    first sixteen (call candidates) and 25 on the next sixteen (put
    candidates); one more bar a hundred days after the first, with the RSI
    [last]. *)

Definition busy_bar (k : nat) : bar :=
  mkBar (737796 + Z.of_nat k)%Z 150 (if (k <? 16)%nat then Fin 75 else Fin 25).

Definition busy_history (last : fval) : list bar :=
  map busy_bar (seq 0 32) ++ [mkBar 737896%Z 150 last].

Definition busy_run (last : fval) : Options_Pricing :=
  mkPricing (busy_history last) (1 / 12) (1 / 100).

Definition busy_index : list date :=
  map (fun k => (737796 + Z.of_nat k)%Z) (seq 0 32) ++ [737896%Z].

(* ------------------------------------------------------------------ *)
(** ** More vocabulary *)

(** The closes 150.48543689320388 and 159.79381443298968, as the doubles
    they are: a 53-bit significand over a power of two. *)
Definition tie_call_spot : R := 1323683901400233 / 8796093022208.
Definition tie_put_spot : R := 2811122512252041 / 17592186044416.

(** A credit after [n] subtractions of the strike width. *)
Definition reduced (n : nat) (c : fval) : fval :=
  Nat.iter n (fun x => fsub x (Fin strikeWidth)) c.

(* ================================================================== *)
(** * Properties *)

(* ------------------------------------------------------------------ *)
(** ** Comparisons *)

Lemma Rltb_true x y : x < y -> Rltb x y = true.
Proof. intro H. unfold Rltb. destruct (Rlt_dec x y); [reflexivity | contradiction]. Qed.

Lemma Rltb_false x y : y <= x -> Rltb x y = false.
Proof. intro H. unfold Rltb. destruct (Rlt_dec x y); [lra | reflexivity]. Qed.

Lemma Rltb_lt x y : Rltb x y = true <-> x < y.
Proof.
  unfold Rltb. destruct (Rlt_dec x y); split; intro; try assumption;
    try reflexivity; try discriminate; contradiction.
Qed.

Lemma Reqb_true x y : x = y -> Reqb x y = true.
Proof. intro H. unfold Reqb. destruct (Req_dec_T x y); [reflexivity | contradiction]. Qed.

Lemma Reqb_false x y : x <> y -> Reqb x y = false.
Proof. intro H. unfold Reqb. destruct (Req_dec_T x y); [contradiction | reflexivity]. Qed.

Lemma Reqb_eq x y : Reqb x y = true <-> x = y.
Proof.
  unfold Reqb. destruct (Req_dec_T x y); split; intro; try assumption;
    try reflexivity; try discriminate; contradiction.
Qed.

Lemma Reqb_refl x : Reqb x x = true.
Proof. apply Reqb_true; reflexivity. Qed.

(** Decides the comparisons of the goal that linear arithmetic settles. *)
Ltac Rb_eval :=
  repeat match goal with
    | |- context [Rltb ?a ?b] =>
        first [ rewrite (Rltb_true a b) by lra | rewrite (Rltb_false a b) by lra ]
    | |- context [Reqb ?a ?b] =>
        first [ rewrite (Reqb_true a b) by lra | rewrite (Reqb_false a b) by lra ]
    end.

(* ------------------------------------------------------------------ *)
(** ** The model on known values *)

(** 2021-01-04 was a Monday and 2021-10-15 a Friday. *)
Example weekday_monday : weekday 737794%Z = 0%Z.
Proof. reflexivity. Qed.

Example weekday_friday : weekday 738078%Z = 4%Z.
Proof. reflexivity. Qed.

(** Ties go to the even neighbour: [round(2.5)] is 2 and [round(3.5)] is 4. *)
Example rint_tie_down : rint (5 / 2) = 2%Z.
Proof.
  unfold rint. cbv zeta.
  rewrite <- (Int_part_spec (5 / 2) 2) by lra.
  rewrite (Rltb_false (5 / 2 - 2) (1 / 2)) by lra.
  rewrite (Rltb_false (1 / 2) (5 / 2 - 2)) by lra. reflexivity.
Qed.

Example rint_tie_up : rint (7 / 2) = 4%Z.
Proof.
  unfold rint. cbv zeta.
  rewrite <- (Int_part_spec (7 / 2) 3) by lra.
  rewrite (Rltb_false (7 / 2 - 3) (1 / 2)) by lra.
  rewrite (Rltb_false (1 / 2) (7 / 2 - 3)) by lra. reflexivity.
Qed.

(* ------------------------------------------------------------------ *)
(** ** The normal distribution function *)

Lemma sqrt_2PI_neq_0 : sqrt (2 * PI) <> 0.
Proof. apply Rgt_not_eq, sqrt_lt_R0. pose proof PI_RGT_0. lra. Qed.

Lemma norm_cdf_sym x : norm_cdf x + norm_cdf (- x) = 1.
Proof.
  unfold norm_cdf. replace (- x * - x) with (x * x) by ring. field.
  exact sqrt_2PI_neq_0.
Qed.

Lemma norm_cdf_0 : norm_cdf 0 = 1 / 2.
Proof. unfold norm_cdf. unfold Rdiv. ring. Qed.

(* ------------------------------------------------------------------ *)
(** ** The Black-Scholes formulas on regular inputs *)

Section Regular.
Variables S K T r sigma : R.
Hypothesis HS : 0 < S.
Hypothesis HK : 0 < K.
Hypothesis HT : 0 < T.
Hypothesis Hsigma : 0 < sigma.

Lemma sigma_sqrt_T_pos : 0 < sigma * sqrt T.
Proof. apply Rmult_lt_0_compat; [assumption | apply sqrt_lt_R0; assumption]. Qed.

Lemma bs_d1_regular : bs_d1 S K T r (Fin sigma) = Fin (d1_real S K T r sigma).
Proof.
  pose proof sigma_sqrt_T_pos as Hd.
  assert (HSK : 0 < S / K) by (apply Rdiv_lt_0_compat; assumption).
  unfold bs_d1, d1_real. cbn [fdiv fmul fadd flog fsqrt].
  rewrite (Reqb_false K 0) by lra.
  cbn [flog]. rewrite (Rltb_true 0 (S / K)) by assumption.
  rewrite (Rltb_false T 0) by lra.
  cbn [fdiv fmul fadd]. rewrite Reqb_false by lra. reflexivity.
Qed.

Lemma bs_d2_regular : bs_d2 S K T r (Fin sigma) = Fin (d2_real S K T r sigma).
Proof.
  pose proof sigma_sqrt_T_pos as Hd.
  assert (HSK : 0 < S / K) by (apply Rdiv_lt_0_compat; assumption).
  unfold bs_d2, d2_real. cbn [fdiv fmul fadd fsub fneg flog fsqrt].
  rewrite (Reqb_false K 0) by lra.
  cbn [flog]. rewrite (Rltb_true 0 (S / K)) by assumption.
  rewrite (Rltb_false T 0) by lra.
  cbn [fdiv fmul fadd]. rewrite Reqb_false by lra. reflexivity.
Qed.

Lemma CallPrice_regular :
  CallPrice S K T r (Fin sigma)
  = Fin (S * norm_cdf (d1_real S K T r sigma) + - (K * exp (- r * T) * norm_cdf (d2_real S K T r sigma))).
Proof.
  unfold CallPrice, discounted. rewrite bs_d1_regular, bs_d2_regular.
  reflexivity.
Qed.

Lemma PutPrice_regular :
  PutPrice S K T r (Fin sigma)
  = Fin (K * exp (- r * T) * norm_cdf (- d2_real S K T r sigma)
         + - (S * norm_cdf (- d1_real S K T r sigma))).
Proof.
  unfold PutPrice, discounted. rewrite bs_d1_regular, bs_d2_regular.
  reflexivity.
Qed.
End Regular.

(** C6. For S > 0, K > 0, T > 0 and sigma > 0 the call and put formulas of
    the pricer satisfy put-call parity exactly over the reals:
    CallPrice - PutPrice = S - K * exp(-r T). *)
Theorem put_call_parity (S K T r sigma : R) :
  0 < S -> 0 < K -> 0 < T -> 0 < sigma ->
  fsub (CallPrice S K T r (Fin sigma)) (PutPrice S K T r (Fin sigma))
  = Fin (S - K * exp (- r * T)).
Proof.
  intros HS HK HT Hs.
  rewrite CallPrice_regular, PutPrice_regular by assumption.
  cbn [fsub fneg fadd]. f_equal.
  pose proof (norm_cdf_sym (d1_real S K T r sigma)) as H1.
  pose proof (norm_cdf_sym (d2_real S K T r sigma)) as H2.
  set (a := norm_cdf (d1_real S K T r sigma)) in *.
  set (b := norm_cdf (d2_real S K T r sigma)) in *.
  replace (norm_cdf (- d1_real S K T r sigma)) with (1 - a) by lra.
  replace (norm_cdf (- d2_real S K T r sigma)) with (1 - b) by lra.
  ring.
Qed.

Lemma put_call_parity_witness :
  fsub (CallPrice 150 160 (1 / 12) (1 / 100) (Fin (2 / 10)))
       (PutPrice 150 160 (1 / 12) (1 / 100) (Fin (2 / 10)))
  = Fin (150 - 160 * exp (- (1 / 100) * (1 / 12))).
Proof. apply put_call_parity; lra. Defined.

(* ------------------------------------------------------------------ *)
(** ** Frame lookups *)

Lemma find_date_in df d :
  In d (df_index df) ->
  exists b, find (fun b => Z.eqb (bar_date b) d) df = Some b.
Proof.
  unfold df_index. induction df as [|b df IH]; simpl; intros H; [contradiction|].
  destruct (Z.eqb_spec (bar_date b) d) as [E|E].
  - eauto.
  - destruct H as [H|H]; [contradiction | auto].
Qed.

Lemma loc_RSI_in df d : In d (df_index df) -> loc bar_RSI df d = Ret (rsi_at df d).
Proof.
  intros H. destruct (find_date_in df d H) as [b Hb].
  unfold loc, rsi_at. rewrite Hb. reflexivity.
Qed.

Lemma loc_Close_in df d : In d (df_index df) -> loc bar_Close df d = Ret (close_at df d).
Proof.
  intros H. destruct (find_date_in df d H) as [b Hb].
  unfold loc, close_at. rewrite Hb. reflexivity.
Qed.

Lemma loc_RSI_ret df d v : loc bar_RSI df d = Ret v -> rsi_at df d = v.
Proof.
  unfold loc, rsi_at. destruct (find _ df); intros H; inversion H; reflexivity.
Qed.

(* ------------------------------------------------------------------ *)
(** ** Signals (lines 111-116) *)

Lemma scan_signals_spec df idx v s l :
  incl idx (df_index df) ->
  scan_signals df idx v s l
  = Ret (v ++ idx, s ++ filter (is_short df) idx, l ++ filter (is_long df) idx).
Proof.
  revert v s l. induction idx as [|i idx IH]; intros v s l Hincl.
  - cbn [scan_signals filter]. rewrite !app_nil_r. reflexivity.
  - assert (Hi : In i (df_index df)) by (apply Hincl; left; reflexivity).
    assert (Hrest : incl idx (df_index df))
      by (intros x Hx; apply Hincl; right; exact Hx).
    assert (Hl : is_long df i
                 = negb (is_short df i) && fltb (rsi_at df i) (Fin 30))
      by reflexivity.
    cbn [scan_signals filter]. rewrite (loc_RSI_in df i Hi). cbn [bind].
    change (fgtb (rsi_at df i) (Fin 70)) with (is_short df i). rewrite Hl.
    destruct (is_short df i); cbn [negb andb].
    + rewrite IH by assumption. rewrite <- !app_assoc. reflexivity.
    + destruct (fltb (rsi_at df i) (Fin 30)).
      * rewrite IH by assumption. rewrite <- !app_assoc. reflexivity.
      * rewrite IH by assumption. rewrite <- !app_assoc. reflexivity.
Qed.

Lemma scan_signals_frame df :
  scan_signals df (df_index df) [] [] [] = Ret (signal_lists df).
Proof. rewrite scan_signals_spec by apply incl_refl. reflexivity. Qed.

(* ------------------------------------------------------------------ *)
(** ** The forward searches of the expiration (lines 127-130) *)

Lemma add_days_ret t n : (t + n <= max_date)%Z -> add_days t n = Ret (t + n)%Z.
Proof. intros H. unfold add_days. destruct (Z.leb_spec (t + n) max_date); [reflexivity | lia]. Qed.

Lemma add_days_raise t n :
  (max_date < t + n)%Z -> add_days t n = Raise OutOfBoundsDatetime.
Proof. intros H. unfold add_days. destruct (Z.leb_spec (t + n) max_date); [lia | reflexivity]. Qed.

Lemma while_search_found (p : date -> bool) fuel d e :
  (d <= e)%Z -> (e <= max_date)%Z -> p e = true ->
  (forall x, (d <= x < e)%Z -> p x = false) ->
  (Z.to_nat (e - d) < fuel)%nat ->
  while_loop fuel (fun d => negb (p d)) (fun d => add_days d 1) d = Ret e.
Proof.
  revert d. induction fuel as [|fuel IH]; intros d Hle Hmax Hp Hbefore Hfuel; [lia|].
  cbn [while_loop]. destruct (Z.eq_dec d e) as [->|Hne].
  - rewrite Hp. reflexivity.
  - rewrite (Hbefore d) by lia. cbn [negb].
    rewrite add_days_ret by lia. cbn [bind]. apply IH; try lia; try assumption.
    intros x Hx. apply Hbefore. lia.
Qed.

Lemma while_search_ret (p : date -> bool) fuel d e :
  while_loop fuel (fun d => negb (p d)) (fun d => add_days d 1) d = Ret e ->
  (d <= e)%Z /\ p e = true /\ (forall x, (d <= x < e)%Z -> p x = false).
Proof.
  revert d. induction fuel as [|fuel IH]; intros d H; [discriminate|].
  cbn [while_loop] in H. destruct (p d) eqn:Hpd; cbn [negb] in H.
  - inversion H; subst. repeat split; [lia | assumption | intros; lia].
  - unfold add_days in H. destruct (d + 1 <=? max_date)%Z; cbn [bind] in H;
      [|discriminate].
    apply IH in H. destruct H as (Hle & Hp & Hb).
    repeat split; [lia | assumption |].
    intros x Hx. destruct (Z.eq_dec x d) as [->|Hne]; [assumption|].
    apply Hb. lia.
Qed.

(** A search that finds nothing up to the last Timestamp ends there, with
    the exception of the addition. *)
Lemma while_search_none (p : date -> bool) fuel d :
  (forall x, (d <= x <= max_date)%Z -> p x = false) ->
  (d <= max_date)%Z ->
  (Z.to_nat (max_date - d) < fuel)%nat ->
  while_loop fuel (fun d => negb (p d)) (fun d => add_days d 1) d
  = Raise OutOfBoundsDatetime.
Proof.
  revert d. induction fuel as [|fuel IH]; intros d H Hd Hfuel; [lia|].
  cbn [while_loop]. rewrite (H d) by lia. cbn [negb]. unfold add_days.
  destruct (Z.leb_spec (d + 1) max_date) as [Hle|Hgt]; cbn [bind]; [|reflexivity].
  apply IH; [|lia|lia]. intros x Hx. apply H. lia.
Qed.

Lemma while_search_raise (p : date -> bool) fuel d ex :
  while_loop fuel (fun d => negb (p d)) (fun d => add_days d 1) d = Raise ex ->
  ex = OutOfBoundsDatetime /\ forall x, (d <= x <= max_date)%Z -> p x = false.
Proof.
  revert d. induction fuel as [|fuel IH]; intros d H; [discriminate|].
  cbn [while_loop] in H. destruct (p d) eqn:Hpd; cbn [negb] in H; [discriminate|].
  unfold add_days in H.
  destruct (Z.leb_spec (d + 1) max_date) as [Hle|Hgt]; cbn [bind] in H.
  - apply IH in H. destruct H as [Hex Hb]. split; [exact Hex|].
    intros x Hx. destruct (Z.eq_dec x d) as [->|Hne]; [assumption|].
    apply Hb. lia.
  - inversion H. split; [reflexivity|]. intros x Hx.
    assert (x = d) by lia. subst x. exact Hpd.
Qed.

Lemma first_friday_weekday d : weekday (first_friday d) = 4%Z.
Proof. unfold first_friday, weekday. Z.to_euclidean_division_equations. lia. Qed.

Lemma first_friday_bounds d : (d <= first_friday d <= d + 6)%Z.
Proof. unfold first_friday, weekday. Z.to_euclidean_division_equations. lia. Qed.

Lemma first_friday_first d x :
  (d <= x < first_friday d)%Z -> weekday x <> 4%Z.
Proof. unfold first_friday, weekday. Z.to_euclidean_division_equations. lia. Qed.

(** The last Timestamp day is a Friday, so the search for a Friday never
    passes it. *)
Lemma first_friday_in_range d : (d <= max_date)%Z -> (first_friday d <= max_date)%Z.
Proof.
  unfold first_friday, weekday, max_date. intros H.
  Z.to_euclidean_division_equations. lia.
Qed.

Lemma friday_search fuel d :
  (7 <= fuel)%nat -> (d <= max_date)%Z ->
  while_loop fuel (fun d => negb (weekday d =? 4)%Z) (fun d => add_days d 1) d
  = Ret (first_friday d).
Proof.
  intros Hfuel Hd. pose proof (first_friday_bounds d) as Hb.
  apply (while_search_found (fun d => (weekday d =? 4)%Z)).
  - lia.
  - apply first_friday_in_range. exact Hd.
  - rewrite first_friday_weekday. reflexivity.
  - intros x Hx. apply Z.eqb_neq. apply (first_friday_first d). exact Hx.
  - lia.
Qed.

Lemma friday_search_ret fuel d f :
  while_loop fuel (fun d => negb (weekday d =? 4)%Z) (fun d => add_days d 1) d
  = Ret f ->
  f = first_friday d.
Proof.
  intros Hf.
  destruct (while_search_ret (fun d => (weekday d =? 4)%Z) _ _ _ Hf)
    as (Hle & Hw & Hb).
  apply Z.eqb_eq in Hw.
  pose proof (first_friday_bounds d) as Hff.
  pose proof (first_friday_weekday d) as Hfw.
  destruct (Z.lt_trichotomy f (first_friday d)) as [H|[H|H]].
  - exfalso. apply (first_friday_first d f); [lia | assumption].
  - assumption.
  - exfalso. specialize (Hb (first_friday d) ltac:(lia)).
    apply Z.eqb_neq in Hb. contradiction.
Qed.

Lemma friday_search_no_raise fuel d ex :
  (d <= max_date)%Z ->
  while_loop fuel (fun d => negb (weekday d =? 4)%Z) (fun d => add_days d 1) d
  <> Raise ex.
Proof.
  intros Hd H. apply while_search_raise in H. destruct H as [_ H].
  specialize (H (first_friday d)).
  rewrite first_friday_weekday in H. cbn in H.
  pose proof (first_friday_bounds d). pose proof (first_friday_in_range d Hd).
  assert (true = false) by (apply H; lia). discriminate.
Qed.

Lemma earliest_from_some valid f e :
  earliest_from valid f = Some e ->
  In e valid /\ (f <= e)%Z /\ (forall x, In x valid -> (f <= x)%Z -> (e <= x)%Z).
Proof.
  revert e. induction valid as [|a rest IH]; intros e H; simpl in H; [discriminate|].
  destruct (earliest_from rest f) as [m|] eqn:Hm.
  - destruct (IH m eq_refl) as (Hin & Hle & Hmin).
    destruct (Z.leb_spec f a), (Z.ltb_spec a m); simpl in H; inversion H; subst.
    + repeat split; [left; reflexivity | assumption |].
      intros x [->|Hx] Hfx; [lia|]. specialize (Hmin x Hx Hfx). lia.
    + repeat split; [right; assumption | assumption |].
      intros x [->|Hx] Hfx; [lia | auto].
    + repeat split; [right; assumption | assumption |].
      intros x [->|Hx] Hfx; [lia | auto].
    + repeat split; [right; assumption | assumption |].
      intros x [->|Hx] Hfx; [lia | auto].
  - destruct (Z.leb_spec f a); inversion H; subst.
    repeat split; [left; reflexivity | assumption |].
    intros x [->|Hx] Hfx; [lia|].
    exfalso. clear IH H. revert x Hx Hfx.
    induction rest as [|b rest IHr]; intros x Hx Hfx; [contradiction|].
    simpl in Hm. destruct (earliest_from rest f) eqn:Hr.
    + destruct ((f <=? b)%Z && (b <? d)%Z); discriminate.
    + destruct (Z.leb_spec f b); [discriminate|].
      destruct Hx as [->|Hx]; [lia | eauto].
Qed.

Lemma earliest_from_none valid f :
  earliest_from valid f = None -> forall x, In x valid -> (x < f)%Z.
Proof.
  induction valid as [|a rest IH]; intros H x Hx; [contradiction|].
  simpl in H. destruct (earliest_from rest f) as [m|] eqn:Hm.
  - destruct ((f <=? a)%Z && (a <? m)%Z); discriminate.
  - destruct (Z.leb_spec f a); [discriminate|].
    destruct Hx as [->|Hx]; [assumption | auto].
Qed.

Lemma earliest_from_exists valid f x :
  In x valid -> (f <= x)%Z -> exists e, earliest_from valid f = Some e.
Proof.
  intros Hx Hfx. destruct (earliest_from valid f) as [e|] eqn:He; [eauto|].
  pose proof (earliest_from_none valid f He x Hx). lia.
Qed.

Section ExpirationSearch.
Local Open Scope Z_scope.

Lemma existsb_date_in d valid : existsb (Z.eqb d) valid = true <-> In d valid.
Proof.
  rewrite existsb_exists. split.
  - intros (x & Hx & E). apply Z.eqb_eq in E. subst. exact Hx.
  - intros H. exists d. split; [exact H | apply Z.eqb_refl].
Qed.

Lemma existsb_date_out d valid : ~ In d valid -> existsb (Z.eqb d) valid = false.
Proof.
  intros H. destruct (existsb (Z.eqb d) valid) eqn:E; [|reflexivity].
  apply existsb_date_in in E. contradiction.
Qed.

Lemma resolve_found valid i e fuel :
  expiration_of valid i = Some e ->
  e <= max_date ->
  (7 <= fuel)%nat ->
  (Z.to_nat (e - first_friday (i + 30)%Z) < fuel)%nat ->
  resolve_expiration fuel valid i = Ret e.
Proof.
  intros He Hmax H7 Hfuel. unfold expiration_of in He.
  apply earliest_from_some in He. destruct He as (Hin & Hle & Hmin).
  pose proof (first_friday_bounds (i + 30)) as Hff.
  unfold resolve_expiration. rewrite add_days_ret by lia. cbn [bind].
  rewrite friday_search by lia. cbn [bind].
  apply (while_search_found (fun d => existsb (Z.eqb d) valid)).
  - assumption.
  - assumption.
  - apply existsb_date_in. assumption.
  - intros x Hx. apply existsb_date_out. intros Hxin.
    specialize (Hmin x Hxin). lia.
  - assumption.
Qed.

(** With no index date from the target Friday to the last Timestamp the
    search ends with the exception of the addition. *)
Lemma resolve_no_timestamp valid i fuel :
  (forall e, In e valid -> first_friday (i + 30) <= e -> max_date < e) ->
  (7 <= fuel)%nat -> (Z.to_nat (max_date - i) <= fuel)%nat ->
  resolve_expiration fuel valid i = Raise OutOfBoundsDatetime.
Proof.
  intros Hnone H7 Hfuel. pose proof (first_friday_bounds (i + 30)) as Hff.
  unfold resolve_expiration, add_days at 1.
  destruct (Z.leb_spec (i + 30) max_date) as [Hle|Hgt]; cbn [bind]; [|reflexivity].
  rewrite friday_search by lia. cbn [bind].
  pose proof (first_friday_in_range (i + 30) Hle) as Hin.
  apply (while_search_none (fun d => existsb (Z.eqb d) valid)).
  - intros x Hx. apply existsb_date_out. intros Hxin.
    specialize (Hnone x Hxin). lia.
  - exact Hin.
  - lia.
Qed.

Lemma resolve_none valid i fuel :
  expiration_of valid i = None ->
  (7 <= fuel)%nat -> (Z.to_nat (max_date - i) <= fuel)%nat ->
  resolve_expiration fuel valid i = Raise OutOfBoundsDatetime.
Proof.
  intros He. apply resolve_no_timestamp. intros e Hin Hle.
  pose proof (earliest_from_none valid _ He e Hin). lia.
Qed.

Lemma resolve_ret valid i e fuel :
  resolve_expiration fuel valid i = Ret e -> expiration_of valid i = Some e.
Proof.
  intros H. unfold resolve_expiration, add_days at 1 in H.
  destruct (i + 30 <=? max_date); cbn [bind] in H; [|discriminate].
  destruct (while_loop fuel (fun d => negb (weekday d =? 4))
              (fun d => add_days d 1) (i + 30)) as [f| |] eqn:Hf;
    cbn [bind] in H; try discriminate.
  apply friday_search_ret in Hf. subst f.
  destruct (while_search_ret (fun d => existsb (Z.eqb d) valid) _ _ _ H)
    as (Hle & Hin & Hb).
  apply existsb_date_in in Hin. unfold expiration_of.
  destruct (earliest_from valid (first_friday (i + 30))) as [e'|] eqn:He.
  - apply earliest_from_some in He. destruct He as (Hin' & Hle' & Hmin).
    f_equal. specialize (Hmin e Hin Hle).
    destruct (Z.eq_dec e' e) as [|Hne]; [assumption|].
    specialize (Hb e' ltac:(lia)).
    rewrite (proj2 (existsb_date_in e' valid) Hin') in Hb. discriminate.
  - pose proof (earliest_from_none valid _ He e Hin). lia.
Qed.

(** The search raises nothing but the exception of the addition, and only
    after it has passed every index date up to the last Timestamp. *)
Lemma resolve_raise valid i fuel ex :
  resolve_expiration fuel valid i = Raise ex ->
  ex = OutOfBoundsDatetime /\
  forall e, In e valid -> first_friday (i + 30) <= e -> max_date < e.
Proof.
  intros H. pose proof (first_friday_bounds (i + 30)) as Hff.
  unfold resolve_expiration, add_days at 1 in H.
  destruct (Z.leb_spec (i + 30) max_date) as [Hle|Hgt]; cbn [bind] in H.
  - destruct (while_loop fuel (fun d => negb (weekday d =? 4))
                (fun d => add_days d 1) (i + 30)) as [f| |] eqn:Hf;
      cbn [bind] in H; try discriminate.
    + apply friday_search_ret in Hf. subst f.
      apply (while_search_raise (fun d => existsb (Z.eqb d) valid)) in H.
      destruct H as [Hex Hb]. split; [exact Hex|].
      intros e Hin Hge. destruct (Z.lt_ge_cases max_date e) as [Hlt|Hin_range];
        [exact Hlt|].
      specialize (Hb e ltac:(lia)).
      rewrite (proj2 (existsb_date_in e valid) Hin) in Hb. discriminate.
    + exfalso. exact (friday_search_no_raise _ _ _ Hle Hf).
  - inversion H. split; [reflexivity|]. intros e Hin Hge. lia.
Qed.

(** With enough fuel the search ends: it returns or raises. *)
Lemma resolve_enough valid i fuel :
  (7 <= fuel)%nat -> (Z.to_nat (max_date - i) <= fuel)%nat ->
  (exists e, resolve_expiration fuel valid i = Ret e) \/
  resolve_expiration fuel valid i = Raise OutOfBoundsDatetime.
Proof.
  intros H7 Hfuel. pose proof (first_friday_bounds (i + 30)) as Hff.
  destruct (expiration_of valid i) as [e|] eqn:He.
  - destruct (Z.le_gt_cases e max_date) as [Hle|Hgt].
    + left. exists e. apply resolve_found; try assumption.
      unfold expiration_of in He. apply earliest_from_some in He. lia.
    + right. apply resolve_no_timestamp; try assumption.
      intros e' Hin Hge. unfold expiration_of in He.
      apply earliest_from_some in He. destruct He as (_ & _ & Hmin).
      specialize (Hmin e' Hin Hge). lia.
  - right. apply resolve_none; assumption.
Qed.

(** C4 (amended). The expiration search has no bound of its own and no
    failure of its own.  When the index holds a date on or after the first
    Friday that is at least 30 days after the entry date, the search returns
    the earliest such index date, however far away: it is in the index, it
    is at least 30 days after the entry, and it is that Friday or a later
    index date.  When the index holds no such date the search returns
    nothing: it goes on day by day to the last day of the Timestamp range
    and ends with the OutOfBoundsDatetime of the addition.  It raises
    nothing else. *)
Theorem expiration_search (valid : list date) (D : date) :
  weekday (first_friday (D + 30)) = 4 /\
  (forall e0, In e0 valid -> first_friday (D + 30) <= e0 <= max_date ->
     exists fuel e,
       resolve_expiration fuel valid D = Ret e /\
       In e valid /\ D + 30 <= e /\
       first_friday (D + 30) <= e <= e0) /\
  ((forall e0, In e0 valid -> e0 < first_friday (D + 30)) ->
     (forall fuel e, resolve_expiration fuel valid D <> Ret e) /\
     (forall fuel, (7 <= fuel)%nat -> (Z.to_nat (max_date - D) <= fuel)%nat ->
        resolve_expiration fuel valid D = Raise OutOfBoundsDatetime)) /\
  (forall fuel ex,
     resolve_expiration fuel valid D = Raise ex -> ex = OutOfBoundsDatetime).
Proof.
  split; [apply first_friday_weekday|]. split; [|split].
  - intros e0 Hin [Hle Hmax].
    destruct (earliest_from_exists valid _ e0 Hin Hle) as [e He].
    pose proof (earliest_from_some valid _ e He) as (Hin' & Hle' & Hmin).
    pose proof (first_friday_bounds (D + 30)) as Hff.
    specialize (Hmin e0 Hin Hle).
    exists (7 + Datatypes.S (Z.to_nat (e - first_friday (D + 30)%Z)))%nat, e.
    split; [apply resolve_found; [exact He | lia | lia | lia]|].
    repeat split; try assumption; lia.
  - intros Hnone.
    assert (He : expiration_of valid D = None).
    { destruct (expiration_of valid D) as [e|] eqn:He; [|reflexivity].
      apply earliest_from_some in He. destruct He as (Hin & Hle & _).
      specialize (Hnone e Hin). lia. }
    split.
    + intros fuel e H. apply resolve_ret in H. congruence.
    + intros fuel H7 Hfuel. apply resolve_none; assumption.
  - intros fuel ex H. apply resolve_raise in H. tauto.
Qed.

Lemma expiration_search_witness :
  exists fuel e,
    resolve_expiration fuel [737794; 737826] 737794 = Ret e /\
    In e [737794; 737826] /\ 737794 + 30 <= e /\
    first_friday (737794 + 30) <= e <= 737826.
Proof.
  apply (proj1 (proj2 (expiration_search [737794; 737826] 737794))).
  - simpl. right. left. reflexivity.
  - vm_compute. split; discriminate.
Defined.

(** C4, as stated, fails: from Monday 2021-01-04 (ordinal 737794) the
    target is Friday 2021-02-05; with the next index date 52 weeks after it
    the search returns that date, 364 days on, where the claim has a failure
    after about 14 days; and with no later index date the search goes on to
    2262-04-11, 88088 days after the target Friday, and ends there with the
    OutOfBoundsDatetime of the addition, not with a failure of its own. *)
Lemma expiration_search_has_no_bound :
  resolve_expiration 400 [737794; 738190] 737794 = Ret 738190 /\
  738190 - first_friday (737794 + 30) = 364 /\
  max_date - first_friday (737794 + 30) = 88088 /\
  resolve_expiration (Z.to_nat 88120) [737794] 737794 = Raise OutOfBoundsDatetime.
Proof.
  assert (Hff : first_friday (737794 + 30) = 737826) by (vm_compute; reflexivity).
  split; [|split; [|split]].
  - apply resolve_found; [vm_compute; reflexivity | vm_compute; discriminate
                          | lia | rewrite Hff; lia].
  - rewrite Hff. reflexivity.
  - rewrite Hff. reflexivity.
  - apply resolve_none; [vm_compute; reflexivity | lia | unfold max_date; lia].
Qed.

End ExpirationSearch.

(* ------------------------------------------------------------------ *)
(** ** Rounding *)

Lemma Int_part_bounds x : IZR (Int_part x) <= x < IZR (Int_part x) + 1.
Proof. pose proof (base_Int_part x). lra. Qed.

Lemma rint_close x : Rabs (IZR (rint x) - x) <= 1 / 2.
Proof.
  pose proof (Int_part_bounds x) as Hb. unfold rint. cbv zeta.
  destruct (Rltb (x - IZR (Int_part x)) (1 / 2)) eqn:H1.
  - apply Rltb_lt in H1. apply Rabs_le. lra.
  - assert (Hge : 1 / 2 <= x - IZR (Int_part x)).
    { destruct (Rle_or_lt (1 / 2) (x - IZR (Int_part x))) as [H|H]; [exact H|].
      apply Rltb_true in H. congruence. }
    destruct (Rltb (1 / 2) (x - IZR (Int_part x))) eqn:H2.
    + rewrite plus_IZR. apply Rabs_le. lra.
    + assert (Hle : x - IZR (Int_part x) <= 1 / 2).
      { destruct (Rle_or_lt (x - IZR (Int_part x)) (1 / 2)) as [H|H]; [exact H|].
        apply Rltb_true in H. congruence. }
      destruct (Z.even (Int_part x)).
      * apply Rabs_le. lra.
      * rewrite plus_IZR. apply Rabs_le. lra.
Qed.

Lemma Rabs_le_bounds a b : Rabs a <= b -> - b <= a <= b.
Proof. unfold Rabs. destruct (Rcase_abs a); lra. Qed.


Lemma rint_eval x (z : Z) : IZR z - 1 / 2 < x < IZR z + 1 / 2 -> rint x = z.
Proof.
  intros Hx. pose proof (rint_close x) as Hc. apply Rabs_le_bounds in Hc.
  destruct (Z.lt_trichotomy (rint x) z) as [H|[H|H]]; [|assumption|].
  - assert (H' : (rint x <= z - 1)%Z) by lia. apply IZR_le in H'.
    rewrite minus_IZR in H'. lra.
  - assert (H' : (z + 1 <= rint x)%Z) by lia. apply IZR_le in H'.
    rewrite plus_IZR in H'. lra.
Qed.

Lemma round_tens_eq x : round_nd x (-1) = IZR (rint (x / 10)) * 10.
Proof.
  unfold round_nd. simpl Z.leb. cbv iota.
  replace (10 ^ Z.to_nat (- -1)) with 10 by (simpl; lra). reflexivity.
Qed.

Lemma round_cents_eq x : round_nd x 2 = IZR (rint (x * 100)) / 100.
Proof.
  unfold round_nd. simpl Z.leb. cbv iota.
  replace (10 ^ Z.to_nat 2) with 100 by (simpl; lra). reflexivity.
Qed.


(** At a tie the even multiple of 10 is taken. *)
Lemma round_tens_tie x (n : Z) :
  x = IZR n * 10 + 5 ->
  round_nd x (-1) = IZR (if Z.even n then n else n + 1) * 10.
Proof.
  intros ->. rewrite round_tens_eq. f_equal. f_equal.
  replace ((IZR n * 10 + 5) / 10) with (IZR n + 1 / 2) by field.
  unfold rint. cbv zeta.
  rewrite <- (Int_part_spec (IZR n + 1 / 2) n) by lra.
  rewrite (Rltb_false (IZR n + 1 / 2 - IZR n) (1 / 2)) by lra.
  rewrite (Rltb_false (1 / 2) (IZR n + 1 / 2 - IZR n)) by lra.
  reflexivity.
Qed.

(* ------------------------------------------------------------------ *)
(** ** Rounding to the nearest double *)

Lemma ulp64_pos x : 0 < ulp64 x.
Proof. unfold ulp64. apply powerRZ_lt. lra. Qed.

Lemma rnd64_0 : rnd64 0 = 0.
Proof. unfold rnd64. rewrite Reqb_true by reflexivity. reflexivity. Qed.

Lemma rnd64_error x : Rabs (rnd64 x - x) <= ulp64 x / 2.
Proof.
  pose proof (ulp64_pos x) as Hu. unfold rnd64.
  destruct (Reqb x 0) eqn:E.
  - rewrite Rminus_0_l, Rabs_Ropp.
    unfold Reqb in E. destruct (Req_dec_T x 0) as [->|]; [|discriminate].
    rewrite Rabs_R0. lra.
  - replace (IZR (rint (x / ulp64 x)) * ulp64 x - x)
      with ((IZR (rint (x / ulp64 x)) - x / ulp64 x) * ulp64 x) by (field; lra).
    rewrite Rabs_mult, (Rabs_right (ulp64 x)) by lra.
    pose proof (rint_close (x / ulp64 x)) as Hc.
    apply Rle_trans with (1 / 2 * ulp64 x); [|lra].
    apply Rmult_le_compat_r; [lra | exact Hc].
Qed.

Lemma ln_2_pos : 0 < ln 2.
Proof. pose proof ln_lt_2. lra. Qed.

Lemma ln_powerRZ_2 z : ln (powerRZ 2 z) = IZR z * ln 2.
Proof. rewrite powerRZ_Rpower by lra. apply ln_Rpower. Qed.

(** The binary exponent of a real in a given binade. *)
Lemma exponent_eq x k :
  powerRZ 2 k <= Rabs x < powerRZ 2 (k + 1) ->
  Int_part (ln (Rabs x) / ln 2) = k.
Proof.
  intros [Hlo Hhi]. pose proof ln_2_pos as H2.
  assert (Hpos : 0 < powerRZ 2 k) by (apply powerRZ_lt; lra).
  assert (Hx : 0 < Rabs x) by lra.
  symmetry. apply Int_part_spec.
  assert (H1 : IZR k * ln 2 <= ln (Rabs x)).
  { rewrite <- ln_powerRZ_2. destruct Hlo as [Hlo|Hlo].
    - left. apply ln_increasing; assumption.
    - right. rewrite Hlo. reflexivity. }
  assert (H3 : ln (Rabs x) < IZR (k + 1) * ln 2).
  { rewrite <- ln_powerRZ_2. apply ln_increasing; assumption. }
  rewrite plus_IZR in H3.
  split.
  - apply Rmult_lt_reg_r with (ln 2); [exact H2|].
    unfold Rdiv. rewrite Rmult_minus_distr_r, Rmult_assoc, Rinv_l by lra. lra.
  - apply Rmult_le_reg_r with (ln 2); [exact H2|].
    unfold Rdiv. rewrite Rmult_assoc, Rinv_l by lra. lra.
Qed.

Lemma exponent_le x k :
  0 < Rabs x < powerRZ 2 (k + 1) ->
  (Int_part (ln (Rabs x) / ln 2) <= k)%Z.
Proof.
  intros [Hx Hhi]. pose proof ln_2_pos as H2.
  pose proof (Int_part_bounds (ln (Rabs x) / ln 2)) as [Hb _].
  assert (H3 : ln (Rabs x) < IZR (k + 1) * ln 2).
  { rewrite <- ln_powerRZ_2. apply ln_increasing; assumption. }
  assert (H4 : ln (Rabs x) / ln 2 < IZR (k + 1)).
  { apply Rmult_lt_reg_r with (ln 2); [exact H2|].
    unfold Rdiv. rewrite Rmult_assoc, Rinv_l by lra. lra. }
  assert (H5 : IZR (Int_part (ln (Rabs x) / ln 2)) < IZR (k + 1)) by lra.
  apply lt_IZR in H5. lia.
Qed.

Lemma powerRZ_2_le a b : (a <= b)%Z -> powerRZ 2 a <= powerRZ 2 b.
Proof.
  intros H. rewrite !powerRZ_Rpower by lra. unfold Rpower.
  destruct (Z.eq_dec a b) as [->|Hne]; [lra|].
  left. apply exp_increasing. apply Rmult_lt_compat_r; [apply ln_2_pos|].
  apply IZR_lt. lia.
Qed.

Lemma ulp64_le x k :
  0 < Rabs x < powerRZ 2 (k + 1) -> (-1022 <= k)%Z ->
  ulp64 x <= powerRZ 2 (k - 52).
Proof.
  intros Hx Hk. pose proof (exponent_le x k Hx) as He.
  unfold ulp64. apply powerRZ_2_le. lia.
Qed.

Lemma ulp64_eq x k :
  powerRZ 2 k <= Rabs x < powerRZ 2 (k + 1) -> (-1022 <= k)%Z ->
  ulp64 x = powerRZ 2 (k - 52).
Proof.
  intros Hx Hk. unfold ulp64. rewrite (exponent_eq x k Hx).
  rewrite Z.max_l by lia. reflexivity.
Qed.

(** A double is the value of an integer significand at its exponent; a
    real within half a unit of it rounds to it. *)
Lemma rnd64_eval x k (n : Z) :
  powerRZ 2 k <= Rabs x < powerRZ 2 (k + 1) -> (-1022 <= k)%Z ->
  IZR n - 1 / 2 < x / powerRZ 2 (k - 52) < IZR n + 1 / 2 ->
  rnd64 x = IZR n * powerRZ 2 (k - 52).
Proof.
  intros Hx Hk Hn. unfold rnd64.
  assert (Hpos : 0 < powerRZ 2 k) by (apply powerRZ_lt; lra).
  rewrite Reqb_false.
  2:{ intros ->. rewrite Rabs_R0 in Hx. lra. }
  rewrite (ulp64_eq x k Hx Hk). rewrite (rint_eval _ n Hn). reflexivity.
Qed.

Lemma rnd64_close x : Rabs x < 256 -> Rabs (rnd64 x - x) <= 1 / 10 ^ 13.
Proof.
  intros Hx. destruct (Req_dec_T x 0) as [->|Hne].
  - rewrite rnd64_0, Rminus_0_r, Rabs_R0.
    apply Rlt_le, Rdiv_lt_0_compat; [lra | apply pow_lt; lra].
  - pose proof (rnd64_error x) as He.
    assert (H0 : 0 < Rabs x) by (apply Rabs_pos_lt; exact Hne).
    pose proof (ulp64_le x 7 ltac:(replace (powerRZ 2 (7 + 1)) with 256 by (simpl; lra); lra) ltac:(lia)) as Hu.
    apply Rle_trans with (ulp64 x / 2); [exact He|].
    apply Rle_trans with (powerRZ 2 (7 - 52) / 2); [lra|].
    change (7 - 52)%Z with (-45)%Z.
    assert (H45 : powerRZ 2 (-45) / 2 <= 1 / 10 ^ 13) by (simpl; lra).
    exact H45.
Qed.

Lemma Rabs_triangle_via a m b e1 e2 :
  Rabs (a - m) <= e1 -> Rabs (m - b) <= e2 -> Rabs (a - b) <= e1 + e2.
Proof.
  intros H1 H2. replace (a - b) with ((a - m) + (m - b)) by ring.
  apply Rle_trans with (Rabs (a - m) + Rabs (m - b)); [apply Rabs_triang | lra].
Qed.

Lemma Rabs_scaled S c c0 e :
  Rabs S <= 200 -> Rabs (c - c0) <= e -> Rabs (S * c - S * c0) <= 200 * e.
Proof.
  intros HS Hc. replace (S * c - S * c0) with (S * (c - c0)) by ring.
  rewrite Rabs_mult. apply Rmult_le_compat; try apply Rabs_pos; assumption.
Qed.

Lemma lit_1_03_close : Rabs (lit_1_03 - 103 / 100) <= 1 / 10 ^ 13.
Proof. apply rnd64_close. rewrite Rabs_right; lra. Qed.

Lemma lit_0_03_close : Rabs (lit_0_03 - 3 / 100) <= 1 / 10 ^ 13.
Proof. apply rnd64_close. rewrite Rabs_right; lra. Qed.

(** Up to 200 the double product [S * 1.03] and the double difference
    [S - S * .03] are within 1e-10 of the real S * 1.03 and S * 0.97. *)
Lemma call_product_close S :
  Rabs S <= 200 -> Rabs (dmul S lit_1_03 - S * (103 / 100)) <= 1 / 10 ^ 10.
Proof.
  intros HS. pose proof lit_1_03_close as Hc.
  pose proof (Rabs_scaled S _ _ _ HS Hc) as Hs.
  assert (Hb : Rabs (S * lit_1_03) < 256).
  { apply Rabs_le_bounds in Hs. apply Rabs_le_bounds in HS.
    apply Rabs_def1; lra. }
  pose proof (rnd64_close _ Hb) as Hr.
  pose proof (Rabs_triangle_via _ _ _ _ _ Hr Hs) as Ht.
  unfold dmul. lra.
Qed.

Lemma put_difference_close S :
  Rabs S <= 200 ->
  Rabs (dsub S (dmul S lit_0_03) - S * (97 / 100)) <= 1 / 10 ^ 10.
Proof.
  intros HS. pose proof lit_0_03_close as Hc.
  pose proof (Rabs_scaled S _ _ _ HS Hc) as Hs.
  assert (Hb : Rabs (S * lit_0_03) < 256).
  { apply Rabs_le_bounds in Hs. apply Rabs_le_bounds in HS.
    apply Rabs_def1; lra. }
  pose proof (rnd64_close _ Hb) as Hr.
  pose proof (Rabs_triangle_via _ _ _ _ _ Hr Hs) as Hp.
  fold (dmul S lit_0_03) in Hp.
  assert (Hd : Rabs (S - dmul S lit_0_03) < 256).
  { apply Rabs_le_bounds in Hp. apply Rabs_le_bounds in HS.
    apply Rabs_def1; lra. }
  pose proof (rnd64_close _ Hd) as Hq. fold (dsub S (dmul S lit_0_03)) in Hq.
  apply Rabs_le_bounds in Hp. apply Rabs_le_bounds in Hq.
  apply Rabs_le. lra.
Qed.

(* ------------------------------------------------------------------ *)
(** ** getVol, getCallData and getPutData *)

Lemma log_returns_from_length prev close :
  length (log_returns_from prev close) = length close.
Proof.
  revert prev. induction close as [|c rest IH]; intros prev; simpl;
    [reflexivity | rewrite IH; reflexivity].
Qed.

Lemma log_returns_length close : length (log_returns close) = length close.
Proof.
  destruct close as [|c rest]; simpl; [reflexivity|].
  rewrite log_returns_from_length. reflexivity.
Qed.

Lemma getVol_length self : length (getVol self) = length (getPriceData self).
Proof.
  unfold getVol, rolling_std.
  rewrite !length_map, length_seq, log_returns_length, length_map. reflexivity.
Qed.

Lemma getVol_in_range self date :
  (date < length (getPriceData self))%nat ->
  exists sigma, nth_error (getVol self) date = Some sigma.
Proof.
  intros H. rewrite <- getVol_length in H.
  destruct (nth_error (getVol self) date) eqn:E; [eauto|].
  apply nth_error_None in E. lia.
Qed.

Lemma getCallData_eq self S date sigma :
  nth_error (getVol self) date = Some sigma ->
  getCallData self S date
  = Ret (fround (fsub (CallPrice S (near_call_strike S + 0) (exp_ self) (intRate self) sigma)
                      (CallPrice S (near_call_strike S + 5) (exp_ self) (intRate self) sigma)) 2,
         near_call_strike S + 0, near_call_strike S + 5).
Proof.
  intros H. unfold getCallData. cbn [call_loop]. unfold py_index at 1 2.
  rewrite H. cbn [bind]. reflexivity.
Qed.

Lemma getPutData_eq self S date sigma :
  nth_error (getVol self) date = Some sigma ->
  getPutData self S date
  = Ret (fround (fsub (PutPrice S (near_put_strike S - 0) (exp_ self) (intRate self) sigma)
                      (PutPrice S (near_put_strike S - 5) (exp_ self) (intRate self) sigma)) 2,
         near_put_strike S - 0, near_put_strike S - 5).
Proof.
  intros H. unfold getPutData. cbn [put_loop]. unfold py_index at 1 2.
  rewrite H. cbn [bind]. reflexivity.
Qed.

Lemma getCallData_out_of_range self S date :
  nth_error (getVol self) date = None ->
  getCallData self S date = Raise IndexError.
Proof.
  intros H. unfold getCallData. cbn [call_loop]. unfold py_index at 1.
  rewrite H. reflexivity.
Qed.

Lemma getPutData_out_of_range self S date :
  nth_error (getVol self) date = None ->
  getPutData self S date = Raise IndexError.
Proof.
  intros H. unfold getPutData. cbn [put_loop]. unfold py_index at 1.
  rewrite H. reflexivity.
Qed.

(* ------------------------------------------------------------------ *)
(** ** The volatility of a flat stretch of closes *)

Lemma skipn_repeat_app {A : Type} (a : A) m k tail :
  (k <= m)%nat -> skipn k (repeat a m ++ tail) = repeat a (m - k) ++ tail.
Proof.
  revert m. induction k as [|k IH]; intros m H.
  - rewrite Nat.sub_0_r. reflexivity.
  - destruct m as [|m]; [lia|]. simpl. apply IH. lia.
Qed.

Lemma firstn_repeat_app {A : Type} (a : A) m k tail :
  (k <= m)%nat -> firstn k (repeat a m ++ tail) = repeat a k.
Proof.
  revert m. induction k as [|k IH]; intros m H; [reflexivity|].
  destruct m as [|m]; [lia|]. simpl. f_equal. apply IH. lia.
Qed.

Lemma log_returns_from_flat c m tail :
  0 < c ->
  log_returns_from c (repeat c m ++ tail)
  = repeat (Fin 0) m ++ log_returns_from c tail.
Proof.
  intros Hc. induction m as [|m IH]; [reflexivity|].
  cbn [repeat app log_returns_from]. rewrite IH. f_equal.
  cbn [fdiv]. rewrite (Reqb_false c 0) by lra.
  replace (c / c) with 1 by (field; lra).
  cbn [flog]. rewrite (Rltb_true 0 1) by lra. rewrite ln_1. reflexivity.
Qed.

Lemma finite_values_repeat x k : finite_values (repeat (Fin x) k) = Some (repeat x k).
Proof. induction k as [|k IH]; simpl; [reflexivity | rewrite IH; reflexivity]. Qed.

Lemma Rsum_repeat_0 k : Rsum (repeat 0 k) = 0.
Proof. induction k as [|k IH]; simpl; [reflexivity | rewrite IH; lra]. Qed.

Lemma sample_std_zeros k : sample_std (repeat 0 k) = 0.
Proof.
  unfold sample_std. cbv zeta. rewrite Rsum_repeat_0.
  replace (0 / INR (length (repeat 0 k))) with 0 by (unfold Rdiv; ring).
  assert (Hm : map (fun x => (x - 0) * (x - 0)) (repeat 0 k) = repeat 0 k).
  { induction k as [|k IH]; simpl; [reflexivity|]. rewrite IH. f_equal. ring. }
  rewrite Hm, Rsum_repeat_0.
  replace (0 / (INR (length (repeat 0 k)) - 1)) with 0 by (unfold Rdiv; ring).
  apply sqrt_0.
Qed.

Lemma nth_error_map_seq {A : Type} (f : nat -> A) n i :
  (i < n)%nat -> nth_error (map f (seq 0 n)) i = Some (f i).
Proof.
  intros H. rewrite nth_error_map.
  replace (nth_error (seq 0 n) i) with (Some i); [reflexivity|].
  symmetry. rewrite nth_error_seq.
  destruct (Nat.ltb_spec i n); [reflexivity | lia].
Qed.

(** After 252 equal closes the volatility is exactly zero. *)
Lemma getVol_flat self c n tail i :
  map bar_Close (getPriceData self) = repeat c n ++ tail ->
  0 < c -> (252 <= i < n)%nat ->
  nth_error (getVol self) i = Some (Fin 0).
Proof.
  intros Hcl Hc Hi. unfold getVol. rewrite Hcl.
  destruct n as [|n]; [lia|].
  cbn [repeat app log_returns]. rewrite log_returns_from_flat by assumption.
  rewrite nth_error_map. unfold rolling_std.
  rewrite nth_error_map_seq.
  2:{ cbn [length]. rewrite length_app, repeat_length. lia. }
  destruct (Nat.ltb_spec (Datatypes.S i) 252) as [Hlt|_]; [lia|].
  replace (Datatypes.S i - 252)%nat with (Datatypes.S (i - 252))%nat by lia.
  cbn [skipn]. rewrite skipn_repeat_app by lia.
  rewrite firstn_repeat_app by lia.
  rewrite finite_values_repeat, sample_std_zeros.
  cbn [option_map fsqrt]. rewrite (Rltb_false 252 0) by lra.
  cbn [fmul]. rewrite Rmult_0_l. reflexivity.
Qed.

(* ------------------------------------------------------------------ *)
(** ** The formulas at zero volatility: the division by zero yields an
       infinity of the sign of the numerator *)

Section ZeroVol.
Variables S K T r : R.
Hypothesis HS : 0 < S.
Hypothesis HK : 0 < K.
Hypothesis HT : 0 < T.

Lemma bs_d1_zero_vol :
  bs_d1 S K T r (Fin 0) = inf_of_sign (ln (S / K) + (r + 5 / 10 * (0 * 0)) * T).
Proof.
  assert (HSK : 0 < S / K) by (apply Rdiv_lt_0_compat; assumption).
  unfold bs_d1. cbn [fdiv fmul fadd flog fsqrt].
  rewrite (Reqb_false K 0) by lra.
  cbn [flog]. rewrite (Rltb_true 0 (S / K)) by assumption.
  rewrite (Rltb_false T 0) by lra.
  cbn [fdiv fmul fadd]. rewrite Reqb_true by ring. reflexivity.
Qed.

Lemma bs_d2_zero_vol :
  bs_d2 S K T r (Fin 0) = inf_of_sign (ln (S / K) + (r + - (5 / 10 * (0 * 0))) * T).
Proof.
  assert (HSK : 0 < S / K) by (apply Rdiv_lt_0_compat; assumption).
  unfold bs_d2. cbn [fdiv fmul fadd fsub fneg flog fsqrt].
  rewrite (Reqb_false K 0) by lra.
  cbn [flog]. rewrite (Rltb_true 0 (S / K)) by assumption.
  rewrite (Rltb_false T 0) by lra.
  cbn [fdiv fmul fadd]. rewrite Reqb_true by ring. reflexivity.
Qed.

(** In the money forward: both distribution values are 1. *)
Lemma CallPrice_zero_vol_itm :
  0 < ln (S / K) + r * T ->
  CallPrice S K T r (Fin 0) = Fin (S - K * exp (- r * T)).
Proof.
  intros H. unfold CallPrice, discounted.
  rewrite bs_d1_zero_vol, bs_d2_zero_vol. unfold inf_of_sign.
  rewrite !Rltb_true by lra.
  cbn [fcdf fmul fneg fexp fsub fadd]. f_equal. ring.
Qed.

(** Out of the money forward: both distribution values are 0. *)
Lemma CallPrice_zero_vol_otm :
  ln (S / K) + r * T < 0 ->
  CallPrice S K T r (Fin 0) = Fin 0.
Proof.
  intros H. unfold CallPrice, discounted.
  rewrite bs_d1_zero_vol, bs_d2_zero_vol. unfold inf_of_sign.
  rewrite !(Rltb_false 0) by lra. rewrite !Rltb_true by lra.
  cbn [fcdf fmul fneg fexp fsub fadd]. f_equal. ring.
Qed.
End ZeroVol.

Lemma PutPrice_zero_vol S K T r :
  0 < S -> 0 < K -> 0 < T ->
  (0 < ln (S / K) + r * T -> PutPrice S K T r (Fin 0) = Fin 0) /\
  (ln (S / K) + r * T < 0 -> PutPrice S K T r (Fin 0) = Fin (K * exp (- r * T) - S)).
Proof.
  intros HS HK HT. split; intros H; unfold PutPrice, discounted;
    rewrite bs_d1_zero_vol, bs_d2_zero_vol by assumption; unfold inf_of_sign.
  - rewrite !Rltb_true by lra.
    cbn [fcdf fmul fneg fexp fsub fadd]. f_equal. ring.
  - rewrite !(Rltb_false 0) by lra. rewrite !Rltb_true by lra.
    cbn [fcdf fmul fneg fexp fsub fadd]. f_equal. ring.
Qed.

(* ------------------------------------------------------------------ *)
(** ** A spot of 110 at zero volatility, with the program's own parameters
       (one month to expiration, 1% interest) *)

Lemma month_discount_bounds : 1 - 1 / 1200 < month_discount < 1200 / 1201.
Proof.
  unfold month_discount. split.
  - pose proof (exp_ineq1 (- (1 / 100) * (1 / 12)) ltac:(lra)). lra.
  - replace (- (1 / 100) * (1 / 12)) with (- (1 / 1200)) by lra.
    rewrite exp_Ropp.
    pose proof (exp_ineq1 (1 / 1200) ltac:(lra)) as H.
    assert (Hpos : 0 < 1 + 1 / 1200) by lra.
    apply Rlt_le_trans with (/ (1 + 1 / 1200)).
    + apply Rinv_lt_contravar; [|exact H].
      apply Rmult_lt_0_compat; [lra | apply exp_pos].
    + right. field.
Qed.

(** The two literals as doubles, and the two spots at which the double
    product and the double difference are exactly 155.0. *)
Lemma powerRZ_2_neg52 : powerRZ 2 (-52) = / 4503599627370496.
Proof. simpl. lra. Qed.

Lemma powerRZ_2_neg58 : powerRZ 2 (-58) = / 288230376151711744.
Proof. simpl. lra. Qed.

Lemma powerRZ_2_neg50 : powerRZ 2 (-50) = / 1125899906842624.
Proof. simpl. lra. Qed.

Lemma powerRZ_2_neg45 : powerRZ 2 (-45) = / 35184372088832.
Proof. simpl. lra. Qed.

Lemma lit_1_03_value : lit_1_03 = 4638707616191611 / 4503599627370496.
Proof.
  unfold lit_1_03.
  rewrite (rnd64_eval (103 / 100) 0 4638707616191611).
  - change (0 - 52)%Z with (-52)%Z. rewrite powerRZ_2_neg52. lra.
  - rewrite Rabs_right by lra. simpl. lra.
  - lia.
  - change (0 - 52)%Z with (-52)%Z. rewrite powerRZ_2_neg52. lra.
Qed.

Lemma lit_0_03_value : lit_0_03 = 8646911284551352 / 288230376151711744.
Proof.
  unfold lit_0_03.
  rewrite (rnd64_eval (3 / 100) (-6) 8646911284551352).
  - change (-6 - 52)%Z with (-58)%Z. rewrite powerRZ_2_neg58. lra.
  - rewrite Rabs_right by lra. simpl. lra.
  - lia.
  - change (-6 - 52)%Z with (-58)%Z. rewrite powerRZ_2_neg58. lra.
Qed.

Lemma tie_call_product : dmul tie_call_spot lit_1_03 = 155.
Proof.
  unfold dmul, tie_call_spot. rewrite lit_1_03_value.
  rewrite (rnd64_eval _ 7 5453577673768960).
  - change (7 - 52)%Z with (-45)%Z. rewrite powerRZ_2_neg45. lra.
  - rewrite Rabs_right by lra. simpl. lra.
  - lia.
  - change (7 - 52)%Z with (-45)%Z. rewrite powerRZ_2_neg45. lra.
Qed.

Lemma tie_put_difference : dsub tie_put_spot (dmul tie_put_spot lit_0_03) = 155.
Proof.
  assert (Hm : dmul tie_put_spot lit_0_03 = 5397355223523919 / 1125899906842624).
  { unfold dmul, tie_put_spot. rewrite lit_0_03_value.
    rewrite (rnd64_eval _ 2 5397355223523919).
    - change (2 - 52)%Z with (-50)%Z. rewrite powerRZ_2_neg50. lra.
    - rewrite Rabs_right by lra. simpl. lra.
    - lia.
    - change (2 - 52)%Z with (-50)%Z. rewrite powerRZ_2_neg50. lra. }
  rewrite Hm. unfold dsub, tie_put_spot.
  rewrite (rnd64_eval _ 7 5453577673768960).
  - change (7 - 52)%Z with (-45)%Z. rewrite powerRZ_2_neg45. lra.
  - rewrite Rabs_right by lra. simpl. lra.
  - lia.
  - change (7 - 52)%Z with (-45)%Z. rewrite powerRZ_2_neg45. lra.
Qed.

Lemma round_tens_155 : round_nd 155 (-1) = 160.
Proof. rewrite (round_tens_tie 155 15) by lra. cbn. lra. Qed.

Lemma near_call_strike_110 : near_call_strike 110 = 110.
Proof.
  unfold near_call_strike. rewrite round_tens_eq.
  pose proof (call_product_close 110 ltac:(rewrite Rabs_right; lra)) as H.
  apply Rabs_le_bounds in H.
  rewrite (rint_eval _ 11) by lra. lra.
Qed.

Lemma ln_22_23 : ln (110 / (110 + 5)) + 1 / 100 * (1 / 12) < 0.
Proof.
  assert (H : ln (110 / (110 + 5)) < - (1 / 100) * (1 / 12)); [|lra].
  apply exp_lt_inv. rewrite exp_ln by lra.
  pose proof month_discount_bounds as Hb. unfold month_discount in Hb. lra.
Qed.

Lemma call_credit_flat_110 :
  fround (fsub (CallPrice 110 (near_call_strike 110 + 0) (1 / 12) (1 / 100) (Fin 0))
               (CallPrice 110 (near_call_strike 110 + 5) (1 / 12) (1 / 100) (Fin 0))) 2
  = Fin (9 / 100).
Proof.
  rewrite near_call_strike_110.
  rewrite CallPrice_zero_vol_itm; try lra.
  2:{ replace (110 / (110 + 0)) with 1 by lra. rewrite ln_1. lra. }
  rewrite CallPrice_zero_vol_otm; try lra.
  2:{ apply ln_22_23. }
  cbn [fsub fneg fadd fround]. f_equal.
  rewrite round_cents_eq.
  pose proof month_discount_bounds as Hb. unfold month_discount in Hb.
  rewrite (rint_eval _ 9); [lra|]. lra.
Qed.


Lemma getCallData_flat_110 self n tail i :
  map bar_Close (getPriceData self) = repeat 110 n ++ tail ->
  exp_ self = 1 / 12 -> intRate self = 1 / 100 ->
  (252 <= i < n)%nat ->
  getCallData self 110 i = Ret (Fin (9 / 100), 110, 115).
Proof.
  intros Hcl HT Hr Hi.
  rewrite (getCallData_eq self 110 i (Fin 0)).
  2:{ apply (getVol_flat self 110 n tail); [assumption | lra | assumption]. }
  rewrite HT, Hr, call_credit_flat_110, near_call_strike_110.
  repeat f_equal; lra.
Qed.

Lemma near_put_strike_110 : near_put_strike 110 = 110.
Proof.
  unfold near_put_strike. rewrite round_tens_eq.
  pose proof (put_difference_close 110 ltac:(rewrite Rabs_right; lra)) as H.
  apply Rabs_le_bounds in H.
  rewrite (rint_eval _ 11) by lra. lra.
Qed.

(** The put spread sold at 110 is out of the money on both legs: the credit
    is zero and the far strike 105. *)
Lemma getPutData_flat_110 self n tail i :
  map bar_Close (getPriceData self) = repeat 110 n ++ tail ->
  exp_ self = 1 / 12 -> intRate self = 1 / 100 ->
  (252 <= i < n)%nat ->
  getPutData self 110 i = Ret (Fin 0, 110, 105).
Proof.
  intros Hcl HT Hr Hi.
  rewrite (getPutData_eq self 110 i (Fin 0)).
  2:{ apply (getVol_flat self 110 n tail); [assumption | lra | assumption]. }
  rewrite HT, Hr, near_put_strike_110.
  rewrite (proj1 (PutPrice_zero_vol 110 (110 - 0) (1 / 12) (1 / 100)
                    ltac:(lra) ltac:(lra) ltac:(lra))).
  2:{ replace (110 / (110 - 0)) with 1 by lra. rewrite ln_1. lra. }
  rewrite (proj1 (PutPrice_zero_vol 110 (110 - 5) (1 / 12) (1 / 100)
                    ltac:(lra) ltac:(lra) ltac:(lra))).
  2:{ assert (H : ln 1 < ln (110 / (110 - 5))) by (apply ln_increasing; lra).
      rewrite ln_1 in H. lra. }
  cbn [fsub fneg fadd fround]. rewrite round_cents_eq.
  rewrite (rint_eval _ 0) by lra.
  repeat f_equal; lra.
Qed.

(* ------------------------------------------------------------------ *)
(** ** The pricer on the flat history *)

Lemma map_const_seq {A B : Type} (f : A -> B) (b : B) (l : list A) :
  (forall a, f a = b) -> map f l = repeat b (length l).
Proof.
  intros H. induction l as [|a l IH]; simpl; [reflexivity|].
  rewrite H, IH. reflexivity.
Qed.

Lemma flat_history_closes e1 e2 :
  map bar_Close (flat_history e1 e2) = repeat 110 254 ++ [e1; e2].
Proof.
  unfold flat_history. rewrite map_app, map_map.
  rewrite (map_const_seq _ 110) by reflexivity.
  rewrite length_seq. reflexivity.
Qed.

Lemma flat_run_vol T e1 e2 i :
  (252 <= i < 254)%nat -> nth_error (getVol (flat_run T e1 e2)) i = Some (Fin 0).
Proof.
  intros Hi. apply (getVol_flat _ 110 254 [e1; e2]).
  - apply flat_history_closes.
  - lra.
  - exact Hi.
Qed.

Lemma flat_run_call_data e1 e2 i :
  (252 <= i < 254)%nat ->
  getCallData (flat_run (1 / 12) e1 e2) 110 i = Ret (Fin (9 / 100), 110, 115).
Proof.
  intros Hi. apply (getCallData_flat_110 _ 254 [e1; e2]).
  - apply flat_history_closes.
  - reflexivity.
  - reflexivity.
  - exact Hi.
Qed.

(** With no time to expiration as well, the near leg is 0/0. *)
Lemma flat_run_call_data_T0 e1 e2 :
  getCallData (flat_run 0 e1 e2) 110 252 = Ret (NaN, 110, 115).
Proof.
  rewrite (getCallData_eq _ 110 252 (Fin 0)) by (apply flat_run_vol; lia).
  rewrite near_call_strike_110. cbn [exp_ intRate flat_run].
  assert (Hnear : CallPrice 110 (110 + 0) 0 (1 / 100) (Fin 0) = NaN).
  { unfold CallPrice, bs_d1, bs_d2. cbn [fdiv fmul fadd fsub fneg fsqrt].
    rewrite (Reqb_false (110 + 0) 0) by lra.
    replace (110 / (110 + 0)) with 1 by lra.
    cbn [flog]. rewrite (Rltb_true 0 1) by lra. rewrite ln_1.
    rewrite (Rltb_false 0 0) by lra. cbn [fmul fadd fdiv].
    rewrite sqrt_0. rewrite !(Reqb_true (0 * 0) 0) by lra.
    unfold inf_of_sign. rewrite !Rltb_false by lra. reflexivity. }
  rewrite Hnear. cbn [fsub fadd fround].
  repeat f_equal; lra.
Qed.

(** C5 (amended). The pricer checks nothing: for every spot, time to
    expiration, rate and volatility of the series, zero and negative values
    included, getCallData and getPutData evaluate the formulas and return
    the rounded credit and the two strikes, as soon as the date is a row of
    the history. *)
Theorem pricer_has_no_input_check (self : Options_Pricing) (S : R) (date : nat) :
  (date < length (getPriceData self))%nat ->
  exists sigma,
    nth_error (getVol self) date = Some sigma /\
    getCallData self S date
    = Ret (fround (fsub (CallPrice S (near_call_strike S + 0) (exp_ self) (intRate self) sigma)
                        (CallPrice S (near_call_strike S + 5) (exp_ self) (intRate self) sigma)) 2,
           near_call_strike S + 0, near_call_strike S + 5) /\
    getPutData self S date
    = Ret (fround (fsub (PutPrice S (near_put_strike S - 0) (exp_ self) (intRate self) sigma)
                        (PutPrice S (near_put_strike S - 5) (exp_ self) (intRate self) sigma)) 2,
           near_put_strike S - 0, near_put_strike S - 5).
Proof.
  intros H. destruct (getVol_in_range self date H) as [sigma Hs].
  exists sigma. split; [exact Hs|]. split.
  - apply getCallData_eq. exact Hs.
  - apply getPutData_eq. exact Hs.
Qed.

Lemma pricer_has_no_input_check_witness :
  exists sigma,
    nth_error (getVol (flat_run 0 112 120)) 252 = Some sigma /\
    getCallData (flat_run 0 112 120) 110 252
    = Ret (fround (fsub (CallPrice 110 (near_call_strike 110 + 0) 0 (1 / 100) sigma)
                        (CallPrice 110 (near_call_strike 110 + 5) 0 (1 / 100) sigma)) 2,
           near_call_strike 110 + 0, near_call_strike 110 + 5) /\
    getPutData (flat_run 0 112 120) 110 252
    = Ret (fround (fsub (PutPrice 110 (near_put_strike 110 - 0) 0 (1 / 100) sigma)
                        (PutPrice 110 (near_put_strike 110 - 5) 0 (1 / 100) sigma)) 2,
           near_put_strike 110 - 0, near_put_strike 110 - 5).
Proof.
  apply (pricer_has_no_input_check (flat_run 0 112 120) 110 252).
  unfold flat_run, flat_history. cbn [getPriceData].
  rewrite length_app, length_map, length_seq. simpl. lia.
Defined.

(** C5, as stated, fails: at zero volatility (a flat history) the pricer
    returns the credit 0.09 and the strikes, and with a zero time to
    expiration as well it returns NaN; neither is a failure. *)
Lemma pricer_returns_at_zero_volatility :
  nth_error (getVol (flat_run (1 / 12) 112 120)) 252 = Some (Fin 0) /\
  getCallData (flat_run (1 / 12) 112 120) 110 252 = Ret (Fin (9 / 100), 110, 115) /\
  nth_error (getVol (flat_run 0 112 120)) 252 = Some (Fin 0) /\
  exp_ (flat_run 0 112 120) = 0 /\
  getCallData (flat_run 0 112 120) 110 252 = Ret (NaN, 110, 115).
Proof.
  split; [apply flat_run_vol; lia|].
  split; [apply flat_run_call_data; lia|].
  split; [apply flat_run_vol; lia|].
  split; [reflexivity|].
  apply flat_run_call_data_T0.
Qed.




(* ------------------------------------------------------------------ *)
(** ** Candidates (lines 122-143) *)

Lemma loc_Close_ret df d v : loc bar_Close df d = Ret v -> close_at df d = v.
Proof.
  unfold loc, close_at. destruct (find _ df); intros H; inversion H; reflexivity.
Qed.

Lemma expiration_in_valid valid i e :
  expiration_of valid i = Some e -> In e valid.
Proof. intros H. apply earliest_from_some in H. tauto. Qed.

(** What the candidate loop returns, when it returns. *)
Lemma collect_ret_inv fuel df valid signals dates price expPrice res :
  incl signals (df_index df) ->
  collect_candidates fuel df valid signals dates price expPrice = Ret res ->
  res = (dates ++ filter (qualifies df) signals,
         price ++ map (close_at df) (filter (qualifies df) signals),
         expPrice ++ map (exp_close df valid) (filter (qualifies df) signals))
  /\ forall d, In d (filter (qualifies df) signals) ->
               exists e, expiration_of valid d = Some e.
Proof.
  revert dates price expPrice res.
  induction signals as [|i rest IH]; intros dates price expPrice res Hincl H.
  - cbn [collect_candidates] in H. inversion H. cbn [filter map].
    rewrite !app_nil_r. split; [reflexivity | intros d []].
  - assert (Hi : In i (df_index df)) by (apply Hincl; left; reflexivity).
    assert (Hrest : incl rest (df_index df))
      by (intros x Hx; apply Hincl; right; exact Hx).
    cbn [collect_candidates] in H.
    rewrite (loc_Close_in df i Hi) in H. cbn [bind] in H.
    change (Rltb 100 (close_at df i) && Rltb (close_at df i) 200)
      with (qualifies df i) in H.
    cbn [filter]. destruct (qualifies df i) eqn:Hband.
    + destruct (resolve_expiration fuel valid i) as [e| |] eqn:He;
        cbn [bind] in H; try discriminate.
      apply resolve_ret in He.
      destruct (loc bar_Close df e) as [c| |] eqn:Hc; cbn [bind] in H;
        try discriminate.
      apply loc_Close_ret in Hc.
      destruct (IH _ _ _ _ Hrest H) as [Hres Hall]. split.
      * rewrite Hres. cbn [map]. unfold exp_close at 2, expiry. rewrite He, Hc.
        rewrite <- !app_assoc. reflexivity.
      * intros d [<-|Hd]; [eauto | auto].
    + destruct (IH _ _ _ _ Hrest H) as [Hres Hall]. split; assumption.
Qed.

(** The candidate loop returns as soon as every candidate has an
    expiration within the reach of the fuel. *)
Lemma collect_ret fuel df valid signals dates price expPrice :
  incl signals (df_index df) ->
  incl valid (df_index df) ->
  (7 <= fuel)%nat ->
  (forall d, In d signals -> qualifies df d = true ->
     exists e, expiration_of valid d = Some e /\
               (e <= max_date)%Z /\
               (Z.to_nat (e - first_friday (d + 30))%Z < fuel)%nat) ->
  collect_candidates fuel df valid signals dates price expPrice
  = Ret (dates ++ filter (qualifies df) signals,
         price ++ map (close_at df) (filter (qualifies df) signals),
         expPrice ++ map (exp_close df valid) (filter (qualifies df) signals)).
Proof.
  intros Hincl Hvalid H7. revert dates price expPrice.
  induction signals as [|i rest IH]; intros dates price expPrice Hexp.
  - cbn [collect_candidates filter map]. rewrite !app_nil_r. reflexivity.
  - assert (Hi : In i (df_index df)) by (apply Hincl; left; reflexivity).
    assert (Hrest : incl rest (df_index df))
      by (intros x Hx; apply Hincl; right; exact Hx).
    cbn [collect_candidates]. rewrite (loc_Close_in df i Hi). cbn [bind].
    change (Rltb 100 (close_at df i) && Rltb (close_at df i) 200)
      with (qualifies df i).
    cbn [filter]. destruct (qualifies df i) eqn:Hband.
    + destruct (Hexp i (or_introl eq_refl) Hband) as (e & He & Hmax & Hfuel).
      rewrite (resolve_found valid i e fuel He Hmax H7 Hfuel). cbn [bind].
      rewrite (loc_Close_in df e)
        by (apply Hvalid; exact (expiration_in_valid _ _ _ He)).
      cbn [bind]. rewrite IH.
      * cbn [map]. unfold exp_close at 2, expiry. rewrite He.
        rewrite <- !app_assoc. reflexivity.
      * exact Hrest.
      * intros d Hd. apply Hexp. right. exact Hd.
    + apply IH; [exact Hrest|]. intros d Hd. apply Hexp. right. exact Hd.
Qed.

(** The candidate loop raises nothing but the exception of the date
    addition, and only for a candidate with no index date from its target
    Friday to the last Timestamp. *)
Lemma collect_raise fuel df valid signals dates price expPrice ex :
  incl signals (df_index df) ->
  incl valid (df_index df) ->
  collect_candidates fuel df valid signals dates price expPrice = Raise ex ->
  ex = OutOfBoundsDatetime /\
  exists d, In d signals /\ qualifies df d = true /\
    forall e, In e valid -> (first_friday (d + 30) <= e)%Z -> (max_date < e)%Z.
Proof.
  intros Hincl Hvalid. revert dates price expPrice.
  induction signals as [|i rest IH]; intros dates price expPrice H; [discriminate|].
  assert (Hi : In i (df_index df)) by (apply Hincl; left; reflexivity).
  assert (Hrest : incl rest (df_index df))
    by (intros x Hx; apply Hincl; right; exact Hx).
  cbn [collect_candidates] in H. rewrite (loc_Close_in df i Hi) in H.
  cbn [bind] in H.
  change (Rltb 100 (close_at df i) && Rltb (close_at df i) 200)
    with (qualifies df i) in H.
  destruct (qualifies df i) eqn:Hband.
  - destruct (resolve_expiration fuel valid i) as [e|ex'|] eqn:He;
      cbn [bind] in H; try discriminate.
    + apply resolve_ret in He.
      rewrite (loc_Close_in df e) in H
        by (apply Hvalid; exact (expiration_in_valid _ _ _ He)).
      cbn [bind] in H. destruct (IH Hrest _ _ _ H) as (Hex & d & Hd & Hq & Hno).
      split; [exact Hex|]. exists d. split; [right; exact Hd | auto].
    + inversion H; subst ex'. apply resolve_raise in He.
      destruct He as [Hex Hno]. split; [exact Hex|].
      exists i. split; [left; reflexivity | auto].
  - destruct (IH Hrest _ _ _ H) as (Hex & d & Hd & Hq & Hno).
    split; [exact Hex|]. exists d. split; [right; exact Hd | auto].
Qed.

(** With enough fuel the candidate loop ends: it returns or raises. *)
Lemma collect_enough fuel df valid signals dates price expPrice :
  incl signals (df_index df) ->
  incl valid (df_index df) ->
  enough_fuel fuel df ->
  (exists res, collect_candidates fuel df valid signals dates price expPrice = Ret res)
  \/ collect_candidates fuel df valid signals dates price expPrice
     = Raise OutOfBoundsDatetime.
Proof.
  intros Hincl Hvalid [H7 Hfuel]. revert dates price expPrice.
  induction signals as [|i rest IH]; intros dates price expPrice.
  - left. eexists. reflexivity.
  - assert (Hi : In i (df_index df)) by (apply Hincl; left; reflexivity).
    assert (Hrest : incl rest (df_index df))
      by (intros x Hx; apply Hincl; right; exact Hx).
    cbn [collect_candidates]. rewrite (loc_Close_in df i Hi). cbn [bind].
    destruct (Rltb 100 (close_at df i) && Rltb (close_at df i) 200).
    + destruct (resolve_enough valid i fuel H7 (Hfuel i Hi)) as [[e He]|He];
        rewrite He; cbn [bind]; [|right; reflexivity].
      apply resolve_ret in He.
      rewrite (loc_Close_in df e)
        by (apply Hvalid; exact (expiration_in_valid _ _ _ He)).
      cbn [bind]. apply IH. exact Hrest.
    + apply IH. exact Hrest.
Qed.

(* ------------------------------------------------------------------ *)
(** ** Lookups by value *)

Lemma find_index_some {A : Type} (p : nat -> A -> bool) l m0 k :
  find_index p l m0 = Some k ->
  (m0 <= k)%nat /\
  (exists a, nth_error l (k - m0) = Some a /\ p k a = true) /\
  (forall j b, (j < k - m0)%nat -> nth_error l j = Some b -> p (m0 + j)%nat b = false).
Proof.
  revert m0. induction l as [|a l IH]; intros m0 H; [discriminate|].
  cbn [find_index] in H. destruct (p m0 a) eqn:Hp.
  - inversion H; subst k. rewrite Nat.sub_diag. split; [lia|]. split.
    + exists a. split; [reflexivity | exact Hp].
    + intros j b Hj. lia.
  - apply IH in H. destruct H as (Hle & (a' & Hn & Hpa) & Hbefore).
    split; [lia|]. split.
    + exists a'. split; [|exact Hpa].
      replace (k - m0)%nat with (Datatypes.S (k - Datatypes.S m0)) by lia.
      exact Hn.
    + intros j b Hj Hnth. destruct j as [|j].
      * cbn in Hnth. inversion Hnth; subst b. rewrite Nat.add_0_r. exact Hp.
      * cbn in Hnth. replace (m0 + Datatypes.S j)%nat with (Datatypes.S m0 + j)%nat by lia.
        apply Hbefore; [lia | exact Hnth].
Qed.

Lemma find_index_found {A : Type} (p : nat -> A -> bool) l m0 j a :
  nth_error l j = Some a -> p (m0 + j)%nat a = true ->
  exists k, find_index p l m0 = Some k /\ (k <= m0 + j)%nat.
Proof.
  revert m0 j. induction l as [|b l IH]; intros m0 j Hn Hp.
  - destruct j; discriminate.
  - cbn [find_index]. destruct (p m0 b) eqn:Hpb.
    + exists m0. split; [reflexivity | lia].
    + destruct j as [|j].
      * cbn in Hn. inversion Hn; subst b. rewrite Nat.add_0_r in Hp. congruence.
      * cbn in Hn. replace (m0 + Datatypes.S j)%nat with (Datatypes.S m0 + j)%nat in * by lia.
        destruct (IH (Datatypes.S m0) j Hn Hp) as (k & Hk & Hle).
        exists k. split; [exact Hk | lia].
Qed.

(** The first position holding a close equal to [x]. *)
Lemma list_index_close_ret price x w :
  list_index Reqb price x = Ret w ->
  nth_error price w = Some x /\
  (forall m p, (m < w)%nat -> nth_error price m = Some p -> p <> x).
Proof.
  unfold list_index. destruct (find_index _ price 0%nat) as [k|] eqn:Hk;
    intros H; inversion H; subst k.
  apply find_index_some in Hk. rewrite Nat.sub_0_r in Hk.
  destruct Hk as (_ & (a & Hn & Ha) & Hbefore).
  apply Reqb_eq in Ha. subst a. split; [exact Hn|].
  intros m p Hm Hp Heq. specialize (Hbefore m p Hm Hp).
  rewrite Reqb_true in Hbefore by exact Heq. discriminate.
Qed.

Lemma list_index_close_in price x j :
  nth_error price j = Some x ->
  exists w, list_index Reqb price x = Ret w /\ (w <= j)%nat.
Proof.
  intros Hn.
  destruct (find_index_found (fun _ a => Reqb a x) price 0%nat j x Hn (Reqb_refl x))
    as (k & Hk & Hle).
  exists k. unfold list_index. rewrite Hk. split; [reflexivity | lia].
Qed.

Lemma list_index_date_in valid d :
  In d valid ->
  exists n, list_index Z.eqb valid d = Ret n /\ (n < length valid)%nat.
Proof.
  intros Hin. apply In_nth_error in Hin. destruct Hin as [j Hj].
  destruct (find_index_found (fun _ a => Z.eqb a d) valid 0%nat j d Hj (Z.eqb_refl d))
    as (k & Hk & Hle).
  exists k. unfold list_index. rewrite Hk. split; [reflexivity|].
  assert (j < length valid)%nat by (apply nth_error_Some; congruence). lia.
Qed.

(* ------------------------------------------------------------------ *)
(** ** Pricing (lines 148-167) *)

Lemma price_spreads_ret_inv getData valid dates price todo credit strike res :
  price_spreads getData valid dates price todo credit strike = Ret res ->
  exists datas,
    Forall2 (priced_with getData valid dates price) todo datas /\
    res = (credit ++ credits_of datas, strike ++ strikes_of datas).
Proof.
  revert credit strike res.
  induction todo as [|i rest IH]; intros credit strike res H.
  - cbn in H. inversion H. exists []. split; [constructor|].
    cbn. rewrite !app_nil_r. reflexivity.
  - cbn [price_spreads] in H.
    destruct (list_index Reqb price i) as [w| |] eqn:Hw; cbn [bind] in H; try discriminate.
    destruct (py_index dates w) as [d| |] eqn:Hd; cbn [bind] in H; try discriminate.
    destruct (list_index Z.eqb valid d) as [Date| |] eqn:HD; cbn [bind] in H; try discriminate.
    destruct (getData i Date) as [data| |] eqn:Hdata; cbn [bind] in H; try discriminate.
    destruct (IH _ _ _ H) as (datas & HF & Hres).
    exists (data :: datas). split.
    + constructor; [|exact HF]. exists w, d, Date. auto.
    + rewrite Hres. cbn. rewrite <- !app_assoc. reflexivity.
Qed.

Lemma price_spreads_ret getData valid dates price todo datas credit strike :
  Forall2 (priced_with getData valid dates price) todo datas ->
  price_spreads getData valid dates price todo credit strike
  = Ret (credit ++ credits_of datas, strike ++ strikes_of datas).
Proof.
  intros HF. revert credit strike.
  induction HF as [|i data rest datas (w & d & Date & Hw & Hd & HD & Hdata) HF IH];
    intros credit strike.
  - cbn. rewrite !app_nil_r. reflexivity.
  - cbn [price_spreads]. rewrite Hw. cbn [bind]. rewrite Hd. cbn [bind].
    rewrite HD. cbn [bind]. rewrite Hdata. cbn [bind]. rewrite IH.
    cbn. rewrite <- !app_assoc. reflexivity.
Qed.

Lemma getCallData_ret_inv self S date data :
  getCallData self S date = Ret data ->
  exists sigma,
    nth_error (getVol self) date = Some sigma /\
    data = (fround (fsub (CallPrice S (near_call_strike S + 0) (exp_ self) (intRate self) sigma)
                         (CallPrice S (near_call_strike S + 5) (exp_ self) (intRate self) sigma)) 2,
            near_call_strike S + 0, near_call_strike S + 5).
Proof.
  intros H. destruct (nth_error (getVol self) date) as [sigma|] eqn:Hs.
  - rewrite (getCallData_eq self S date sigma Hs) in H. inversion H. eauto.
  - rewrite getCallData_out_of_range in H by assumption. discriminate.
Qed.

Lemma getPutData_ret_inv self S date data :
  getPutData self S date = Ret data ->
  exists sigma,
    nth_error (getVol self) date = Some sigma /\
    data = (fround (fsub (PutPrice S (near_put_strike S - 0) (exp_ self) (intRate self) sigma)
                         (PutPrice S (near_put_strike S - 5) (exp_ self) (intRate self) sigma)) 2,
            near_put_strike S - 0, near_put_strike S - 5).
Proof.
  intros H. destruct (nth_error (getVol self) date) as [sigma|] eqn:Hs.
  - rewrite (getPutData_eq self S date sigma Hs) in H. inversion H. eauto.
  - rewrite getPutData_out_of_range in H by assumption. discriminate.
Qed.

(** The strike recorded for a call trade is the far strike. *)
Lemma call_strikes_far self valid dates price todo datas :
  Forall2 (priced_with (getCallData self) valid dates price) todo datas ->
  strikes_of datas = map (fun S => near_call_strike S + 5) todo.
Proof.
  induction 1 as [|i data rest datas (w & d & Date & _ & _ & _ & Hdata) HF IH];
    [reflexivity|].
  apply getCallData_ret_inv in Hdata. destruct Hdata as (sigma & _ & ->).
  cbn. unfold strikes_of in IH. rewrite IH. reflexivity.
Qed.

Lemma put_strikes_far self valid dates price todo datas :
  Forall2 (priced_with (getPutData self) valid dates price) todo datas ->
  strikes_of datas = map (fun S => near_put_strike S - 5) todo.
Proof.
  induction 1 as [|i data rest datas (w & d & Date & _ & _ & _ & Hdata) HF IH];
    [reflexivity|].
  apply getPutData_ret_inv in Hdata. destruct Hdata as (sigma & _ & ->).
  cbn. unfold strikes_of in IH. rewrite IH. reflexivity.
Qed.

(* ------------------------------------------------------------------ *)
(** ** Settlement (lines 173-191) *)

Lemma length_set_nth {A : Type} (l : list A) k v : length (set_nth l k v) = length l.
Proof.
  revert k. induction l as [|a l IH]; intros k; [reflexivity|].
  destruct k; simpl; [reflexivity | rewrite IH; reflexivity].
Qed.

Lemma set_nth_app_head {A : Type} (l1 l2 : list A) a v :
  set_nth (l1 ++ a :: l2) (length l1) v = l1 ++ v :: l2.
Proof. induction l1 as [|b l1 IH]; simpl; [reflexivity | rewrite IH; reflexivity]. Qed.

Lemma nth_error_app_head {A : Type} (l1 l2 : list A) a :
  nth_error (l1 ++ a :: l2) (length l1) = Some a.
Proof. induction l1 as [|b l1 IH]; simpl; [reflexivity | exact IH]. Qed.

Lemma find_index_app_skip {A : Type} (p : nat -> A -> bool) l1 l2 m0 :
  (forall m a, nth_error l1 m = Some a -> p (m0 + m)%nat a = false) ->
  find_index p (l1 ++ l2) m0 = find_index p l2 (m0 + length l1)%nat.
Proof.
  revert m0. induction l1 as [|b l1 IH]; intros m0 H.
  - cbn. rewrite Nat.add_0_r. reflexivity.
  - cbn [app find_index length]. specialize (H 0%nat b eq_refl) as Hb.
    rewrite Nat.add_0_r in Hb. rewrite Hb. rewrite IH.
    + f_equal. lia.
    + intros m a Hm. replace (Datatypes.S m0 + m)%nat with (m0 + Datatypes.S m)%nat by lia.
      apply H. exact Hm.
Qed.

Lemma settle_step_eq s strike expPrice j credit cj k ck sk ek :
  nth_error credit j = Some cj ->
  find_index (fun m a => Nat.eqb m j || feqb a cj) credit 0%nat = Some k ->
  nth_error strike k = Some sk -> nth_error expPrice k = Some ek ->
  nth_error credit k = Some ck ->
  settle_step s strike expPrice j credit
  = Ret (k, set_nth credit k (settled s ck sk ek)).
Proof.
  intros Hj Hk Hsk Hek Hck. unfold settle_step, py_index, list_index_of_slot.
  rewrite Hj. cbn [bind]. rewrite Hk. cbn [bind].
  rewrite Hsk. cbn [bind]. rewrite Hek. cbn [bind]. rewrite Hck. cbn [bind].
  unfold settled. destruct (in_profit s sk ek); reflexivity.
Qed.

(** One pass in general: the slot found is the first one that holds a value
    equal to the credit at [j], or [j] itself. *)
Lemma settle_step_ret s strike expPrice j credit cj :
  nth_error credit j = Some cj ->
  (length credit <= length strike)%nat ->
  (length credit <= length expPrice)%nat ->
  exists k ck sk ek,
    settle_step s strike expPrice j credit
    = Ret (k, set_nth credit k (settled s ck sk ek)) /\
    (k <= j)%nat /\
    nth_error credit k = Some ck /\
    nth_error strike k = Some sk /\
    nth_error expPrice k = Some ek /\
    (forall m b, (m < k)%nat -> nth_error credit m = Some b -> feqb b cj = false) /\
    ((k < j)%nat -> feqb ck cj = true) /\
    (k = j -> ck = cj).
Proof.
  intros Hj Hk He.
  assert (Hjlen : (j < length credit)%nat) by (apply nth_error_Some; congruence).
  destruct (find_index_found (fun m a => Nat.eqb m j || feqb a cj) credit 0%nat j cj Hj)
    as (k & Hfind & Hle).
  { cbn. rewrite Nat.eqb_refl. reflexivity. }
  cbn in Hle.
  destruct (find_index_some _ _ _ _ Hfind) as (_ & (ck & Hck & Hp) & Hbefore).
  rewrite Nat.sub_0_r in Hck, Hbefore.
  destruct (nth_error strike k) as [sk|] eqn:Hsk.
  2:{ apply nth_error_None in Hsk. lia. }
  destruct (nth_error expPrice k) as [ek|] eqn:Hek.
  2:{ apply nth_error_None in Hek. lia. }
  exists k, ck, sk, ek.
  split; [apply (settle_step_eq s strike expPrice j credit cj); assumption|].
  repeat split; try assumption.
  - intros m b Hm Hb. specialize (Hbefore m b Hm Hb). cbn in Hbefore.
    apply orb_false_iff in Hbefore. tauto.
  - intros Hlt. destruct (Nat.eqb_spec k j) as [E|_]; [lia|]. exact Hp.
  - intros ->. congruence.
Qed.

Lemma settle_loop_total s strike expPrice remaining j credit :
  (remaining + j <= length credit)%nat ->
  (length credit <= length strike)%nat ->
  (length credit <= length expPrice)%nat ->
  exists res,
    settle_loop s strike expPrice remaining j credit = Ret res /\
    length res = length credit.
Proof.
  revert j credit. induction remaining as [|rem IH]; intros j credit Hj Hk He.
  - exists credit. split; reflexivity.
  - destruct (nth_error credit j) as [cj|] eqn:Hcj.
    2:{ apply nth_error_None in Hcj. lia. }
    destruct (settle_step_ret s strike expPrice j credit cj Hcj Hk He)
      as (k & ck & sk & ek & Hstep & _).
    cbn [settle_loop]. rewrite Hstep. cbn [bind snd].
    destruct (IH (Datatypes.S j) (set_nth credit k (settled s ck sk ek)))
      as (res & Hres & Hlen); try (rewrite length_set_nth; lia).
    exists res. split; [exact Hres|]. rewrite Hlen. apply length_set_nth.
Qed.

Lemma settle_total s strike expPrice credit :
  (length credit <= length strike)%nat ->
  (length credit <= length expPrice)%nat ->
  exists res, settle s strike expPrice credit = Ret res /\ length res = length credit.
Proof. intros. apply settle_loop_total; [lia | assumption | assumption]. Qed.

(* ------------------------------------------------------------------ *)
(** ** The run, stage by stage *)

Lemma filter_incl_index {A : Type} (p : A -> bool) l : incl (filter p l) l.
Proof. intros x Hx. apply filter_In in Hx. tauto. Qed.

(** What the local lists are when the run reaches the end of settlement. *)
Lemma run_to_settlement_inv fuel self st :
  run_to_settlement fuel self = Ret st ->
  let df := getPriceData self in
  validDates st = df_index df /\
  callDates st = call_candidates df /\
  putDates st = put_candidates df /\
  shortPrice st = map (close_at df) (call_candidates df) /\
  longPrice st = map (close_at df) (put_candidates df) /\
  shortExpPrice st = map (exp_close df (df_index df)) (call_candidates df) /\
  longExpPrice st = map (exp_close df (df_index df)) (put_candidates df) /\
  price_spreads (getCallData self) (df_index df) (callDates st) (shortPrice st)
    (firstn 15 (shortPrice st)) [] [] = Ret (pricedShortCredit st, shortStrike st) /\
  price_spreads (getPutData self) (df_index df) (putDates st) (longPrice st)
    (firstn 15 (longPrice st)) [] [] = Ret (pricedLongCredit st, longStrike st) /\
  settle CALL (shortStrike st) (shortExpPrice st) (pricedShortCredit st)
  = Ret (shortCredit st) /\
  settle PUT (longStrike st) (longExpPrice st) (pricedLongCredit st)
  = Ret (longCredit st).
Proof.
  intros H df. unfold run_to_settlement in H. fold df in H.
  rewrite scan_signals_frame in H. cbn [bind signal_lists fst snd] in H.
  destruct (collect_candidates fuel df (df_index df) (filter (is_short df) (df_index df)) [] [] [])
    as [calls| |] eqn:Hcalls; cbn [bind] in H; try discriminate.
  destruct (collect_candidates fuel df (df_index df) (filter (is_long df) (df_index df)) [] [] [])
    as [puts| |] eqn:Hputs; cbn [bind] in H; try discriminate.
  apply collect_ret_inv in Hcalls; [|apply filter_incl_index].
  apply collect_ret_inv in Hputs; [|apply filter_incl_index].
  destruct Hcalls as [-> _]. destruct Hputs as [-> _].
  cbn [fst snd app] in H.
  fold (call_candidates df) in H. fold (put_candidates df) in H.
  destruct (price_spreads (getCallData self) _ _ _ _ [] []) as [sc| |] eqn:Hsc;
    cbn [bind] in H; try discriminate.
  destruct (price_spreads (getPutData self) _ _ _ _ [] []) as [lc| |] eqn:Hlc;
    cbn [bind] in H; try discriminate.
  destruct (settle CALL _ _ _) as [sCredit| |] eqn:HsC; cbn [bind] in H; try discriminate.
  destruct (settle PUT _ _ _) as [lCredit| |] eqn:HlC; cbn [bind] in H; try discriminate.
  inversion H; subst st; clear H. cbn.
  destruct sc as [scC scK]. destruct lc as [lcC lcK]. cbn in *.
  repeat split; try reflexivity; assumption.
Qed.

Lemma priced_total getData valid dates price todo :
  (forall i Date, (Date < length valid)%nat -> exists data, getData i Date = Ret data) ->
  incl todo price -> length dates = length price -> incl dates valid ->
  exists datas,
    Forall2 (priced_with getData valid dates price) todo datas.
Proof.
  intros Htotal Htodo Hlen Hdates.
  induction todo as [|i rest IH].
  - exists []. constructor.
  - destruct IH as [datas HF]; [intros x Hx; apply Htodo; right; exact Hx|].
    assert (Hi : In i price) by (apply Htodo; left; reflexivity).
    apply In_nth_error in Hi. destruct Hi as [j Hj].
    destruct (list_index_close_in price i j Hj) as (w & Hw & Hwj).
    assert (Hjlen : (j < length price)%nat) by (apply nth_error_Some; congruence).
    destruct (nth_error dates w) as [d|] eqn:Hd.
    2:{ apply nth_error_None in Hd. lia. }
    assert (Hdin : In d valid) by (apply Hdates; eapply nth_error_In; exact Hd).
    destruct (list_index_date_in valid d Hdin) as (Date & HD & HDlen).
    destruct (Htotal i Date HDlen) as [data Hdata].
    exists (data :: datas). constructor; [|exact HF].
    exists w, d, Date. unfold py_index. rewrite Hd. auto.
Qed.

Lemma getCallData_total self i Date :
  (Date < length (df_index (getPriceData self)))%nat ->
  exists data, getCallData self i Date = Ret data.
Proof.
  unfold df_index. rewrite length_map. intros H.
  destruct (getVol_in_range self Date H) as [sigma Hs].
  rewrite (getCallData_eq self i Date sigma Hs). eauto.
Qed.

Lemma getPutData_total self i Date :
  (Date < length (df_index (getPriceData self)))%nat ->
  exists data, getPutData self i Date = Ret data.
Proof.
  unfold df_index. rewrite length_map. intros H.
  destruct (getVol_in_range self Date H) as [sigma Hs].
  rewrite (getPutData_eq self i Date sigma Hs). eauto.
Qed.

Lemma firstn_incl {A : Type} n (l : list A) : incl (firstn n l) l.
Proof.
  revert l. induction n as [|n IH]; intros l x Hx; [contradiction|].
  destruct l as [|a l]; [contradiction|]. destruct Hx as [->|Hx].
  - left. reflexivity.
  - right. apply IH. exact Hx.
Qed.

Lemma call_candidates_incl df : incl (call_candidates df) (df_index df).
Proof.
  intros x Hx. unfold call_candidates in Hx.
  apply filter_In in Hx. destruct Hx as [Hx _]. apply filter_In in Hx. tauto.
Qed.

Lemma put_candidates_incl df : incl (put_candidates df) (df_index df).
Proof.
  intros x Hx. unfold put_candidates in Hx.
  apply filter_In in Hx. destruct Hx as [Hx _]. apply filter_In in Hx. tauto.
Qed.

Lemma Forall2_length_eq {A B : Type} (R : A -> B -> Prop) l1 l2 :
  Forall2 R l1 l2 -> length l1 = length l2.
Proof. induction 1; simpl; congruence. Qed.

(** The run up to the end of settlement, from the results of its stages. *)
Lemma run_to_settlement_eq fuel self datasC datasP sCredit lCredit :
  let df := getPriceData self in
  let sPrice := map (close_at df) (call_candidates df) in
  let lPrice := map (close_at df) (put_candidates df) in
  let sExp := map (exp_close df (df_index df)) (call_candidates df) in
  let lExp := map (exp_close df (df_index df)) (put_candidates df) in
  (7 <= fuel)%nat -> resolvable fuel df ->
  Forall2 (priced_with (getCallData self) (df_index df) (call_candidates df) sPrice)
    (firstn 15 sPrice) datasC ->
  Forall2 (priced_with (getPutData self) (df_index df) (put_candidates df) lPrice)
    (firstn 15 lPrice) datasP ->
  settle CALL (strikes_of datasC) sExp (credits_of datasC) = Ret sCredit ->
  settle PUT (strikes_of datasP) lExp (credits_of datasP) = Ret lCredit ->
  run_to_settlement fuel self
  = Ret (mkLocals (df_index df) (call_candidates df) (put_candidates df)
           sPrice lPrice (strikes_of datasC) (strikes_of datasP) sExp lExp
           (credits_of datasC) (credits_of datasP) sCredit lCredit).
Proof.
  intros df sPrice lPrice sExp lExp H7 Hres HC HP HsC HlC.
  unfold run_to_settlement. fold df.
  rewrite scan_signals_frame. cbn [bind signal_lists fst snd].
  rewrite collect_ret; try assumption.
  2:{ apply filter_incl_index. }
  2:{ apply incl_refl. }
  2:{ intros d Hd Hq. apply Hres. apply in_or_app. left.
      unfold call_candidates. apply filter_In. split; assumption. }
  cbn [bind].
  rewrite collect_ret; try assumption.
  2:{ apply filter_incl_index. }
  2:{ apply incl_refl. }
  2:{ intros d Hd Hq. apply Hres. apply in_or_app. right.
      unfold put_candidates. apply filter_In. split; assumption. }
  cbn [bind fst snd app].
  fold (call_candidates df). fold (put_candidates df). fold sPrice. fold lPrice.
  rewrite (price_spreads_ret _ _ _ _ _ datasC) by exact HC. cbn [bind app].
  rewrite (price_spreads_ret _ _ _ _ _ datasP) by exact HP. cbn [bind app fst snd].
  fold sExp. fold lExp. rewrite HsC. cbn [bind]. rewrite HlC. cbn [bind].
  reflexivity.
Qed.

(** With every expiration within reach the run gets through settlement. *)
Lemma run_to_settlement_total fuel self :
  (7 <= fuel)%nat -> resolvable fuel (getPriceData self) ->
  exists st, run_to_settlement fuel self = Ret st.
Proof.
  intros H7 Hres. set (df := getPriceData self).
  destruct (priced_total (getCallData self) (df_index df) (call_candidates df)
              (map (close_at df) (call_candidates df))
              (firstn 15 (map (close_at df) (call_candidates df))))
    as [datasC HC].
  { apply getCallData_total. } { apply firstn_incl. }
  { rewrite length_map. reflexivity. } { apply call_candidates_incl. }
  destruct (priced_total (getPutData self) (df_index df) (put_candidates df)
              (map (close_at df) (put_candidates df))
              (firstn 15 (map (close_at df) (put_candidates df))))
    as [datasP HP].
  { apply getPutData_total. } { apply firstn_incl. }
  { rewrite length_map. reflexivity. } { apply put_candidates_incl. }
  pose proof (Forall2_length_eq _ _ _ HC) as HlenC.
  pose proof (Forall2_length_eq _ _ _ HP) as HlenP.
  rewrite length_firstn, length_map in HlenC, HlenP.
  destruct (settle_total CALL (strikes_of datasC)
              (map (exp_close df (df_index df)) (call_candidates df))
              (credits_of datasC)) as (sCredit & HsC & _).
  { unfold credits_of, strikes_of. rewrite !length_map. lia. }
  { unfold credits_of. rewrite !length_map. lia. }
  destruct (settle_total PUT (strikes_of datasP)
              (map (exp_close df (df_index df)) (put_candidates df))
              (credits_of datasP)) as (lCredit & HlC & _).
  { unfold credits_of, strikes_of. rewrite !length_map. lia. }
  { unfold credits_of. rewrite !length_map. lia. }
  eexists. apply (run_to_settlement_eq fuel self datasC datasP sCredit lCredit);
    assumption.
Qed.

(* ------------------------------------------------------------------ *)
(** ** Frames with distinct, ascending dates *)

Lemma ascending_head_lt a l x : ascending (a :: l) = true -> In x l -> (a < x)%Z.
Proof.
  revert a. induction l as [|b l IH]; intros a H Hx; [contradiction|].
  cbn [ascending] in H. apply andb_prop in H. destruct H as [Hab Hrest].
  apply Z.ltb_lt in Hab. destruct Hx as [->|Hx]; [exact Hab|].
  specialize (IH b Hrest Hx). lia.
Qed.

Lemma ascending_tail a l : ascending (a :: l) = true -> ascending l = true.
Proof.
  destruct l as [|b l]; [reflexivity|]. cbn [ascending].
  intros H. apply andb_prop in H. tauto.
Qed.

Lemma ascending_NoDup l : ascending l = true -> NoDup l.
Proof.
  induction l as [|a l IH]; intros H; constructor.
  - intros Hin. pose proof (ascending_head_lt a l a H Hin). lia.
  - apply IH. exact (ascending_tail a l H).
Qed.

Lemma find_own df b :
  NoDup (df_index df) -> In b df ->
  find (fun b' => Z.eqb (bar_date b') (bar_date b)) df = Some b.
Proof.
  unfold df_index. induction df as [|a df IH]; intros Hnd Hin; [contradiction|].
  cbn [map] in Hnd. inversion Hnd as [|? ? Hnotin Hnd']; subst.
  cbn [find]. destruct Hin as [->|Hin].
  - rewrite Z.eqb_refl. reflexivity.
  - destruct (Z.eqb_spec (bar_date a) (bar_date b)) as [E|_].
    + exfalso. apply Hnotin. rewrite E. apply in_map. exact Hin.
    + apply IH; assumption.
Qed.

Lemma rsi_at_own df b :
  NoDup (df_index df) -> In b df -> rsi_at df (bar_date b) = bar_RSI b.
Proof. intros Hnd Hin. unfold rsi_at. rewrite find_own by assumption. reflexivity. Qed.

Lemma close_at_own df b :
  NoDup (df_index df) -> In b df -> close_at df (bar_date b) = bar_Close b.
Proof. intros Hnd Hin. unfold close_at. rewrite find_own by assumption. reflexivity. Qed.

Lemma filter_map_ext_in {A B : Type} (f : A -> B) (p : B -> bool) (q : A -> bool) l :
  (forall a, In a l -> p (f a) = q a) ->
  filter p (map f l) = map f (filter q l).
Proof.
  induction l as [|a l IH]; intros H; [reflexivity|].
  cbn [map filter]. rewrite (H a (or_introl eq_refl)).
  rewrite IH by (intros x Hx; apply H; right; exact Hx).
  destruct (q a); reflexivity.
Qed.

Lemma filter_filter {A : Type} (p q : A -> bool) l :
  filter p (filter q l) = filter (fun a => q a && p a) l.
Proof.
  induction l as [|a l IH]; [reflexivity|]. cbn [filter].
  destruct (q a); cbn [filter andb]; rewrite IH; reflexivity.
Qed.

Lemma call_candidates_bars df :
  NoDup (df_index df) ->
  call_candidates df = map bar_date (filter call_bar df).
Proof.
  intros Hnd. unfold call_candidates. rewrite filter_filter. unfold df_index.
  apply filter_map_ext_in. intros b Hb.
  unfold is_short, qualifies, call_bar.
  rewrite rsi_at_own, close_at_own by assumption. reflexivity.
Qed.

Lemma put_candidates_bars df :
  NoDup (df_index df) ->
  put_candidates df = map bar_date (filter put_bar df).
Proof.
  intros Hnd. unfold put_candidates. rewrite filter_filter. unfold df_index.
  apply filter_map_ext_in. intros b Hb.
  unfold is_long, qualifies, put_bar.
  rewrite rsi_at_own, close_at_own by assumption. reflexivity.
Qed.

Lemma filter_none {A : Type} (p : A -> bool) l :
  (forall a, In a l -> p a = false) -> filter p l = [].
Proof.
  induction l as [|a l IH]; intros H; [reflexivity|].
  cbn [filter]. rewrite (H a (or_introl eq_refl)).
  apply IH. intros x Hx. apply H. right. exact Hx.
Qed.

Lemma filter_all {A : Type} (p : A -> bool) l :
  (forall a, In a l -> p a = true) -> filter p l = l.
Proof.
  induction l as [|a l IH]; intros H; [reflexivity|].
  cbn [filter]. rewrite (H a (or_introl eq_refl)). f_equal.
  apply IH. intros x Hx. apply H. right. exact Hx.
Qed.

(* ------------------------------------------------------------------ *)
(** ** The run on the flat history *)

Lemma flat_history_index e1 e2 : df_index (flat_history e1 e2) = flat_index.
Proof.
  unfold df_index, flat_history, flat_index. rewrite map_app, map_map. reflexivity.
Qed.

Lemma flat_index_ascending : ascending flat_index = true.
Proof. vm_compute. reflexivity. Qed.

Lemma flat_history_NoDup e1 e2 : NoDup (df_index (flat_history e1 e2)).
Proof. rewrite flat_history_index. apply ascending_NoDup, flat_index_ascending. Qed.

Lemma flat_rsi_cases k :
  flat_rsi k = NaN \/ flat_rsi k = Fin 50 \/ flat_rsi k = Fin 75.
Proof.
  unfold flat_rsi. destruct (k <? 14)%nat; [auto|].
  destruct (k <? 252)%nat; auto.
Qed.

Lemma flat_rsi_early k : (k < 252)%nat -> flat_rsi k = NaN \/ flat_rsi k = Fin 50.
Proof.
  intros H. unfold flat_rsi. destruct (k <? 14)%nat; [auto|].
  destruct (Nat.ltb_spec k 252); [auto | lia].
Qed.

Lemma flat_history_split e1 e2 :
  flat_history e1 e2
  = map flat_bar (seq 0 252)
    ++ [flat_bar 252; flat_bar 253; mkBar 738078%Z e1 (Fin 50); mkBar 738085%Z e2 (Fin 50)].
Proof.
  unfold flat_history. change 254%nat with (252 + 2)%nat.
  rewrite seq_app, map_app, <- app_assoc. reflexivity.
Qed.

Lemma flat_call_bars e1 e2 :
  filter call_bar (flat_history e1 e2) = [flat_bar 252; flat_bar 253].
Proof.
  rewrite flat_history_split, filter_app. rewrite filter_none.
  - cbn [app filter]. unfold call_bar, in_band.
    change (bar_RSI (flat_bar 252)) with (Fin 75).
    change (bar_RSI (flat_bar 253)) with (Fin 75).
    cbn [bar_RSI bar_Close flat_bar fgtb fltb]. Rb_eval. reflexivity.
  - intros b Hb. apply in_map_iff in Hb. destruct Hb as (k & <- & Hk).
    apply in_seq in Hk. unfold call_bar. cbn [bar_RSI flat_bar].
    destruct (flat_rsi_early k ltac:(lia)) as [-> | ->]; cbn [fgtb fltb].
    + reflexivity.
    + Rb_eval. reflexivity.
Qed.

Lemma flat_put_bars e1 e2 : filter put_bar (flat_history e1 e2) = [].
Proof.
  apply filter_none. intros b Hb. unfold flat_history in Hb.
  apply in_app_or in Hb. destruct Hb as [Hb|Hb].
  - apply in_map_iff in Hb. destruct Hb as (k & <- & _).
    unfold put_bar. cbn [bar_RSI flat_bar].
    destruct (flat_rsi_cases k) as [-> | [-> | ->]]; cbn [fgtb fltb negb andb];
      Rb_eval; reflexivity.
  - destruct Hb as [<-|[<-|[]]]; unfold put_bar; cbn [bar_RSI fgtb fltb];
      Rb_eval; reflexivity.
Qed.

Lemma flat_call_candidates e1 e2 :
  call_candidates (flat_history e1 e2) = [738048; 738049]%Z.
Proof.
  rewrite call_candidates_bars by apply flat_history_NoDup.
  rewrite flat_call_bars. reflexivity.
Qed.

Lemma flat_put_candidates e1 e2 : put_candidates (flat_history e1 e2) = [].
Proof.
  rewrite put_candidates_bars by apply flat_history_NoDup.
  rewrite flat_put_bars. reflexivity.
Qed.

Lemma flat_in_history e1 e2 b :
  In b [flat_bar 252; flat_bar 253; mkBar 738078%Z e1 (Fin 50); mkBar 738085%Z e2 (Fin 50)] ->
  In b (flat_history e1 e2).
Proof. intros H. rewrite flat_history_split. apply in_or_app. right. exact H. Qed.

Lemma flat_close_at e1 e2 :
  close_at (flat_history e1 e2) 738048%Z = 110 /\
  close_at (flat_history e1 e2) 738049%Z = 110 /\
  close_at (flat_history e1 e2) 738078%Z = e1 /\
  close_at (flat_history e1 e2) 738085%Z = e2.
Proof.
  pose proof (flat_history_NoDup e1 e2) as Hnd.
  split; [|split; [|split]].
  - apply (close_at_own _ (flat_bar 252) Hnd). apply flat_in_history. cbn. auto.
  - apply (close_at_own _ (flat_bar 253) Hnd). apply flat_in_history. cbn. auto.
  - apply (close_at_own _ (mkBar 738078%Z e1 (Fin 50)) Hnd).
    apply flat_in_history. cbn. auto.
  - apply (close_at_own _ (mkBar 738085%Z e2 (Fin 50)) Hnd).
    apply flat_in_history. cbn. auto 6.
Qed.

Lemma flat_expirations :
  expiration_of flat_index 738048%Z = Some 738078%Z /\
  expiration_of flat_index 738049%Z = Some 738085%Z.
Proof. split; vm_compute; reflexivity. Qed.

Lemma flat_resolvable fuel e1 e2 :
  (7 <= fuel)%nat -> resolvable fuel (flat_history e1 e2).
Proof.
  intros H7 d Hd. rewrite flat_call_candidates, flat_put_candidates in Hd.
  rewrite flat_history_index. destruct flat_expirations as [E1 E2].
  destruct Hd as [<-|[<-|[]]].
  - exists 738078%Z. split; [exact E1|]. split; [unfold max_date; lia|].
    replace (Z.to_nat (738078 - first_friday (738048 + 30))%Z) with 0%nat
      by (vm_compute; reflexivity). lia.
  - exists 738085%Z. split; [exact E2|]. split; [unfold max_date; lia|].
    replace (Z.to_nat (738085 - first_friday (738049 + 30))%Z) with 0%nat
      by (vm_compute; reflexivity). lia.
Qed.

Lemma flat_index_position : list_index Z.eqb flat_index 738048%Z = Ret 252%nat.
Proof. vm_compute. reflexivity. Qed.

Lemma flat_priced e1 e2 :
  priced_with (getCallData (flat_run (1 / 12) e1 e2)) flat_index
    [738048; 738049]%Z [110; 110] 110 (Fin (9 / 100), 110, 115).
Proof.
  exists 0%nat, 738048%Z, 252%nat. split; [|split; [|split]].
  - unfold list_index. cbn [find_index]. rewrite Reqb_refl. reflexivity.
  - reflexivity.
  - exact flat_index_position.
  - apply flat_run_call_data. lia.
Qed.

(** The run on the flat history, up to the two settlement loops: two call
    trades, both sold at 110 for a credit of 9 with far strike 115. *)
Lemma flat_run_to_settlement fuel e1 e2 sCredit :
  (7 <= fuel)%nat ->
  settle CALL [115; 115] [e1; e2] [Fin 9; Fin 9] = Ret sCredit ->
  run_to_settlement fuel (flat_run (1 / 12) e1 e2)
  = Ret (mkLocals flat_index [738048; 738049]%Z [] [110; 110] []
           [115; 115] [] [e1; e2] [] [Fin 9; Fin 9] [] sCredit []).
Proof.
  intros H7 Hs.
  pose proof (run_to_settlement_eq fuel (flat_run (1 / 12) e1 e2)
                [(Fin (9 / 100), 110, 115); (Fin (9 / 100), 110, 115)] []
                sCredit []) as H.
  cbn [getPriceData flat_run] in H. cbv zeta in H.
  rewrite flat_history_index, flat_call_candidates, flat_put_candidates in H.
  destruct (flat_close_at e1 e2) as (C1 & C2 & C3 & C4).
  destruct flat_expirations as [E1 E2].
  unfold exp_close, expiry in H. cbn [map firstn] in H.
  rewrite E1, E2, C1, C2, C3, C4 in H.
  cbn [credits_of strikes_of map fst snd fmul] in H.
  replace (9 / 100 * 100) with 9 in H by lra.
  apply H.
  - exact H7.
  - apply flat_resolvable. exact H7.
  - constructor; [apply flat_priced|]. constructor; [apply flat_priced|]. constructor.
  - constructor.
  - exact Hs.
  - reflexivity.
Qed.

(* ------------------------------------------------------------------ *)
(** ** The settlement loop on the two equal credits of the flat history *)

Ltac settle_eval :=
  unfold settle;
  repeat (progress
            (cbn [length settle_loop settle_slots];
             unfold settle_step, list_index_of_slot, py_index, strikeWidth;
             cbn [nth_error bind find_index Nat.eqb orb feqb in_profit
                    set_nth fst snd fsub fneg fadd];
             Rb_eval)).

(** First trade in profit: the second one finds the first slot. *)
Lemma settle_first_in_profit e2 :
  settle CALL [115; 115] [112; e2] [Fin 9; Fin 9] = Ret [Fin 9; Fin 9] /\
  settle_slots CALL [115; 115] [112; e2] 2 0 [Fin 9; Fin 9] = Ret [0; 0]%nat.
Proof. split; settle_eval; reflexivity. Qed.

(** First trade at a loss: its slot holds -491 when the second one is
    looked up, and the second one finds its own slot. *)
Lemma settle_first_at_loss :
  settle CALL [115; 115] [120; 112] [Fin 9; Fin 9] = Ret [Fin (-491); Fin 9] /\
  settle_slots CALL [115; 115] [120; 112] 2 0 [Fin 9; Fin 9] = Ret [0; 1]%nat.
Proof.
  split; settle_eval.
  - replace (9 + - (500)) with (-491) by lra. reflexivity.
  - reflexivity.
Qed.

(* ------------------------------------------------------------------ *)
(** ** Trades *)

Lemma nth_error_firstn_some {A : Type} n (l : list A) j a :
  nth_error (firstn n l) j = Some a -> nth_error l j = Some a.
Proof.
  revert l j. induction n as [|n IH]; intros l j H.
  - destruct j; discriminate.
  - destruct l as [|b l]; [destruct j; discriminate|].
    destruct j as [|j]; [exact H | cbn in *; apply IH; exact H].
Qed.

(** The lists of one side when the run has reached the end of settlement:
    the recorded strike is the far one, and the credits and strikes are
    those of the first fifteen entry closes. *)
Lemma side_lists getData valid dates price (expPrice : list R) priced strike far :
  (forall datas,
      Forall2 (priced_with getData valid dates price) (firstn 15 price) datas ->
      strikes_of datas = map far (firstn 15 price)) ->
  length expPrice = length price ->
  price_spreads getData valid dates price (firstn 15 price) [] [] = Ret (priced, strike) ->
  strike = map far (firstn 15 price) /\
  length priced = length (firstn 15 price) /\
  (length priced <= length strike)%nat /\
  (length priced <= length expPrice)%nat.
Proof.
  intros Hfar Hlen H. apply price_spreads_ret_inv in H.
  destruct H as (datas & HF & Hres). cbn [app] in Hres. inversion Hres; subst.
  pose proof (Forall2_length_eq _ _ _ HF) as HlenF.
  rewrite (Hfar datas HF). unfold credits_of. rewrite !length_map.
  repeat split; try lia. rewrite <- HlenF, length_firstn. lia.
Qed.

Lemma reduced_succ_inner n c :
  reduced n (fsub c (Fin strikeWidth)) = reduced (Datatypes.S n) c.
Proof.
  unfold reduced. symmetry.
  exact (Nat.iter_succ_r n fval (fun x => fsub x (Fin strikeWidth)) c).
Qed.

Lemma nth_error_set_nth_same {A : Type} (l : list A) k v :
  (k < length l)%nat -> nth_error (set_nth l k v) k = Some v.
Proof.
  revert k. induction l as [|a l IH]; intros k H; [cbn in H; lia|].
  destruct k as [|k]; cbn; [reflexivity | apply IH; cbn in H; lia].
Qed.

Lemma nth_error_set_nth_other {A : Type} (l : list A) k v m :
  m <> k -> nth_error (set_nth l k v) m = nth_error l m.
Proof.
  revert k m. induction l as [|a l IH]; intros k m H; [destruct k; reflexivity|].
  destruct k as [|k], m as [|m]; cbn; try reflexivity; try contradiction.
  apply IH. lia.
Qed.

(** One pass, whatever slot it finds: the slot found is settled by its own
    strike and expiration price. *)
Lemma settle_step_full s strike expPrice j credit k credit' :
  settle_step s strike expPrice j credit = Ret (k, credit') ->
  exists ck sk ek,
    nth_error credit k = Some ck /\ nth_error strike k = Some sk /\
    nth_error expPrice k = Some ek /\
    credit' = set_nth credit k (settled s ck sk ek).
Proof.
  unfold settle_step, py_index, list_index_of_slot. intros H.
  destruct (nth_error credit j) as [i|] eqn:Hi; cbn [bind] in H; [|discriminate].
  destruct (find_index _ credit 0%nat) as [k0|] eqn:Hk; cbn [bind] in H; [|discriminate].
  destruct (nth_error strike k0) as [sk|] eqn:Hsk; cbn [bind] in H; [|discriminate].
  destruct (nth_error expPrice k0) as [ek|] eqn:Hek; cbn [bind] in H; [|discriminate].
  destruct (nth_error credit k0) as [ck|] eqn:Hck; cbn [bind] in H; [|discriminate].
  exists ck, sk, ek. unfold settled.
  destruct (in_profit s sk ek); inversion H; subst; auto.
Qed.

(** The slots found by the passes of a loop that ends. *)
Lemma settle_slots_total s strike expPrice remaining j credit L :
  settle_loop s strike expPrice remaining j credit = Ret L ->
  exists ks, settle_slots s strike expPrice remaining j credit = Ret ks /\
             length ks = remaining.
Proof.
  revert j credit. induction remaining as [|rem IH]; intros j credit H.
  - exists []. split; reflexivity.
  - cbn [settle_loop] in H. cbn [settle_slots].
    destruct (settle_step s strike expPrice j credit) as [[k c']| |] eqn:Hstep;
      cbn [bind snd fst] in *; try discriminate.
    destruct (IH _ _ H) as (ks & Hks & Hlen). rewrite Hks. cbn [bind].
    exists (k :: ks). split; [reflexivity | cbn; lia].
Qed.

(** What a settlement loop leaves in a slot: the credit as priced when the
    slot is in profit, and otherwise the credit less one strike width for
    each pass that found this slot. *)
Lemma settle_loop_counts s strike expPrice remaining j credit L ks :
  settle_loop s strike expPrice remaining j credit = Ret L ->
  settle_slots s strike expPrice remaining j credit = Ret ks ->
  forall m c sk ek,
    nth_error credit m = Some c -> nth_error strike m = Some sk ->
    nth_error expPrice m = Some ek ->
    nth_error L m
    = Some (if in_profit s sk ek then c
            else reduced (count_occ Nat.eq_dec ks m) c).
Proof.
  revert j credit L ks.
  induction remaining as [|rem IH]; intros j credit L ks HL Hks m c sk ek Hc Hsk Hek.
  - cbn in HL, Hks. inversion HL; inversion Hks; subst.
    cbn [count_occ]. rewrite Hc. destruct (in_profit s sk ek); reflexivity.
  - cbn [settle_loop] in HL. cbn [settle_slots] in Hks.
    destruct (settle_step s strike expPrice j credit) as [[k c']| |] eqn:Hstep;
      cbn [bind snd fst] in *; try discriminate.
    destruct (settle_slots s strike expPrice rem (Datatypes.S j) c')
      as [ks'| |] eqn:Hks'; cbn [bind] in Hks; try discriminate.
    inversion Hks; subst ks; clear Hks.
    destruct (settle_step_full _ _ _ _ _ _ _ Hstep)
      as (ck & sk0 & ek0 & Hck & Hsk0 & Hek0 & ->).
    assert (Hk : (k < length credit)%nat) by (apply nth_error_Some; congruence).
    destruct (Nat.eq_dec k m) as [->|Hne].
    + rewrite Hc in Hck. rewrite Hsk in Hsk0. rewrite Hek in Hek0.
      inversion Hck; inversion Hsk0; inversion Hek0; subst ck sk0 ek0.
      rewrite (IH _ _ _ _ HL Hks' m (settled s c sk ek) sk ek);
        [| apply nth_error_set_nth_same; exact Hk | exact Hsk | exact Hek].
      rewrite count_occ_cons_eq by reflexivity.
      unfold settled. destruct (in_profit s sk ek); [reflexivity|].
      rewrite reduced_succ_inner. reflexivity.
    + rewrite (IH _ _ _ _ HL Hks' m c sk ek);
        [| rewrite nth_error_set_nth_other by (intro E; apply Hne; symmetry; exact E);
           exact Hc | exact Hsk | exact Hek].
      rewrite count_occ_cons_neq by exact Hne. reflexivity.
Qed.

(** The trades of one side of a run that has reached the end of
    settlement. *)
Lemma settled_trade s priced strike expPrice final (far : R -> R) (price : list R) :
  strike = map far (firstn 15 price) ->
  (length priced <= length strike)%nat ->
  (length priced <= length expPrice)%nat ->
  length expPrice = length price ->
  settle s strike expPrice priced = Ret final ->
  exists ks,
    settle_slots s strike expPrice (length priced) 0 priced = Ret ks /\
    forall j c, nth_error priced j = Some c ->
      exists S e,
        nth_error price j = Some S /\
        nth_error expPrice j = Some e /\
        nth_error strike j = Some (far S) /\
        nth_error final j
        = Some (if in_profit s (far S) e then c
                else reduced (count_occ Nat.eq_dec ks j) c).
Proof.
  intros Hstrike Hk He Hlen Hsettle. subst strike. unfold settle in Hsettle.
  destruct (settle_slots_total _ _ _ _ _ _ _ Hsettle) as (ks & Hks & _).
  exists ks. split; [exact Hks|]. intros j c Hc.
  assert (Hj : (j < length priced)%nat) by (apply nth_error_Some; congruence).
  rewrite length_map in Hk.
  destruct (nth_error (firstn 15 price) j) as [S|] eqn:HS.
  2:{ apply nth_error_None in HS. lia. }
  destruct (nth_error expPrice j) as [e|] eqn:Hej.
  2:{ apply nth_error_None in Hej. lia. }
  assert (Hkj : nth_error (map far (firstn 15 price)) j = Some (far S))
    by (rewrite nth_error_map, HS; reflexivity).
  exists S, e. split; [exact (nth_error_firstn_some _ _ _ _ HS)|].
  split; [reflexivity|]. split; [exact Hkj|].
  exact (settle_loop_counts _ _ _ _ _ _ _ _ Hsettle Hks j c (far S) e Hc Hkj Hej).
Qed.

(** C1 (amended). A settlement pass compares the spot price at expiration
    to the FAR strike of the trade whose slot it has found, the strike
    recorded from slot 2 of the pricer's answer: near + 5 for a call, near
    - 5 for a put.  So, with the slots that the successive passes of a side
    find, a call trade whose far strike is above the spot at its expiration
    keeps its credit, whatever the lookups by value do, and a call trade
    whose far strike is not above it ends at its credit less 500 for each
    pass that found its slot: at credit - 500 when it is settled once, by
    its own slot.  A put trade keeps its credit when its far strike is
    below the spot, and likewise otherwise. *)
Theorem settlement_by_far_strike (fuel : nat) (self : Options_Pricing) (st : locals) :
  run_to_settlement fuel self = Ret st ->
  exists slotsC slotsP : list nat,
    settle_slots CALL (shortStrike st) (shortExpPrice st)
      (length (pricedShortCredit st)) 0 (pricedShortCredit st) = Ret slotsC /\
    settle_slots PUT (longStrike st) (longExpPrice st)
      (length (pricedLongCredit st)) 0 (pricedLongCredit st) = Ret slotsP /\
    (forall j c, nth_error (pricedShortCredit st) j = Some c ->
       exists S e,
         nth_error (shortPrice st) j = Some S /\
         nth_error (shortExpPrice st) j = Some e /\
         nth_error (shortStrike st) j = Some (round_nd (dmul S lit_1_03) (-1) + 5) /\
         nth_error (shortCredit st) j
         = Some (if Rltb e (round_nd (dmul S lit_1_03) (-1) + 5) then c
                 else reduced (count_occ Nat.eq_dec slotsC j) c) /\
         (count_occ Nat.eq_dec slotsC j = 1%nat ->
          nth_error (shortCredit st) j
          = Some (if Rltb e (round_nd (dmul S lit_1_03) (-1) + 5) then c
                  else fsub c (Fin 500)))) /\
    (forall j c, nth_error (pricedLongCredit st) j = Some c ->
       exists S e,
         nth_error (longPrice st) j = Some S /\
         nth_error (longExpPrice st) j = Some e /\
         nth_error (longStrike st) j
         = Some (round_nd (dsub S (dmul S lit_0_03)) (-1) - 5) /\
         nth_error (longCredit st) j
         = Some (if Rltb (round_nd (dsub S (dmul S lit_0_03)) (-1) - 5) e then c
                 else reduced (count_occ Nat.eq_dec slotsP j) c) /\
         (count_occ Nat.eq_dec slotsP j = 1%nat ->
          nth_error (longCredit st) j
          = Some (if Rltb (round_nd (dsub S (dmul S lit_0_03)) (-1) - 5) e then c
                  else fsub c (Fin 500)))).
Proof.
  intros Hrun.
  destruct (run_to_settlement_inv fuel self st Hrun)
    as (_ & HcD & HpD & HsP & HlP & HsE & HlE & HpriceC & HpriceP & HsetC & HsetP).
  assert (HlenC : length (shortExpPrice st) = length (shortPrice st))
    by (rewrite HsE, HsP, !length_map; reflexivity).
  assert (HlenP : length (longExpPrice st) = length (longPrice st))
    by (rewrite HlE, HlP, !length_map; reflexivity).
  destruct (side_lists _ _ _ _ _ _ _ (fun S => near_call_strike S + 5)
              (call_strikes_far self _ _ _ _) HlenC HpriceC) as (HkC & _ & HkC1 & HkC2).
  destruct (side_lists _ _ _ _ _ _ _ (fun S => near_put_strike S - 5)
              (put_strikes_far self _ _ _ _) HlenP HpriceP) as (HkP & _ & HkP1 & HkP2).
  destruct (settled_trade CALL _ _ _ _ _ _ HkC HkC1 HkC2 HlenC HsetC)
    as (slotsC & HslotsC & HtradeC).
  destruct (settled_trade PUT _ _ _ _ _ _ HkP HkP1 HkP2 HlenP HsetP)
    as (slotsP & HslotsP & HtradeP).
  exists slotsC, slotsP. split; [exact HslotsC|]. split; [exact HslotsP|]. split.
  - intros j c Hc. destruct (HtradeC j c Hc) as (S & e & H1 & H2 & H3 & H4).
    exists S, e. unfold near_call_strike, in_profit in H3, H4.
    split; [exact H1|]. split; [exact H2|]. split; [exact H3|].
    split; [exact H4|]. intros Hone. rewrite H4, Hone. reflexivity.
  - intros j c Hc. destruct (HtradeP j c Hc) as (S & e & H1 & H2 & H3 & H4).
    exists S, e. unfold near_put_strike, in_profit in H3, H4.
    split; [exact H1|]. split; [exact H2|]. split; [exact H3|].
    split; [exact H4|]. intros Hone. rewrite H4, Hone. reflexivity.
Qed.

(* ------------------------------------------------------------------ *)
(** ** The run on the flat history with a put signal *)

Lemma mixed_history_index e1 e2 : df_index (mixed_history e1 e2) = flat_index.
Proof.
  unfold df_index, mixed_history, flat_index. change 254%nat with (253 + 1)%nat.
  rewrite seq_app, !map_app, map_map, <- app_assoc. reflexivity.
Qed.

Lemma mixed_history_NoDup e1 e2 : NoDup (df_index (mixed_history e1 e2)).
Proof. rewrite mixed_history_index. apply ascending_NoDup, flat_index_ascending. Qed.

Lemma mixed_history_closes e1 e2 :
  map bar_Close (mixed_history e1 e2) = repeat 110 254 ++ [e1; e2].
Proof.
  unfold mixed_history. rewrite map_app, map_map.
  rewrite (map_const_seq _ 110) by reflexivity. rewrite length_seq.
  change 254%nat with (253 + 1)%nat. rewrite repeat_app, <- app_assoc.
  reflexivity.
Qed.

Lemma mixed_history_split e1 e2 :
  mixed_history e1 e2
  = map flat_bar (seq 0 252)
    ++ [flat_bar 252; mkBar 738049%Z 110 (Fin 25); mkBar 738078%Z e1 (Fin 50);
        mkBar 738085%Z e2 (Fin 50)].
Proof.
  unfold mixed_history. change 253%nat with (252 + 1)%nat.
  rewrite seq_app, map_app, <- app_assoc. reflexivity.
Qed.

Lemma mixed_call_bars e1 e2 :
  filter call_bar (mixed_history e1 e2) = [flat_bar 252].
Proof.
  rewrite mixed_history_split, filter_app. rewrite filter_none.
  - cbn [app filter]. unfold call_bar, in_band.
    change (bar_RSI (flat_bar 252)) with (Fin 75).
    cbn [bar_RSI bar_Close flat_bar fgtb fltb]. Rb_eval. reflexivity.
  - intros b Hb. apply in_map_iff in Hb. destruct Hb as (k & <- & Hk).
    apply in_seq in Hk. unfold call_bar. cbn [bar_RSI flat_bar].
    destruct (flat_rsi_early k ltac:(lia)) as [-> | ->]; cbn [fgtb fltb].
    + reflexivity.
    + Rb_eval. reflexivity.
Qed.

Lemma mixed_put_bars e1 e2 :
  filter put_bar (mixed_history e1 e2) = [mkBar 738049%Z 110 (Fin 25)].
Proof.
  rewrite mixed_history_split, filter_app. rewrite filter_none.
  - cbn [app filter]. unfold put_bar, in_band.
    change (bar_RSI (flat_bar 252)) with (Fin 75).
    cbn [bar_RSI bar_Close flat_bar fgtb fltb negb andb]. Rb_eval. reflexivity.
  - intros b Hb. apply in_map_iff in Hb. destruct Hb as (k & <- & Hk).
    apply in_seq in Hk. unfold put_bar. cbn [bar_RSI flat_bar].
    destruct (flat_rsi_early k ltac:(lia)) as [-> | ->]; cbn [fgtb fltb negb andb].
    + reflexivity.
    + Rb_eval. reflexivity.
Qed.

Lemma mixed_candidates e1 e2 :
  call_candidates (mixed_history e1 e2) = [738048%Z] /\
  put_candidates (mixed_history e1 e2) = [738049%Z].
Proof.
  rewrite call_candidates_bars, put_candidates_bars by apply mixed_history_NoDup.
  rewrite mixed_call_bars, mixed_put_bars. split; reflexivity.
Qed.

Lemma mixed_in_history e1 e2 b :
  In b [flat_bar 252; mkBar 738049%Z 110 (Fin 25); mkBar 738078%Z e1 (Fin 50);
        mkBar 738085%Z e2 (Fin 50)] ->
  In b (mixed_history e1 e2).
Proof. intros H. rewrite mixed_history_split. apply in_or_app. right. exact H. Qed.

Lemma mixed_close_at e1 e2 :
  close_at (mixed_history e1 e2) 738048%Z = 110 /\
  close_at (mixed_history e1 e2) 738049%Z = 110 /\
  close_at (mixed_history e1 e2) 738078%Z = e1 /\
  close_at (mixed_history e1 e2) 738085%Z = e2.
Proof.
  pose proof (mixed_history_NoDup e1 e2) as Hnd.
  split; [|split; [|split]].
  - apply (close_at_own _ (flat_bar 252) Hnd). apply mixed_in_history. cbn. auto.
  - apply (close_at_own _ (mkBar 738049%Z 110 (Fin 25)) Hnd).
    apply mixed_in_history. cbn. auto.
  - apply (close_at_own _ (mkBar 738078%Z e1 (Fin 50)) Hnd).
    apply mixed_in_history. cbn. auto.
  - apply (close_at_own _ (mkBar 738085%Z e2 (Fin 50)) Hnd).
    apply mixed_in_history. cbn. auto 6.
Qed.

Lemma mixed_resolvable fuel e1 e2 :
  (7 <= fuel)%nat -> resolvable fuel (mixed_history e1 e2).
Proof.
  intros H7 d Hd. destruct (mixed_candidates e1 e2) as [-> ->] in Hd.
  rewrite mixed_history_index. destruct flat_expirations as [E1 E2].
  destruct Hd as [<-|[<-|[]]].
  - exists 738078%Z. split; [exact E1|]. split; [unfold max_date; lia|].
    replace (Z.to_nat (738078 - first_friday (738048 + 30))%Z) with 0%nat
      by (vm_compute; reflexivity). lia.
  - exists 738085%Z. split; [exact E2|]. split; [unfold max_date; lia|].
    replace (Z.to_nat (738085 - first_friday (738049 + 30))%Z) with 0%nat
      by (vm_compute; reflexivity). lia.
Qed.

Lemma flat_index_position_253 : list_index Z.eqb flat_index 738049%Z = Ret 253%nat.
Proof. vm_compute. reflexivity. Qed.

Lemma mixed_priced e1 e2 :
  priced_with (getCallData (mixed_run e1 e2)) flat_index
    [738048%Z] [110] 110 (Fin (9 / 100), 110, 115) /\
  priced_with (getPutData (mixed_run e1 e2)) flat_index
    [738049%Z] [110] 110 (Fin 0, 110, 105).
Proof.
  split.
  - exists 0%nat, 738048%Z, 252%nat. split; [|split; [|split]].
    + unfold list_index. cbn [find_index]. rewrite Reqb_refl. reflexivity.
    + reflexivity.
    + exact flat_index_position.
    + apply (getCallData_flat_110 _ 254 [e1; e2]);
        [apply mixed_history_closes | reflexivity | reflexivity | lia].
  - exists 0%nat, 738049%Z, 253%nat. split; [|split; [|split]].
    + unfold list_index. cbn [find_index]. rewrite Reqb_refl. reflexivity.
    + reflexivity.
    + exact flat_index_position_253.
    + apply (getPutData_flat_110 _ 254 [e1; e2]);
        [apply mixed_history_closes | reflexivity | reflexivity | lia].
Qed.

(** The run up to the two settlement loops: one call trade and one put
    trade. *)
Lemma mixed_run_to_settlement fuel e1 e2 sCredit lCredit :
  (7 <= fuel)%nat ->
  settle CALL [115] [e1] [Fin 9] = Ret sCredit ->
  settle PUT [105] [e2] [Fin 0] = Ret lCredit ->
  run_to_settlement fuel (mixed_run e1 e2) = Ret (mixed_locals e1 e2 sCredit lCredit).
Proof.
  intros H7 HsC HsP.
  pose proof (run_to_settlement_eq fuel (mixed_run e1 e2)
                [(Fin (9 / 100), 110, 115)] [(Fin 0, 110, 105)]
                sCredit lCredit) as H.
  cbn [getPriceData mixed_run] in H. cbv zeta in H.
  destruct (mixed_candidates e1 e2) as [Hcc Hpc].
  rewrite mixed_history_index, Hcc, Hpc in H.
  destruct (mixed_close_at e1 e2) as (C1 & C2 & C3 & C4).
  destruct flat_expirations as [E1 E2].
  unfold exp_close, expiry in H. cbn [map firstn] in H.
  rewrite E1, E2, C1, C2, C3, C4 in H.
  cbn [credits_of strikes_of map fst snd fmul] in H.
  replace (9 / 100 * 100) with 9 in H by lra.
  replace (0 * 100) with 0 in H by lra.
  apply H.
  - exact H7.
  - apply mixed_resolvable. exact H7.
  - constructor; [apply mixed_priced|]. constructor.
  - constructor; [apply mixed_priced|]. constructor.
  - exact HsC.
  - exact HsP.
Qed.

Lemma mixed_settlements :
  settle CALL [115] [112] [Fin 9] = Ret [Fin 9] /\
  settle PUT [105] [100] [Fin 0] = Ret [Fin (-500)].
Proof.
  split; settle_eval; [reflexivity|].
  replace (0 + - (500)) with (-500) by lra. reflexivity.
Qed.

Lemma settlement_by_far_strike_witness :
  exists slotsC slotsP : list nat,
    settle_slots CALL (shortStrike (mixed_locals 112 100 [Fin 9] [Fin (-500)])) (shortExpPrice (mixed_locals 112 100 [Fin 9] [Fin (-500)]))
      (length (pricedShortCredit (mixed_locals 112 100 [Fin 9] [Fin (-500)]))) 0 (pricedShortCredit (mixed_locals 112 100 [Fin 9] [Fin (-500)])) = Ret slotsC /\
    settle_slots PUT (longStrike (mixed_locals 112 100 [Fin 9] [Fin (-500)])) (longExpPrice (mixed_locals 112 100 [Fin 9] [Fin (-500)]))
      (length (pricedLongCredit (mixed_locals 112 100 [Fin 9] [Fin (-500)]))) 0 (pricedLongCredit (mixed_locals 112 100 [Fin 9] [Fin (-500)])) = Ret slotsP /\
    (forall j c, nth_error (pricedShortCredit (mixed_locals 112 100 [Fin 9] [Fin (-500)])) j = Some c ->
       exists S e,
         nth_error (shortPrice (mixed_locals 112 100 [Fin 9] [Fin (-500)])) j = Some S /\
         nth_error (shortExpPrice (mixed_locals 112 100 [Fin 9] [Fin (-500)])) j = Some e /\
         nth_error (shortStrike (mixed_locals 112 100 [Fin 9] [Fin (-500)])) j = Some (round_nd (dmul S lit_1_03) (-1) + 5) /\
         nth_error (shortCredit (mixed_locals 112 100 [Fin 9] [Fin (-500)])) j
         = Some (if Rltb e (round_nd (dmul S lit_1_03) (-1) + 5) then c
                 else reduced (count_occ Nat.eq_dec slotsC j) c) /\
         (count_occ Nat.eq_dec slotsC j = 1%nat ->
          nth_error (shortCredit (mixed_locals 112 100 [Fin 9] [Fin (-500)])) j
          = Some (if Rltb e (round_nd (dmul S lit_1_03) (-1) + 5) then c
                  else fsub c (Fin 500)))) /\
    (forall j c, nth_error (pricedLongCredit (mixed_locals 112 100 [Fin 9] [Fin (-500)])) j = Some c ->
       exists S e,
         nth_error (longPrice (mixed_locals 112 100 [Fin 9] [Fin (-500)])) j = Some S /\
         nth_error (longExpPrice (mixed_locals 112 100 [Fin 9] [Fin (-500)])) j = Some e /\
         nth_error (longStrike (mixed_locals 112 100 [Fin 9] [Fin (-500)])) j
         = Some (round_nd (dsub S (dmul S lit_0_03)) (-1) - 5) /\
         nth_error (longCredit (mixed_locals 112 100 [Fin 9] [Fin (-500)])) j
         = Some (if Rltb (round_nd (dsub S (dmul S lit_0_03)) (-1) - 5) e then c
                 else reduced (count_occ Nat.eq_dec slotsP j) c) /\
         (count_occ Nat.eq_dec slotsP j = 1%nat ->
          nth_error (longCredit (mixed_locals 112 100 [Fin 9] [Fin (-500)])) j
          = Some (if Rltb (round_nd (dsub S (dmul S lit_0_03)) (-1) - 5) e then c
                  else fsub c (Fin 500)))).
Proof.
  apply (settlement_by_far_strike 7 (mixed_run 112 100)
           (mixed_locals 112 100 [Fin 9] [Fin (-500)])).
  apply mixed_run_to_settlement; [lia | apply mixed_settlements..].
Defined.

(** C1, as stated, fails: on the flat history the first call trade is sold
    at 110 with near strike 110 and far strike 115 for a credit of 9, and
    the spot at its expiration is 112.  The near strike is not above the
    spot, so the claim has it end at 9 - 500; the run keeps its credit 9,
    because the far strike 115 is above the spot. *)
Lemma near_strike_rule_fails :
  run_to_settlement 7 (flat_run (1 / 12) 112 113)
  = Ret (flat_locals 112 113 [Fin 9; Fin 9]) /\
  round_nd (dmul 110 lit_1_03) (-1) = 110 /\
  ~ 110 > 112 /\
  fsub (Fin 9) (Fin 500) <> Fin 9.
Proof.
  split; [|split; [|split]].
  - apply flat_run_to_settlement; [lia|]. settle_eval. reflexivity.
  - exact near_call_strike_110.
  - lra.
  - cbn [fsub fneg fadd]. intros H. inversion H. lra.
Qed.

(** C3: the code at the failing input.  On the flat history with spots 112
    and 120 at the two expirations both call trades have credit 9 and far
    strike 115.  The second trade is a loss (115 is not above 120) and
    should end at 9 - 500 = -491, but the lookup of its credit finds the
    first trade's slot, which is in profit, and its credit stays 9. *)
Theorem equal_credits_loss_not_reduced :
  run_to_settlement 7 (flat_run (1 / 12) 112 120)
  = Ret (flat_locals 112 120 [Fin 9; Fin 9]) /\
  in_profit CALL 115 120 = false /\
  settled CALL (Fin 9) 115 120 = Fin (-491) /\
  settle_slots CALL [115; 115] [112; 120] 2 0 [Fin 9; Fin 9] = Ret [0; 0]%nat.
Proof.
  split; [|split; [|split]].
  - apply flat_run_to_settlement; [lia | apply settle_first_in_profit].
  - unfold in_profit. Rb_eval. reflexivity.
  - unfold settled, in_profit, strikeWidth. Rb_eval. cbn [fsub fneg fadd].
    f_equal. lra.
  - apply settle_first_in_profit.
Qed.

(** C9, as stated, fails: on the flat history with spots 120 and 112 the
    two call trades have equal credits 9; the first is a loss and its slot
    holds -491 when the second is settled, so the lookup of the second
    credit finds the second slot and the trade is settled by its own
    data. *)
Lemma equal_credit_after_loss_finds_own_slot :
  run_to_settlement 7 (flat_run (1 / 12) 120 112)
  = Ret (flat_locals 120 112 [Fin (-491); Fin 9]) /\
  settle_slots CALL [115; 115] [120; 112] 2 0 [Fin 9; Fin 9] = Ret [0; 1]%nat.
Proof.
  split.
  - apply flat_run_to_settlement; [lia | apply settle_first_at_loss].
  - apply settle_first_at_loss.
Qed.

(* ------------------------------------------------------------------ *)
(** ** Which slot a lookup finds *)

Lemma Forall2_nth_error {A B : Type} (P : A -> B -> Prop) l1 l2 j a :
  Forall2 P l1 l2 -> nth_error l1 j = Some a ->
  exists b, nth_error l2 j = Some b /\ P a b.
Proof.
  intros HF. revert j. induction HF as [|x y l1 l2 Hxy HF IH]; intros j Hj.
  - destruct j; discriminate.
  - destruct j as [|j]; cbn in *.
    + inversion Hj; subst. eauto.
    + apply IH. exact Hj.
Qed.

Lemma price_lookup getData valid dates price todo res j i :
  price_spreads getData valid dates price todo [] [] = Ret res ->
  nth_error todo j = Some i ->
  exists w d Date data,
    nth_error price w = Some i /\
    (forall m p, (m < w)%nat -> nth_error price m = Some p -> p <> i) /\
    nth_error dates w = Some d /\
    list_index Z.eqb valid d = Ret Date /\
    getData i Date = Ret data /\
    nth_error (fst res) j = Some (fmul (fst (fst data)) (Fin 100)) /\
    nth_error (snd res) j = Some (snd data).
Proof.
  intros H Hj. apply price_spreads_ret_inv in H.
  destruct H as (datas & HF & ->). cbn [app fst snd].
  destruct (Forall2_nth_error _ _ _ _ _ HF Hj)
    as (data & Hdata & (w & d & Date & Hw & Hd & HD & Hget)).
  apply list_index_close_ret in Hw. destruct Hw as [Hw Hfirst].
  exists w, d, Date, data.
  split; [exact Hw|]. split; [exact Hfirst|]. split.
  - unfold py_index in Hd. destruct (nth_error dates w); inversion Hd. reflexivity.
  - split; [exact HD|]. split; [exact Hget|]. split.
    + unfold credits_of. rewrite nth_error_map, Hdata. reflexivity.
    + unfold strikes_of. rewrite nth_error_map, Hdata. reflexivity.
Qed.

Lemma settle_step_inv s strike expPrice j credit k credit' :
  settle_step s strike expPrice j credit = Ret (k, credit') ->
  (k <= j)%nat /\ exists v, credit' = set_nth credit k v.
Proof.
  unfold settle_step, py_index, list_index_of_slot. intros H.
  destruct (nth_error credit j) as [i|] eqn:Hi; cbn [bind] in H; [|discriminate].
  destruct (find_index _ credit 0%nat) as [k0|] eqn:Hk; cbn [bind] in H; [|discriminate].
  destruct (nth_error strike k0) as [sk|]; cbn [bind] in H; [|discriminate].
  destruct (nth_error expPrice k0) as [ek|]; cbn [bind] in H; [|discriminate].
  destruct (nth_error credit k0) as [ck|]; cbn [bind] in H; [|discriminate].
  assert (Hle : (k0 <= j)%nat).
  { apply find_index_some in Hk. destruct Hk as (_ & _ & Hbefore).
    rewrite Nat.sub_0_r in Hbefore.
    destruct (Nat.le_gt_cases k0 j) as [Hle|Hgt]; [exact Hle|].
    specialize (Hbefore j i Hgt Hi). cbn in Hbefore.
    rewrite Nat.eqb_refl in Hbefore. discriminate. }
  destruct (in_profit s sk ek); inversion H; subst; eauto.
Qed.

(** The first passes leave the later slots as they were priced. *)
Lemma settle_loop_untouched s strike expPrice remaining j credit L :
  settle_loop s strike expPrice remaining j credit = Ret L ->
  length L = length credit /\
  forall m, (j + remaining <= m)%nat -> nth_error L m = nth_error credit m.
Proof.
  revert j credit. induction remaining as [|rem IH]; intros j credit H.
  - cbn in H. inversion H. split; reflexivity.
  - cbn [settle_loop] in H.
    destruct (settle_step s strike expPrice j credit) as [[k c']| |] eqn:Hstep;
      cbn [bind snd] in H; try discriminate.
    destruct (settle_step_inv _ _ _ _ _ _ _ Hstep) as (Hle & v & ->).
    destruct (IH _ _ H) as [Hlen Hsame]. split.
    + rewrite Hlen. apply length_set_nth.
    + intros m Hm. rewrite Hsame by lia. apply nth_error_set_nth_other. lia.
Qed.

(** C9 (amended). Trades are matched to their data by value.  In pricing,
    an entry close is priced with the date of the first candidate of the
    side that has this close, so a candidate whose close equals an earlier
    one's gets the earlier one's date.  In settlement, when the passes
    before trade j have left the list L, the slot k used for trade j is
    the first slot that holds a value equal to its credit (or j itself):
    the strike, the expiration price and the reduction are those of slot k.
    So trade j is settled by an earlier slot exactly when that slot still
    holds a value equal to its credit; an earlier trade with the same
    credit that has already been reduced by 500 no longer matches. *)
Theorem value_lookup_attribution :
  (forall getData valid dates price todo res j i,
      price_spreads getData valid dates price todo [] [] = Ret res ->
      nth_error todo j = Some i ->
      exists w d Date data,
        nth_error price w = Some i /\
        (forall m p, (m < w)%nat -> nth_error price m = Some p -> p <> i) /\
        nth_error dates w = Some d /\
        list_index Z.eqb valid d = Ret Date /\
        getData i Date = Ret data /\
        nth_error (fst res) j = Some (fmul (fst (fst data)) (Fin 100)) /\
        nth_error (snd res) j = Some (snd data)) /\
  (forall s strike expPrice credit j cj,
      (length credit <= length strike)%nat ->
      (length credit <= length expPrice)%nat ->
      nth_error credit j = Some cj ->
      exists L k ck sk ek,
        settle_loop s strike expPrice j 0 credit = Ret L /\
        nth_error L j = Some cj /\
        settle_step s strike expPrice j L
        = Ret (k, set_nth L k (settled s ck sk ek)) /\
        (k <= j)%nat /\
        nth_error L k = Some ck /\
        nth_error strike k = Some sk /\
        nth_error expPrice k = Some ek /\
        (forall m b, (m < k)%nat -> nth_error L m = Some b -> feqb b cj = false) /\
        ((k < j)%nat -> feqb ck cj = true) /\
        (k = j -> ck = cj)).
Proof.
  split.
  - intros. eapply price_lookup; eassumption.
  - intros s strike expPrice credit j cj Hk He Hj.
    assert (Hjlen : (j < length credit)%nat) by (apply nth_error_Some; congruence).
    destruct (settle_loop_total s strike expPrice j 0 credit) as (L & HL & HlenL);
      try lia.
    destruct (settle_loop_untouched _ _ _ _ _ _ _ HL) as [_ Hsame].
    assert (HLj : nth_error L j = Some cj) by (rewrite Hsame by lia; exact Hj).
    destruct (settle_step_ret s strike expPrice j L cj HLj) as
      (k & ck & sk & ek & Hstep & Hle & Hck & Hsk & Hek & Hbefore & Hlt & Heq);
      try lia.
    exists L, k, ck, sk, ek. auto 12.
Qed.

Lemma value_lookup_attribution_witness :
  exists L k ck sk ek,
    settle_loop CALL [115; 115] [112; 120] 1 0 [Fin 9; Fin 9] = Ret L /\
    nth_error L 1 = Some (Fin 9) /\
    settle_step CALL [115; 115] [112; 120] 1 L
    = Ret (k, set_nth L k (settled CALL ck sk ek)) /\
    (k <= 1)%nat /\
    nth_error L k = Some ck /\
    nth_error [115; 115] k = Some sk /\
    nth_error [112; 120] k = Some ek /\
    (forall m b, (m < k)%nat -> nth_error L m = Some b -> feqb b (Fin 9) = false) /\
    ((k < 1)%nat -> feqb ck (Fin 9) = true) /\
    (k = 1%nat -> ck = Fin 9).
Proof.
  apply (proj2 value_lookup_attribution CALL [115; 115] [112; 120] [Fin 9; Fin 9]
           1%nat (Fin 9)).
  - simpl. lia.
  - simpl. lia.
  - reflexivity.
Defined.

(* ------------------------------------------------------------------ *)
(** ** Signals and candidates *)

Lemma loc_ret_in {A : Type} (col : bar -> A) df d v :
  loc col df d = Ret v -> In d (df_index df).
Proof.
  unfold loc. destruct (find _ df) as [b|] eqn:Hb; intros H; [|discriminate].
  apply find_some in Hb. destruct Hb as [Hin E]. apply Z.eqb_eq in E.
  subst d. unfold df_index. apply in_map. exact Hin.
Qed.

(** C8. The classification uses strict inequalities: a date whose RSI is x
    is put on the short list (call spreads) exactly when x > 70 and on the
    long list (put spreads) exactly when x < 30; every other value, 70 and
    30 included, puts it on neither list, and only a date of the short
    (long) list can become a call (put) candidate. *)
Theorem signal_classification (self : Options_Pricing) (d : date) (x : R) :
  loc bar_RSI (getPriceData self) d = Ret (Fin x) ->
  exists shortList longList,
    scan_signals (getPriceData self) (df_index (getPriceData self)) [] [] []
    = Ret (df_index (getPriceData self), shortList, longList) /\
    (In d shortList <-> 70 < x) /\
    (In d longList <-> x < 30) /\
    (30 <= x <= 70 -> ~ In d shortList /\ ~ In d longList) /\
    (forall fuel st, run_to_settlement fuel self = Ret st ->
       (In d (callDates st) -> 70 < x) /\ (In d (putDates st) -> x < 30)).
Proof.
  intros Hloc. set (df := getPriceData self) in *.
  pose proof (loc_ret_in _ _ _ _ Hloc) as Hin.
  apply loc_RSI_ret in Hloc.
  assert (Hs : In d (filter (is_short df) (df_index df)) <-> 70 < x).
  { rewrite filter_In. unfold is_short. rewrite Hloc. cbn [fgtb fltb].
    rewrite Rltb_lt. tauto. }
  assert (Hl : In d (filter (is_long df) (df_index df)) <-> x < 30).
  { rewrite filter_In. unfold is_long. rewrite Hloc. cbn [fgtb fltb].
    rewrite andb_true_iff, negb_true_iff, Rltb_lt. split.
    - tauto.
    - intros Hx. split; [exact Hin|]. split; [apply Rltb_false; lra | exact Hx]. }
  exists (filter (is_short df) (df_index df)), (filter (is_long df) (df_index df)).
  split; [apply scan_signals_frame|]. split; [exact Hs|]. split; [exact Hl|]. split.
  - intros Hx. rewrite Hs, Hl. lra.
  - intros fuel st Hrun.
    destruct (run_to_settlement_inv fuel self st Hrun) as (_ & HcD & HpD & _).
    fold df in HcD, HpD. rewrite HcD, HpD. split; intros Hd.
    + apply Hs. unfold call_candidates in Hd. apply filter_In in Hd. tauto.
    + apply Hl. unfold put_candidates in Hd. apply filter_In in Hd. tauto.
Qed.

(** C10. A date whose RSI is undefined (NaN) fails both threshold tests, is
    put on neither signal list and never becomes a candidate. *)
Theorem undefined_rsi_is_no_signal (self : Options_Pricing) (d : date) :
  loc bar_RSI (getPriceData self) d = Ret NaN ->
  fgtb NaN (Fin 70) = false /\
  fltb NaN (Fin 30) = false /\
  exists shortList longList,
    scan_signals (getPriceData self) (df_index (getPriceData self)) [] [] []
    = Ret (df_index (getPriceData self), shortList, longList) /\
    ~ In d shortList /\ ~ In d longList /\
    (forall fuel st, run_to_settlement fuel self = Ret st ->
       ~ In d (callDates st) /\ ~ In d (putDates st)).
Proof.
  intros Hloc. set (df := getPriceData self) in *.
  apply loc_RSI_ret in Hloc.
  split; [reflexivity|]. split; [reflexivity|].
  assert (Hs : ~ In d (filter (is_short df) (df_index df))).
  { rewrite filter_In. unfold is_short. rewrite Hloc. cbn. intros [_ H]. discriminate. }
  assert (Hl : ~ In d (filter (is_long df) (df_index df))).
  { rewrite filter_In. unfold is_long. rewrite Hloc. cbn. intros [_ H]. discriminate. }
  exists (filter (is_short df) (df_index df)), (filter (is_long df) (df_index df)).
  split; [apply scan_signals_frame|]. split; [exact Hs|]. split; [exact Hl|].
  intros fuel st Hrun.
  destruct (run_to_settlement_inv fuel self st Hrun) as (_ & HcD & HpD & _).
  fold df in HcD, HpD. rewrite HcD, HpD. split; intros Hd.
  - apply Hs. unfold call_candidates in Hd. apply filter_In in Hd. tauto.
  - apply Hl. unfold put_candidates in Hd. apply filter_In in Hd. tauto.
Qed.

Lemma flat_loc_RSI e1 e2 :
  loc bar_RSI (flat_history e1 e2) 738048%Z = Ret (Fin 75) /\
  loc bar_RSI (flat_history e1 e2) 737796%Z = Ret NaN.
Proof.
  pose proof (flat_history_NoDup e1 e2) as Hnd.
  assert (H252 : In (flat_bar 252) (flat_history e1 e2))
    by (apply flat_in_history; cbn; auto).
  assert (H0 : In (flat_bar 0) (flat_history e1 e2)).
  { unfold flat_history. apply in_or_app. left. apply in_map. apply in_seq. lia. }
  split.
  - rewrite loc_RSI_in.
    + exact (f_equal Ret (rsi_at_own _ (flat_bar 252) Hnd H252)).
    + rewrite flat_history_index. apply existsb_date_in. vm_compute. reflexivity.
  - rewrite loc_RSI_in.
    + exact (f_equal Ret (rsi_at_own _ (flat_bar 0) Hnd H0)).
    + rewrite flat_history_index. apply existsb_date_in. vm_compute. reflexivity.
Qed.

Lemma signal_classification_witness :
  exists shortList longList,
    scan_signals (flat_history 112 120) (df_index (flat_history 112 120)) [] [] []
    = Ret (df_index (flat_history 112 120), shortList, longList) /\
    (In 738048%Z shortList <-> 70 < 75) /\
    (In 738048%Z longList <-> 75 < 30) /\
    (30 <= 75 <= 70 -> ~ In 738048%Z shortList /\ ~ In 738048%Z longList) /\
    (forall fuel st, run_to_settlement fuel (flat_run (1 / 12) 112 120) = Ret st ->
       (In 738048%Z (callDates st) -> 70 < 75) /\ (In 738048%Z (putDates st) -> 75 < 30)).
Proof.
  apply (signal_classification (flat_run (1 / 12) 112 120) 738048%Z 75).
  apply flat_loc_RSI.
Defined.

Lemma undefined_rsi_is_no_signal_witness :
  fgtb NaN (Fin 70) = false /\
  fltb NaN (Fin 30) = false /\
  exists shortList longList,
    scan_signals (flat_history 112 120) (df_index (flat_history 112 120)) [] [] []
    = Ret (df_index (flat_history 112 120), shortList, longList) /\
    ~ In 737796%Z shortList /\ ~ In 737796%Z longList /\
    (forall fuel st, run_to_settlement fuel (flat_run (1 / 12) 112 120) = Ret st ->
       ~ In 737796%Z (callDates st) /\ ~ In 737796%Z (putDates st)).
Proof.
  apply (undefined_rsi_is_no_signal (flat_run (1 / 12) 112 120) 737796%Z).
  apply flat_loc_RSI.
Defined.

(* ------------------------------------------------------------------ *)
(** ** The whole run *)

Lemma fuel_for valid l :
  (forall d, In d l ->
     exists e, expiration_of valid d = Some e /\ (e <= max_date)%Z) ->
  exists fuel,
    (7 <= fuel)%nat /\
    forall d, In d l ->
      exists e, expiration_of valid d = Some e /\
                (e <= max_date)%Z /\
                (Z.to_nat (e - first_friday (d + 30))%Z < fuel)%nat.
Proof.
  induction l as [|a l IH]; intros H.
  - exists 7%nat. split; [lia | intros d []].
  - destruct IH as (fuel & H7 & Hl); [intros d Hd; apply H; right; exact Hd|].
    destruct (H a (or_introl eq_refl)) as (e & He & Hmax).
    exists (fuel + Datatypes.S (Z.to_nat (e - first_friday (a + 30))%Z))%nat.
    split; [lia|]. intros d [<-|Hd].
    + exists e. split; [exact He|]. split; [exact Hmax | lia].
    + destruct (Hl d Hd) as (e' & He' & Hmax' & Hlt). exists e'.
      split; [exact He'|]. split; [exact Hmax' | lia].
Qed.

(** Every candidate of a run that reaches settlement has an expiration. *)
Lemma run_to_settlement_expirations fuel self st :
  run_to_settlement fuel self = Ret st ->
  forall d, In d (call_candidates (getPriceData self)
                  ++ put_candidates (getPriceData self)) ->
    exists e, expiration_of (df_index (getPriceData self)) d = Some e.
Proof.
  intros H. set (df := getPriceData self). unfold run_to_settlement in H.
  fold df in H. rewrite scan_signals_frame in H.
  cbn [bind signal_lists fst snd] in H.
  destruct (collect_candidates fuel df (df_index df) (filter (is_short df) (df_index df)) [] [] [])
    as [calls| |] eqn:Hcalls; cbn [bind] in H; try discriminate.
  destruct (collect_candidates fuel df (df_index df) (filter (is_long df) (df_index df)) [] [] [])
    as [puts| |] eqn:Hputs; cbn [bind] in H; try discriminate.
  apply collect_ret_inv in Hcalls; [|apply filter_incl_index].
  apply collect_ret_inv in Hputs; [|apply filter_incl_index].
  destruct Hcalls as [_ HC]. destruct Hputs as [_ HP].
  intros d Hd. apply in_app_or in Hd. destruct Hd as [Hd|Hd]; auto.
Qed.

(** How the run can end before the final lines: it reaches the end of
    settlement; or the expiration search of a candidate with no index date
    from its target Friday to the last Timestamp raises; or the fuel was
    not enough.  Pricing and settlement cannot fail. *)
Lemma run_to_settlement_cases fuel self :
  (exists st, run_to_settlement fuel self = Ret st) \/
  (run_to_settlement fuel self = Raise OutOfBoundsDatetime /\
   exists d, In d (call_candidates (getPriceData self)
                   ++ put_candidates (getPriceData self)) /\
     forall e, In e (df_index (getPriceData self)) ->
               (first_friday (d + 30) <= e)%Z -> (max_date < e)%Z) \/
  (run_to_settlement fuel self = Diverge /\ ~ enough_fuel fuel (getPriceData self)).
Proof.
  set (df := getPriceData self). unfold run_to_settlement. fold df.
  rewrite scan_signals_frame. cbn [bind signal_lists fst snd].
  pose proof (collect_enough fuel df (df_index df) (filter (is_short df) (df_index df))
                [] [] [] (filter_incl_index _ _) (incl_refl _)) as HenC.
  pose proof (collect_enough fuel df (df_index df) (filter (is_long df) (df_index df))
                [] [] [] (filter_incl_index _ _) (incl_refl _)) as HenP.
  destruct (collect_candidates fuel df (df_index df) (filter (is_short df) (df_index df)) [] [] [])
    as [calls|ex|] eqn:Hcalls; cbn [bind].
  2:{ right. left.
      apply collect_raise in Hcalls; [|apply filter_incl_index | apply incl_refl].
      destruct Hcalls as (-> & d & Hd & Hq & Hno). split; [reflexivity|].
      exists d. split; [|exact Hno]. apply in_or_app. left.
      unfold call_candidates. apply filter_In. split; assumption. }
  2:{ right. right. split; [reflexivity|]. intros Hen.
      destruct (HenC Hen) as [[res Hres]|Hres]; discriminate. }
  destruct (collect_candidates fuel df (df_index df) (filter (is_long df) (df_index df)) [] [] [])
    as [puts|ex|] eqn:Hputs; cbn [bind].
  2:{ right. left.
      apply collect_raise in Hputs; [|apply filter_incl_index | apply incl_refl].
      destruct Hputs as (-> & d & Hd & Hq & Hno). split; [reflexivity|].
      exists d. split; [|exact Hno]. apply in_or_app. right.
      unfold put_candidates. apply filter_In. split; assumption. }
  2:{ right. right. split; [reflexivity|]. intros Hen.
      destruct (HenP Hen) as [[res Hres]|Hres]; discriminate. }
  left.
  apply collect_ret_inv in Hcalls; [|apply filter_incl_index].
  apply collect_ret_inv in Hputs; [|apply filter_incl_index].
  destruct Hcalls as [-> _]. destruct Hputs as [-> _].
  cbn [fst snd app]. fold (call_candidates df). fold (put_candidates df).
  destruct (priced_total (getCallData self) (df_index df) (call_candidates df)
              (map (close_at df) (call_candidates df))
              (firstn 15 (map (close_at df) (call_candidates df))))
    as [datasC HC].
  { apply getCallData_total. } { apply firstn_incl. }
  { rewrite length_map. reflexivity. } { apply call_candidates_incl. }
  destruct (priced_total (getPutData self) (df_index df) (put_candidates df)
              (map (close_at df) (put_candidates df))
              (firstn 15 (map (close_at df) (put_candidates df))))
    as [datasP HP].
  { apply getPutData_total. } { apply firstn_incl. }
  { rewrite length_map. reflexivity. } { apply put_candidates_incl. }
  pose proof (Forall2_length_eq _ _ _ HC) as HlenC.
  pose proof (Forall2_length_eq _ _ _ HP) as HlenP.
  rewrite length_firstn, length_map in HlenC, HlenP.
  destruct (settle_total CALL (strikes_of datasC)
              (map (exp_close df (df_index df)) (call_candidates df))
              (credits_of datasC)) as (sCredit & HsC & _).
  { unfold credits_of, strikes_of. rewrite !length_map. lia. }
  { unfold credits_of. rewrite !length_map. lia. }
  destruct (settle_total PUT (strikes_of datasP)
              (map (exp_close df (df_index df)) (put_candidates df))
              (credits_of datasP)) as (lCredit & HlC & _).
  { unfold credits_of, strikes_of. rewrite !length_map. lia. }
  { unfold credits_of. rewrite !length_map. lia. }
  rewrite (price_spreads_ret _ _ _ _ _ datasC) by exact HC. cbn [bind app].
  rewrite (price_spreads_ret _ _ _ _ _ datasP) by exact HP. cbn [bind app fst snd].
  rewrite HsC. cbn [bind]. rewrite HlC. cbn [bind].
  eexists. reflexivity.
Qed.

(** No candidate is dropped: with one that has no index date on or after
    its target Friday the run does not reach settlement, and with enough
    fuel its search ends with the exception of the date addition. *)
Lemma run_without_expiration self d :
  In d (call_candidates (getPriceData self) ++ put_candidates (getPriceData self)) ->
  expiration_of (df_index (getPriceData self)) d = None ->
  (forall fuel st, run_to_settlement fuel self <> Ret st) /\
  (forall fuel, enough_fuel fuel (getPriceData self) ->
     run_to_settlement fuel self = Raise OutOfBoundsDatetime).
Proof.
  intros Hd Hnone.
  assert (Hnever : forall fuel st, run_to_settlement fuel self <> Ret st).
  { intros fuel st Hst.
    destruct (run_to_settlement_expirations fuel self st Hst d Hd) as [e He].
    congruence. }
  split; [exact Hnever|]. intros fuel Hen.
  destruct (run_to_settlement_cases fuel self) as [[st Hst]|[[Hr _]|[_ Hno]]].
  - exfalso. exact (Hnever fuel st Hst).
  - exact Hr.
  - contradiction.
Qed.

Lemma INR_30 : INR (15 + 15) * strikeWidth = 15000.
Proof. unfold strikeWidth. rewrite INR_IZR_INZ. cbn. lra. Qed.

Lemma length_firstn_15 {A : Type} (l : list A) :
  (16 <= length l)%nat -> length (firstn 15 l) = 15%nat.
Proof. intros H. rewrite length_firstn. lia. Qed.

Lemma runBackTest_eq fuel self st :
  run_to_settlement fuel self = Ret st ->
  (16 <= length (callDates st))%nat ->
  (16 <= length (putDates st))%nat ->
  runBackTest fuel self
  = Ret (mkReport (fadd (py_sum (shortCredit st)) (py_sum (longCredit st))) 15000).
Proof.
  intros Hrun Hc Hp.
  destruct (run_to_settlement_inv fuel self st Hrun)
    as (_ & HcD & HpD & HsP & HlP & _).
  unfold runBackTest. rewrite Hrun. cbn [bind]. unfold py_index.
  destruct (nth_error (callDates st) 0) eqn:E0.
  2:{ apply nth_error_None in E0. lia. }
  destruct (nth_error (callDates st) 15) eqn:E15.
  2:{ apply nth_error_None in E15. lia. }
  destruct (nth_error (putDates st) 0) eqn:P0.
  2:{ apply nth_error_None in P0. lia. }
  destruct (nth_error (putDates st) 15) eqn:P15.
  2:{ apply nth_error_None in P15. lia. }
  cbn [bind]. rewrite !length_firstn_15.
  - rewrite INR_30. reflexivity.
  - rewrite HlP, length_map, <- HpD. exact Hp.
  - rewrite HsP, length_map, <- HcD. exact Hc.
Qed.

Lemma runBackTest_raise fuel self ex :
  run_to_settlement fuel self = Raise ex -> runBackTest fuel self = Raise ex.
Proof. intros H. unfold runBackTest. rewrite H. reflexivity. Qed.

Lemma runBackTest_settles fuel self rep :
  runBackTest fuel self = Ret rep -> exists st, run_to_settlement fuel self = Ret st.
Proof.
  unfold runBackTest. intros H.
  destruct (run_to_settlement fuel self) as [st| |]; cbn [bind] in H;
    try discriminate.
  exists st. reflexivity.
Qed.

(** C2 (amended). On a history whose index is a list of Timestamps with no
    repeated date, the run returns its report (the sum of the settled
    credits and a collateral of 15000) whenever every qualifying candidate
    has an index date on or after its target Friday and each side has at
    least 16 qualifying candidates.  No per-candidate failure is recovered:
    a qualifying candidate with no index date on or after its target Friday
    is not dropped; its expiration search goes on to the last day of the
    Timestamp range, and the run returns no report but ends with the
    OutOfBoundsDatetime of the date addition. *)
Theorem backtest_returns (self : Options_Pricing) :
  NoDup (df_index (getPriceData self)) ->
  timestamps (df_index (getPriceData self)) ->
  ((forall d, In d (call_candidates (getPriceData self)
                    ++ put_candidates (getPriceData self)) ->
      exists e, In e (df_index (getPriceData self)) /\
                (first_friday (d + 30) <= e)%Z) ->
   (16 <= length (call_candidates (getPriceData self)))%nat ->
   (16 <= length (put_candidates (getPriceData self)))%nat ->
   exists fuel st,
     run_to_settlement fuel self = Ret st /\
     runBackTest fuel self
     = Ret (mkReport (fadd (py_sum (shortCredit st)) (py_sum (longCredit st)))
              15000)) /\
  (forall d, In d (call_candidates (getPriceData self)
                   ++ put_candidates (getPriceData self)) ->
     (forall e, In e (df_index (getPriceData self)) ->
                (e < first_friday (d + 30))%Z) ->
     (forall fuel rep, runBackTest fuel self <> Ret rep) /\
     (forall fuel, enough_fuel fuel (getPriceData self) ->
        runBackTest fuel self = Raise OutOfBoundsDatetime)).
Proof.
  intros _ Hts. split.
  - intros Hexp Hc Hp.
    destruct (fuel_for (df_index (getPriceData self))
                (call_candidates (getPriceData self)
                 ++ put_candidates (getPriceData self))) as (fuel & H7 & Hfuel).
    { intros d Hd. destruct (Hexp d Hd) as (e0 & Hin & Hle).
      destruct (earliest_from_exists _ _ e0 Hin Hle) as [e He].
      exists e. split; [exact He|].
      apply earliest_from_some in He. destruct He as (_ & _ & Hmin).
      specialize (Hmin e0 Hin Hle).
      pose proof (proj1 (Forall_forall _ _) Hts e0 Hin) as Hmax. cbv beta in Hmax.
      lia. }
    destruct (run_to_settlement_total fuel self H7 Hfuel) as [st Hst].
    exists fuel, st. split; [exact Hst|].
    destruct (run_to_settlement_inv fuel self st Hst) as (_ & HcD & HpD & _).
    apply runBackTest_eq; [exact Hst | rewrite HcD; exact Hc | rewrite HpD; exact Hp].
  - intros d Hd Hnone.
    assert (He : expiration_of (df_index (getPriceData self)) d = None).
    { destruct (expiration_of (df_index (getPriceData self)) d) as [e|] eqn:He;
        [|reflexivity].
      apply earliest_from_some in He. destruct He as (Hin & Hle & _).
      specialize (Hnone e Hin). lia. }
    destruct (run_without_expiration self d Hd He) as [Hnever Hraise]. split.
    + intros fuel rep H. destruct (runBackTest_settles fuel self rep H) as [st Hst].
      exact (Hnever fuel st Hst).
    + intros fuel Hen. apply runBackTest_raise. exact (Hraise fuel Hen).
Qed.

(* ------------------------------------------------------------------ *)
(** ** The run on the history with sixteen candidates on each side *)

Lemma busy_history_index last : df_index (busy_history last) = busy_index.
Proof.
  unfold df_index, busy_history, busy_index. rewrite map_app, map_map. reflexivity.
Qed.

Lemma busy_history_NoDup last : NoDup (df_index (busy_history last)).
Proof.
  rewrite busy_history_index. apply ascending_NoDup. vm_compute. reflexivity.
Qed.

Lemma busy_history_split last :
  busy_history last
  = map busy_bar (seq 0 16) ++ map busy_bar (seq 16 16) ++ [mkBar 737896%Z 150 last].
Proof.
  unfold busy_history. change 32%nat with (16 + 16)%nat.
  rewrite seq_app, map_app, <- app_assoc. reflexivity.
Qed.

Lemma busy_bar_call k : (k < 16)%nat -> call_bar (busy_bar k) = true /\ put_bar (busy_bar k) = false.
Proof.
  intros H. unfold call_bar, put_bar, in_band. cbn [bar_RSI bar_Close busy_bar].
  destruct (Nat.ltb_spec k 16); [|lia]. cbn [fgtb fltb]. Rb_eval. split; reflexivity.
Qed.

Lemma busy_bar_put k : (16 <= k)%nat -> call_bar (busy_bar k) = false /\ put_bar (busy_bar k) = true.
Proof.
  intros H. unfold call_bar, put_bar, in_band. cbn [bar_RSI bar_Close busy_bar].
  destruct (Nat.ltb_spec k 16); [lia|]. cbn [fgtb fltb]. Rb_eval. split; reflexivity.
Qed.

Lemma busy_call_bars last :
  filter call_bar (busy_history last)
  = map busy_bar (seq 0 16) ++ filter call_bar [mkBar 737896%Z 150 last].
Proof.
  rewrite busy_history_split, !filter_app. rewrite filter_all.
  - rewrite (filter_none call_bar (map busy_bar (seq 16 16))); [reflexivity|].
    intros b Hb. apply in_map_iff in Hb. destruct Hb as (k & <- & Hk).
    apply in_seq in Hk. apply busy_bar_put. lia.
  - intros b Hb. apply in_map_iff in Hb. destruct Hb as (k & <- & Hk).
    apply in_seq in Hk. apply busy_bar_call. lia.
Qed.

Lemma busy_put_bars last :
  filter put_bar (busy_history last)
  = map busy_bar (seq 16 16) ++ filter put_bar [mkBar 737896%Z 150 last].
Proof.
  rewrite busy_history_split, !filter_app. rewrite filter_none.
  - rewrite (filter_all put_bar (map busy_bar (seq 16 16))); [reflexivity|].
    intros b Hb. apply in_map_iff in Hb. destruct Hb as (k & <- & Hk).
    apply in_seq in Hk. apply busy_bar_put. lia.
  - intros b Hb. apply in_map_iff in Hb. destruct Hb as (k & <- & Hk).
    apply in_seq in Hk. apply busy_bar_call. lia.
Qed.

Lemma busy_counts last :
  (16 <= length (call_candidates (busy_history last)))%nat /\
  (16 <= length (put_candidates (busy_history last)))%nat.
Proof.
  rewrite call_candidates_bars, put_candidates_bars by apply busy_history_NoDup.
  rewrite busy_call_bars, busy_put_bars.
  rewrite !length_map, !length_app, !length_map, !length_seq. lia.
Qed.

Lemma busy_candidates_early d :
  In d (call_candidates (busy_history (Fin 50)) ++ put_candidates (busy_history (Fin 50))) ->
  (737796 <= d <= 737827)%Z.
Proof.
  rewrite call_candidates_bars, put_candidates_bars by apply busy_history_NoDup.
  rewrite busy_call_bars, busy_put_bars.
  assert (Hc : filter call_bar [mkBar 737896%Z 150 (Fin 50)] = []).
  { cbn [filter]. unfold call_bar. cbn [bar_RSI fgtb fltb]. Rb_eval. reflexivity. }
  assert (Hp : filter put_bar [mkBar 737896%Z 150 (Fin 50)] = []).
  { cbn [filter]. unfold put_bar. cbn [bar_RSI fgtb fltb]. Rb_eval. reflexivity. }
  rewrite Hc, Hp, !app_nil_r, <- map_app. intros Hd.
  apply in_map_iff in Hd. destruct Hd as (b & <- & Hb).
  apply in_app_or in Hb.
  destruct Hb as [Hb|Hb]; apply in_map_iff in Hb; destruct Hb as (k & <- & Hk);
    apply in_seq in Hk; cbn [bar_date busy_bar]; lia.
Qed.

Lemma busy_index_range d : In d busy_index -> (737796 <= d <= 737896)%Z.
Proof.
  unfold busy_index. intros Hd. apply in_app_or in Hd. destruct Hd as [Hd|Hd].
  - apply in_map_iff in Hd. destruct Hd as (k & <- & Hk). apply in_seq in Hk. lia.
  - destruct Hd as [<-|[]]. lia.
Qed.

Lemma busy_timestamps last : timestamps (df_index (busy_history last)).
Proof.
  rewrite busy_history_index. apply Forall_forall. intros d Hd.
  apply busy_index_range in Hd. unfold max_date. lia.
Qed.

Lemma busy_enough_fuel last : enough_fuel (Z.to_nat 88200) (busy_history last).
Proof.
  split; [lia|]. intros d Hd. rewrite busy_history_index in Hd.
  apply busy_index_range in Hd. unfold max_date. lia.
Qed.

Lemma backtest_returns_witness :
  exists fuel st,
    run_to_settlement fuel (busy_run (Fin 50)) = Ret st /\
    runBackTest fuel (busy_run (Fin 50))
    = Ret (mkReport (fadd (py_sum (shortCredit st)) (py_sum (longCredit st)))
             15000).
Proof.
  apply (proj1 (backtest_returns (busy_run (Fin 50))
                  (busy_history_NoDup (Fin 50)) (busy_timestamps (Fin 50)))).
  - intros d Hd. apply busy_candidates_early in Hd.
    exists 737896%Z. split.
    + cbn [getPriceData busy_run]. rewrite busy_history_index.
      apply existsb_date_in. vm_compute. reflexivity.
    + pose proof (first_friday_bounds (d + 30)). lia.
  - apply busy_counts.
  - apply busy_counts.
Defined.

Lemma busy_late_candidate :
  In 737896%Z (call_candidates (busy_history (Fin 75))) /\
  expiration_of (df_index (busy_history (Fin 75))) 737896%Z = None.
Proof.
  split.
  - rewrite call_candidates_bars by apply busy_history_NoDup.
    rewrite busy_call_bars.
    assert (Hc : filter call_bar [mkBar 737896%Z 150 (Fin 75)]
                 = [mkBar 737896%Z 150 (Fin 75)]).
    { cbn [filter]. unfold call_bar, in_band. cbn [bar_RSI bar_Close fgtb fltb].
      Rb_eval. reflexivity. }
    rewrite Hc, map_app. apply in_or_app. right. left. reflexivity.
  - rewrite busy_history_index. vm_compute. reflexivity.
Qed.

(** C2, as stated, fails on well-formed input (ascending, non-empty).  With
    sixteen candidates on each side and one more call candidate on the last
    bar, which has no later index date, the candidate is not dropped: the
    run returns no report, and ends with OutOfBoundsDatetime when the search
    has reached 2262-04-11.  And the flat history, with two call candidates
    and no put candidate, ends in an IndexError instead of a report. *)
Lemma late_candidate_stops_the_run :
  ascending (df_index (busy_history (Fin 75))) = true /\
  (16 <= length (call_candidates (busy_history (Fin 75))))%nat /\
  (16 <= length (put_candidates (busy_history (Fin 75))))%nat /\
  (forall fuel rep, runBackTest fuel (busy_run (Fin 75)) <> Ret rep) /\
  runBackTest (Z.to_nat 88200) (busy_run (Fin 75)) = Raise OutOfBoundsDatetime /\
  ascending (df_index (flat_history 112 120)) = true /\
  runBackTest 7 (flat_run (1 / 12) 112 120) = Raise IndexError.
Proof.
  destruct (run_without_expiration (busy_run (Fin 75)) 737896%Z) as [Hnever Hraise].
  { apply in_or_app. left. apply busy_late_candidate. }
  { apply busy_late_candidate. }
  split; [rewrite busy_history_index; vm_compute; reflexivity|].
  split; [apply busy_counts|]. split; [apply busy_counts|].
  split; [|split; [|split]].
  - intros fuel rep H.
    destruct (runBackTest_settles fuel _ rep H) as [st Hst].
    exact (Hnever fuel st Hst).
  - apply runBackTest_raise. apply Hraise. apply busy_enough_fuel.
  - rewrite flat_history_index. apply flat_index_ascending.
  - unfold runBackTest.
    rewrite (flat_run_to_settlement 7 112 120 [Fin 9; Fin 9]);
      [reflexivity | lia | apply settle_first_in_profit].
Qed.

(* ================================================================== *)
(** * Further properties of the code *)

(* ------------------------------------------------------------------ *)
(** ** getVol *)

Lemma rolling_std_nth w xs i :
  (i < length xs)%nat ->
  nth_error (rolling_std w xs) i
  = Some (if (Datatypes.S i <? w)%nat then NaN
          else match finite_values (firstn w (skipn (Datatypes.S i - w) xs)) with
               | Some v => Fin (sample_std v)
               | None => NaN
               end).
Proof. intros H. unfold rolling_std. apply nth_error_map_seq. exact H. Qed.

Lemma getVol_nth self i :
  (i < length (getPriceData self))%nat ->
  nth_error (getVol self) i
  = Some (fmul (if (Datatypes.S i <? 252)%nat then NaN
                else match finite_values
                             (firstn 252 (skipn (Datatypes.S i - 252)
                                (log_returns (map bar_Close (getPriceData self))))) with
                     | Some v => Fin (sample_std v)
                     | None => NaN
                     end)
               (fsqrt (Fin 252))).
Proof.
  intros H. unfold getVol. rewrite nth_error_map, rolling_std_nth.
  - reflexivity.
  - rewrite log_returns_length, length_map. exact H.
Qed.

Lemma getVol_early self i :
  (i < length (getPriceData self))%nat -> (i < 252)%nat ->
  nth_error (getVol self) i = Some NaN.
Proof.
  intros Hlen Hi. rewrite getVol_nth by exact Hlen.
  destruct (Nat.ltb_spec (Datatypes.S i) 252) as [_|Hge]; [reflexivity|].
  assert (i = 251)%nat by lia. subst i.
  destruct (map bar_Close (getPriceData self)) as [|c rest] eqn:Hc.
  - apply (f_equal (@length R)) in Hc. rewrite length_map in Hc. cbn in Hc. lia.
  - replace (252 - 252)%nat with 0%nat by lia.
    cbn [log_returns skipn]. rewrite firstn_cons. reflexivity.
Qed.

(** X1. The volatility series has one value per row of the history, and the
    value is undefined (NaN) on each of the first 252 rows: the first return
    has no predecessor, so the first full window of 252 returns ends at row
    252. *)
Theorem volatility_undefined_first_252 (self : Options_Pricing) (i : nat) :
  (i < length (getPriceData self))%nat -> (i < 252)%nat ->
  length (getVol self) = length (getPriceData self) /\
  nth_error (getVol self) i = Some NaN.
Proof.
  intros Hlen Hi. split; [apply getVol_length | apply getVol_early; assumption].
Qed.

Lemma flat_history_length e1 e2 : length (flat_history e1 e2) = 256%nat.
Proof.
  unfold flat_history. rewrite length_app, length_map, length_seq. reflexivity.
Qed.

Lemma volatility_undefined_first_252_witness :
  length (getVol (flat_run (1 / 12) 112 120))
  = length (getPriceData (flat_run (1 / 12) 112 120)) /\
  nth_error (getVol (flat_run (1 / 12) 112 120)) 251 = Some NaN.
Proof.
  apply (volatility_undefined_first_252 (flat_run (1 / 12) 112 120) 251).
  - cbn [getPriceData flat_run]. rewrite flat_history_length. lia.
  - lia.
Defined.

(** X2. A volatility is never negative and never infinite: each value of
    the series is NaN or a finite real that is at least zero. *)
Theorem volatility_nan_or_nonnegative (self : Options_Pricing) (i : nat) (v : fval) :
  nth_error (getVol self) i = Some v ->
  v = NaN \/ exists s, v = Fin s /\ 0 <= s.
Proof.
  intros H.
  assert (Hlen : (i < length (getPriceData self))%nat).
  { rewrite <- getVol_length. apply nth_error_Some. congruence. }
  rewrite getVol_nth in H by exact Hlen. inversion H as [Hv]; clear H.
  cbn [fsqrt]. rewrite (Rltb_false 252 0) by lra.
  destruct (Datatypes.S i <? 252)%nat; [left; reflexivity|].
  destruct (finite_values _) as [w|]; [|left; reflexivity].
  right. eexists. split; [reflexivity|].
  apply Rmult_le_pos; [unfold sample_std; apply sqrt_pos | apply sqrt_pos].
Qed.

Lemma volatility_nan_or_nonnegative_witness :
  Fin 0 = NaN \/ exists s, Fin 0 = Fin s /\ 0 <= s.
Proof.
  apply (volatility_nan_or_nonnegative (flat_run (1 / 12) 112 120) 252 (Fin 0)).
  apply flat_run_vol. lia.
Defined.

Lemma nth_error_log_returns_from prev cl p :
  nth_error (log_returns_from prev cl) p
  = match nth_error (prev :: cl) p, nth_error cl p with
    | Some a, Some b => Some (flog (fdiv (Fin b) (Fin a)))
    | _, _ => None
    end.
Proof.
  revert prev p. induction cl as [|c rest IH]; intros prev p.
  - destruct p as [|p]; cbn; [reflexivity|]. destruct p; reflexivity.
  - destruct p as [|p]; [reflexivity|].
    cbn [log_returns_from nth_error]. rewrite IH. reflexivity.
Qed.

Lemma nth_error_log_returns cl p :
  nth_error (log_returns cl) (Datatypes.S p)
  = match nth_error cl p, nth_error cl (Datatypes.S p) with
    | Some a, Some b => Some (flog (fdiv (Fin b) (Fin a)))
    | _, _ => None
    end.
Proof.
  destruct cl as [|c rest].
  - cbn. destruct p; reflexivity.
  - cbn [log_returns nth_error]. apply nth_error_log_returns_from.
Qed.

(** With each window's deviation computed exactly, two histories that agree
    on rows i-252 .. i have the same value at row i. *)
Lemma getVol_window self1 self2 i :
  (252 <= i)%nat ->
  (i < length (getPriceData self1))%nat ->
  (i < length (getPriceData self2))%nat ->
  (forall p, (i - 252 <= p <= i)%nat ->
     nth_error (map bar_Close (getPriceData self1)) p
     = nth_error (map bar_Close (getPriceData self2)) p) ->
  nth_error (getVol self1) i = nth_error (getVol self2) i.
Proof.
  intros Hi H1 H2 Hsame. rewrite !getVol_nth by assumption.
  destruct (Nat.ltb_spec (Datatypes.S i) 252) as [Hlt|_]; [lia|].
  replace (firstn 252 (skipn (Datatypes.S i - 252)
             (log_returns (map bar_Close (getPriceData self1)))))
    with (firstn 252 (skipn (Datatypes.S i - 252)
             (log_returns (map bar_Close (getPriceData self2))))); [reflexivity|].
  apply nth_error_ext. intros q. rewrite !nth_error_firstn, !nth_error_skipn.
  destruct (Nat.ltb_spec q 252) as [Hq|_]; [|reflexivity].
  replace (Datatypes.S i - 252 + q)%nat with (Datatypes.S (i - 252 + q)) by lia.
  rewrite !nth_error_log_returns.
  rewrite (Hsame (i - 252 + q)%nat) by lia.
  rewrite (Hsame (Datatypes.S (i - 252 + q))) by lia. reflexivity.
Qed.

(** X5. After 253 equal positive closes the volatility is exactly zero: if
    rows i-252 .. i all close at c > 0, the volatility at row i is 0.0 (and
    the pricer then divides by zero). *)
Theorem constant_closes_have_zero_volatility (self : Options_Pricing) (c : R) (i : nat) :
  (252 <= i)%nat ->
  (i < length (getPriceData self))%nat ->
  0 < c ->
  (forall p, (i - 252 <= p <= i)%nat ->
     nth_error (map bar_Close (getPriceData self)) p = Some c) ->
  nth_error (getVol self) i = Some (Fin 0).
Proof.
  intros Hi Hlen Hc Hconst.
  set (self2 := mkPricing (map (fun _ => mkBar 0%Z c NaN) (seq 0 (Datatypes.S i))) 0 0).
  assert (Hcl : map bar_Close (getPriceData self2) = repeat c (Datatypes.S i) ++ []).
  { cbn [getPriceData self2]. rewrite map_map, app_nil_r.
    rewrite (map_const_seq _ c) by reflexivity. rewrite length_seq. reflexivity. }
  rewrite (getVol_window self self2 i Hi Hlen).
  - apply (getVol_flat self2 c (Datatypes.S i) []); [exact Hcl | exact Hc | lia].
  - cbn [getPriceData self2]. rewrite length_map, length_seq. lia.
  - intros p Hp. rewrite (Hconst p Hp), Hcl, app_nil_r.
    rewrite nth_error_repeat by lia. reflexivity.
Qed.

Lemma constant_closes_have_zero_volatility_witness :
  nth_error (getVol (flat_run (1 / 12) 112 120)) 253 = Some (Fin 0).
Proof.
  apply (constant_closes_have_zero_volatility (flat_run (1 / 12) 112 120) 110 253).
  - lia.
  - cbn [getPriceData flat_run]. rewrite flat_history_length. lia.
  - lra.
  - intros p Hp. cbn [getPriceData flat_run]. rewrite flat_history_closes.
    rewrite nth_error_app1 by (rewrite repeat_length; lia).
    apply nth_error_repeat. lia.
Defined.

(* ------------------------------------------------------------------ *)
(** ** getCallData and getPutData *)

(** X6. Both pricers look the volatility up by row position and raise
    IndexError for a position at or beyond the end of the history. *)
Theorem pricers_raise_beyond_history (self : Options_Pricing) (S : R) (date : nat) :
  (length (getPriceData self) <= date)%nat ->
  getCallData self S date = Raise IndexError /\
  getPutData self S date = Raise IndexError.
Proof.
  intros H. rewrite <- getVol_length in H. apply nth_error_None in H.
  split; [apply getCallData_out_of_range | apply getPutData_out_of_range]; exact H.
Qed.

Lemma pricers_raise_beyond_history_witness :
  getCallData (flat_run (1 / 12) 112 120) 110 256 = Raise IndexError /\
  getPutData (flat_run (1 / 12) 112 120) 110 256 = Raise IndexError.
Proof.
  apply (pricers_raise_beyond_history (flat_run (1 / 12) 112 120) 110 256).
  cbn [getPriceData flat_run]. rewrite flat_history_length. lia.
Defined.

Lemma bs_d1_nan S K T r : bs_d1 S K T r NaN = NaN.
Proof.
  unfold bs_d1. cbn [fmul fadd].
  destruct (flog (fdiv (Fin S) (Fin K))); reflexivity.
Qed.

Lemma bs_d2_nan S K T r : bs_d2 S K T r NaN = NaN.
Proof.
  unfold bs_d2. cbn [fmul fadd fsub fneg].
  destruct (flog (fdiv (Fin S) (Fin K))); reflexivity.
Qed.

Lemma CallPrice_nan S K T r : CallPrice S K T r NaN = NaN.
Proof. unfold CallPrice. rewrite bs_d1_nan. reflexivity. Qed.

Lemma PutPrice_nan S K T r : PutPrice S K T r NaN = NaN.
Proof.
  unfold PutPrice. rewrite bs_d1_nan, bs_d2_nan. cbn [fneg fcdf fmul fsub].
  destruct (fmul (discounted K T r) NaN); reflexivity.
Qed.

Lemma getCallData_nan self S date :
  nth_error (getVol self) date = Some NaN ->
  getCallData self S date
  = Ret (NaN, near_call_strike S + 0, near_call_strike S + 5).
Proof.
  intros H. rewrite (getCallData_eq self S date NaN H).
  rewrite !CallPrice_nan. reflexivity.
Qed.

Lemma getPutData_nan self S date :
  nth_error (getVol self) date = Some NaN ->
  getPutData self S date
  = Ret (NaN, near_put_strike S - 0, near_put_strike S - 5).
Proof.
  intros H. rewrite (getPutData_eq self S date NaN H).
  rewrite !PutPrice_nan. reflexivity.
Qed.

(** X7. An entry on one of the first 252 rows has no volatility yet: both
    pricers return a NaN credit there, together with the usual strikes: the
    double product S * 1.03, respectively the double difference
    S - S * .03, rounded to tens, and the strike 5 further out. *)
Theorem early_entries_are_quoted_nan (self : Options_Pricing) (S : R) (date : nat) :
  (date < length (getPriceData self))%nat ->
  (date < 252)%nat ->
  getCallData self S date
  = Ret (NaN, round_nd (dmul S lit_1_03) (-1), round_nd (dmul S lit_1_03) (-1) + 5) /\
  getPutData self S date
  = Ret (NaN, round_nd (dsub S (dmul S lit_0_03)) (-1),
         round_nd (dsub S (dmul S lit_0_03)) (-1) - 5).
Proof.
  intros Hlen Hd. pose proof (getVol_early self date Hlen Hd) as Hv. split.
  - rewrite (getCallData_nan self S date Hv). unfold near_call_strike.
    rewrite Rplus_0_r. reflexivity.
  - rewrite (getPutData_nan self S date Hv). unfold near_put_strike.
    rewrite Rminus_0_r. reflexivity.
Qed.

Lemma early_entries_are_quoted_nan_witness :
  getCallData (flat_run (1 / 12) 112 120) 110 251
  = Ret (NaN, round_nd (dmul 110 lit_1_03) (-1), round_nd (dmul 110 lit_1_03) (-1) + 5) /\
  getPutData (flat_run (1 / 12) 112 120) 110 251
  = Ret (NaN, round_nd (dsub 110 (dmul 110 lit_0_03)) (-1),
         round_nd (dsub 110 (dmul 110 lit_0_03)) (-1) - 5).
Proof.
  apply (early_entries_are_quoted_nan (flat_run (1 / 12) 112 120) 110 251).
  - cbn [getPriceData flat_run]. rewrite flat_history_length. lia.
  - lia.
Defined.

Lemma prices_zero_vol_at_the_money S K T r :
  0 < S -> 0 < K -> 0 < T -> ln (S / K) + r * T = 0 ->
  CallPrice S K T r (Fin 0) = NaN /\ PutPrice S K T r (Fin 0) = NaN.
Proof.
  intros HS HK HT H. unfold CallPrice, PutPrice, discounted.
  rewrite bs_d1_zero_vol, bs_d2_zero_vol by assumption. unfold inf_of_sign.
  rewrite !Rltb_false by lra. split; reflexivity.
Qed.

(** X8. At zero volatility the formulas divide by zero.  Over exact real
    arithmetic, with f = ln(S/K) + r T the real sum, the prices are the
    discounted intrinsic values: the call is S - K e^(-rT) and the put 0
    when f > 0, the call is 0 and the put K e^(-rT) - S when f < 0, and both
    are NaN (0/0) when f = 0.  The cases are those of the real f; the
    double sum that the program computes can be 0.0 where f is not. *)
Theorem prices_at_zero_volatility (S K T r : R) :
  0 < S -> 0 < K -> 0 < T ->
  (0 < ln (S / K) + r * T ->
     CallPrice S K T r (Fin 0) = Fin (S - K * exp (- r * T)) /\
     PutPrice S K T r (Fin 0) = Fin 0) /\
  (ln (S / K) + r * T < 0 ->
     CallPrice S K T r (Fin 0) = Fin 0 /\
     PutPrice S K T r (Fin 0) = Fin (K * exp (- r * T) - S)) /\
  (ln (S / K) + r * T = 0 ->
     CallPrice S K T r (Fin 0) = NaN /\ PutPrice S K T r (Fin 0) = NaN).
Proof.
  intros HS HK HT.
  destruct (PutPrice_zero_vol S K T r HS HK HT) as [Pitm Potm].
  split; [|split].
  - intros H. split; [apply CallPrice_zero_vol_itm; assumption | auto].
  - intros H. split; [apply CallPrice_zero_vol_otm; assumption | auto].
  - apply prices_zero_vol_at_the_money; assumption.
Qed.

Lemma prices_at_zero_volatility_witness :
  (0 < ln (110 / 115) + 1 / 100 * (1 / 12) ->
     CallPrice 110 115 (1 / 12) (1 / 100) (Fin 0)
     = Fin (110 - 115 * exp (- (1 / 100) * (1 / 12))) /\
     PutPrice 110 115 (1 / 12) (1 / 100) (Fin 0) = Fin 0) /\
  (ln (110 / 115) + 1 / 100 * (1 / 12) < 0 ->
     CallPrice 110 115 (1 / 12) (1 / 100) (Fin 0) = Fin 0 /\
     PutPrice 110 115 (1 / 12) (1 / 100) (Fin 0)
     = Fin (115 * exp (- (1 / 100) * (1 / 12)) - 110)) /\
  (ln (110 / 115) + 1 / 100 * (1 / 12) = 0 ->
     CallPrice 110 115 (1 / 12) (1 / 100) (Fin 0) = NaN /\
     PutPrice 110 115 (1 / 12) (1 / 100) (Fin 0) = NaN).
Proof. apply (prices_at_zero_volatility 110 115 (1 / 12) (1 / 100)); lra. Defined.

Lemma near_strike_between (x lo hi : R) (zlo zhi : Z) :
  IZR zlo - 1 < lo / 10 - 1 / 2 -> hi / 10 + 1 / 2 < IZR zhi + 1 ->
  lo < x < hi ->
  IZR zlo * 10 <= round_nd x (-1) <= IZR zhi * 10.
Proof.
  intros Hlo Hhi Hx. rewrite round_tens_eq.
  pose proof (rint_close (x / 10)) as Hc. apply Rabs_le_bounds in Hc.
  assert (H1 : IZR zlo - 1 < IZR (rint (x / 10))) by lra.
  assert (H2 : IZR (rint (x / 10)) < IZR zhi + 1) by lra.
  rewrite <- minus_IZR in H1. rewrite <- plus_IZR in H2.
  apply lt_IZR in H1. apply lt_IZR in H2.
  assert (H3 : (zlo <= rint (x / 10))%Z) by lia.
  assert (H4 : (rint (x / 10) <= zhi)%Z) by lia.
  apply IZR_le in H3. apply IZR_le in H4. lra.
Qed.

(** X9. For a tradable spot, 100 < S < 200, the strikes are positive and
    near the spot: the near call strike lies in [100, 210] and within
    (-2, 11) of the spot, the near put strike lies in [100, 190] and within
    (-11, 2) of the spot, so the far put strike is at least 95. *)
Theorem strikes_of_tradable_spots (S : R) :
  100 < S < 200 ->
  100 <= round_nd (dmul S lit_1_03) (-1) <= 210 /\
  S - 2 < round_nd (dmul S lit_1_03) (-1) < S + 11 /\
  100 <= round_nd (dsub S (dmul S lit_0_03)) (-1) <= 190 /\
  S - 11 < round_nd (dsub S (dmul S lit_0_03)) (-1) < S + 2 /\
  95 <= round_nd (dsub S (dmul S lit_0_03)) (-1) - 5.
Proof.
  intros HS.
  assert (HS' : Rabs S <= 200) by (apply Rabs_le; lra).
  pose proof (call_product_close S HS') as Hx.
  pose proof (put_difference_close S HS') as Hy.
  apply Rabs_le_bounds in Hx. apply Rabs_le_bounds in Hy.
  assert (He : 0 < 1 / 10 ^ 10 < 1 / 1000) by lra.
  set (x := dmul S lit_1_03) in *. set (y := dsub S (dmul S lit_0_03)) in *.
  set (eps := 1 / 10 ^ 10) in *.
  pose proof (near_strike_between x (1029 / 10) (2061 / 10) 10 21) as HC.
  pose proof (near_strike_between y (969 / 10) (1941 / 10) 10 19) as HP.
  specialize (HC ltac:(lra) ltac:(lra) ltac:(lra)).
  specialize (HP ltac:(lra) ltac:(lra) ltac:(lra)).
  pose proof (rint_close (x / 10)) as HcC.
  pose proof (rint_close (y / 10)) as HcP.
  apply Rabs_le_bounds in HcC. apply Rabs_le_bounds in HcP.
  assert (HCn : S - 2 < round_nd x (-1) < S + 11).
  { destruct (Rle_dec S 101) as [Hlow|Hlow].
    - pose proof (near_strike_between x (1029 / 10) (1041 / 10) 10 10) as H.
      specialize (H ltac:(lra) ltac:(lra) ltac:(lra)). lra.
    - destruct (Rle_dec (399 / 2) S) as [Hhigh|Hhigh].
      + rewrite (round_tens_eq x) in HC |- *. lra.
      + rewrite (round_tens_eq x). lra. }
  assert (HPn : S - 11 < round_nd y (-1) < S + 2).
  { destruct (Rle_dec S 101) as [Hlow|Hlow].
    - pose proof (near_strike_between y (969 / 10) (98) 10 10) as H.
      specialize (H ltac:(lra) ltac:(lra) ltac:(lra)). lra.
    - destruct (Rle_dec (399 / 2) S) as [Hhigh|Hhigh].
      + pose proof (near_strike_between y (1934 / 10) (1941 / 10) 19 19) as H.
        specialize (H ltac:(lra) ltac:(lra) ltac:(lra)). lra.
      + rewrite (round_tens_eq y). lra. }
  split; [lra|]. split; [exact HCn|]. split; [lra|]. split; [exact HPn|]. lra.
Qed.

Lemma strikes_of_tradable_spots_witness :
  100 <= round_nd (dmul 101 lit_1_03) (-1) <= 210 /\
  101 - 2 < round_nd (dmul 101 lit_1_03) (-1) < 101 + 11 /\
  100 <= round_nd (dsub 101 (dmul 101 lit_0_03)) (-1) <= 190 /\
  101 - 11 < round_nd (dsub 101 (dmul 101 lit_0_03)) (-1) < 101 + 2 /\
  95 <= round_nd (dsub 101 (dmul 101 lit_0_03)) (-1) - 5.
Proof. apply (strikes_of_tradable_spots 101). lra. Defined.

(** X20. The strikes follow the double product and the double difference,
    not the real ones.  At the close 150.48543689320388 the double product
    S * 1.03 is exactly 155.0, a tie that goes to the even multiple, so the
    near call strike is 160, while the real product lies just under 155
    and is nearer to 150.  At the close 159.79381443298968 the double
    difference S - S * .03 is exactly 155.0 and the near put strike is 160,
    while the real S * 0.97 is nearer to 150. *)
Theorem strikes_at_tie_spots :
  dmul tie_call_spot lit_1_03 = 155 /\
  near_call_strike tie_call_spot = 160 /\
  getCallData (flat_run (1 / 12) 112 120) tie_call_spot 251 = Ret (NaN, 160, 165) /\
  round_nd (tie_call_spot * (103 / 100)) (-1) = 150 /\
  dsub tie_put_spot (dmul tie_put_spot lit_0_03) = 155 /\
  near_put_strike tie_put_spot = 160 /\
  getPutData (flat_run (1 / 12) 112 120) tie_put_spot 251 = Ret (NaN, 160, 155) /\
  round_nd (tie_put_spot * (97 / 100)) (-1) = 150.
Proof.
  assert (Hc : near_call_strike tie_call_spot = 160).
  { unfold near_call_strike. rewrite tie_call_product. apply round_tens_155. }
  assert (Hp : near_put_strike tie_put_spot = 160).
  { unfold near_put_strike. rewrite tie_put_difference. apply round_tens_155. }
  assert (Hv : nth_error (getVol (flat_run (1 / 12) 112 120)) 251 = Some NaN).
  { apply getVol_early; [|lia].
    cbn [getPriceData flat_run]. rewrite flat_history_length. lia. }
  split; [apply tie_call_product|]. split; [exact Hc|].
  split; [rewrite (getCallData_nan _ _ _ Hv), Hc; repeat f_equal; lra|].
  split.
  { rewrite round_tens_eq. unfold tie_call_spot. rewrite (rint_eval _ 15) by lra. lra. }
  split; [apply tie_put_difference|]. split; [exact Hp|].
  split; [rewrite (getPutData_nan _ _ _ Hv), Hp; repeat f_equal; lra|].
  rewrite round_tens_eq. unfold tie_put_spot. rewrite (rint_eval _ 15) by lra. lra.
Qed.

(* ------------------------------------------------------------------ *)
(** ** runBackTest: signals and expirations *)

Lemma short_long_exclusive df d : is_short df d = true -> is_long df d = true -> False.
Proof.
  unfold is_long. intros Hs Hl. unfold is_short in Hs. rewrite Hs in Hl.
  discriminate.
Qed.

(** X10. No date gives both signals: the first loop returns the whole index
    as valid dates, and a short list and a long list that are parts of the
    index with no date in common; hence no date is both a call and a put
    candidate. *)
Theorem signal_lists_are_disjoint (self : Options_Pricing) :
  exists shortList longList,
    scan_signals (getPriceData self) (df_index (getPriceData self)) [] [] []
    = Ret (df_index (getPriceData self), shortList, longList) /\
    incl shortList (df_index (getPriceData self)) /\
    incl longList (df_index (getPriceData self)) /\
    (forall d, In d shortList -> In d longList -> False) /\
    (forall fuel st d, run_to_settlement fuel self = Ret st ->
       In d (callDates st) -> In d (putDates st) -> False).
Proof.
  set (df := getPriceData self).
  exists (filter (is_short df) (df_index df)), (filter (is_long df) (df_index df)).
  split; [apply scan_signals_frame|].
  split; [apply filter_incl_index|]. split; [apply filter_incl_index|].
  assert (Hdis : forall d, In d (filter (is_short df) (df_index df)) ->
                           In d (filter (is_long df) (df_index df)) -> False).
  { intros d Hs Hl. apply filter_In in Hs. apply filter_In in Hl.
    apply (short_long_exclusive df d); tauto. }
  split; [exact Hdis|].
  intros fuel st d Hrun Hc Hp.
  destruct (run_to_settlement_inv fuel self st Hrun) as (_ & HcD & HpD & _).
  fold df in HcD, HpD. rewrite HcD in Hc. rewrite HpD in Hp.
  unfold call_candidates in Hc. unfold put_candidates in Hp.
  apply filter_In in Hc. apply filter_In in Hp. apply (Hdis d); tauto.
Qed.

Section ExpirationDates.
Local Open Scope Z_scope.

Lemma first_friday_monotone d1 d2 : d1 <= d2 -> first_friday d1 <= first_friday d2.
Proof.
  intros H. unfold first_friday, weekday.
  Z.to_euclidean_division_equations. lia.
Qed.

(** X11. When the first Friday on or after entry + 30 days is itself in the
    index (a list of Timestamps), the expiration is exactly that Friday
    (seven units of fuel suffice: at most six steps to the Friday, none
    after it). *)
Theorem expiration_is_target_friday (valid : list date) (i : date) (fuel : nat) :
  timestamps valid ->
  In (first_friday (i + 30)) valid -> (7 <= fuel)%nat ->
  resolve_expiration fuel valid i = Ret (first_friday (i + 30)) /\
  weekday (first_friday (i + 30)) = 4.
Proof.
  intros Hts Hin H7. split; [|apply first_friday_weekday].
  destruct (earliest_from_exists valid _ _ Hin (Z.le_refl _)) as [e He].
  pose proof (earliest_from_some _ _ _ He) as (Hein & Hle & Hmin).
  specialize (Hmin _ Hin (Z.le_refl _)).
  assert (e = first_friday (i + 30)) by lia. subst e.
  unfold timestamps in Hts. rewrite Forall_forall in Hts.
  apply resolve_found; [exact He | exact (Hts _ Hin) | exact H7|].
  rewrite Z.sub_diag. cbn. lia.
Qed.

Lemma expiration_is_target_friday_witness :
  resolve_expiration 7 [737794; 737826] 737794 = Ret (first_friday (737794 + 30)) /\
  weekday (first_friday (737794 + 30)) = 4.
Proof.
  apply (expiration_is_target_friday [737794; 737826] 737794 7).
  - repeat constructor; unfold max_date; lia.
  - right. left. reflexivity.
  - lia.
Defined.

(** X12. Expirations keep the order of the entries: a later entry never
    expires before an earlier one. *)
Theorem expiration_monotone (valid : list date) (i1 i2 e1 e2 : date) (fuel1 fuel2 : nat) :
  i1 <= i2 ->
  resolve_expiration fuel1 valid i1 = Ret e1 ->
  resolve_expiration fuel2 valid i2 = Ret e2 ->
  e1 <= e2.
Proof.
  intros Hle H1 H2. apply resolve_ret in H1. apply resolve_ret in H2.
  unfold expiration_of in H1, H2.
  apply earliest_from_some in H1. apply earliest_from_some in H2.
  destruct H1 as (_ & _ & Hmin1). destruct H2 as (Hin2 & Hle2 & _).
  apply Hmin1; [exact Hin2|].
  pose proof (first_friday_monotone (i1 + 30) (i2 + 30) ltac:(lia)). lia.
Qed.

Lemma flat_resolutions :
  resolve_expiration 7 flat_index 738048 = Ret 738078 /\
  resolve_expiration 7 flat_index 738049 = Ret 738085.
Proof.
  destruct flat_expirations as [E1 E2]. split.
  - apply resolve_found; [exact E1 | unfold max_date; lia | lia | vm_compute; lia].
  - apply resolve_found; [exact E2 | unfold max_date; lia | lia | vm_compute; lia].
Qed.

Lemma expiration_monotone_witness : 738078 <= 738085.
Proof.
  apply (expiration_monotone flat_index 738048 738049 738078 738085 7 7).
  - lia.
  - apply flat_resolutions.
  - apply flat_resolutions.
Defined.

End ExpirationDates.

(* ------------------------------------------------------------------ *)
(** ** runBackTest: the parallel lists *)

Lemma settle_length s strike expPrice credit final :
  settle s strike expPrice credit = Ret final -> length final = length credit.
Proof. intros H. exact (proj1 (settle_loop_untouched _ _ _ _ _ _ _ H)). Qed.

Lemma candidate_row df (keep : date -> bool) (dates : list date) j d :
  dates = filter (qualifies df) (filter keep (df_index df)) ->
  nth_error dates j = Some d ->
  In d (df_index df) /\ keep d = true /\ 100 < close_at df d < 200.
Proof.
  intros -> Hj. apply nth_error_In in Hj. apply filter_In in Hj.
  destruct Hj as [Hj Hq]. apply filter_In in Hj. destruct Hj as [Hin Hk].
  unfold qualifies, in_band in Hq. apply andb_prop in Hq. destruct Hq as [H1 H2].
  apply Rltb_lt in H1. apply Rltb_lt in H2. auto.
Qed.

(** X13. The parallel lists of a side stay aligned with its candidates: the
    j-th call candidate is an index date with RSI above 70 and a close
    strictly between 100 and 200, shortPrice[j] is that close, and
    shortExpPrice[j] is the close of the earliest index date on or after the
    first Friday at least 30 days later; likewise for the put candidates,
    with RSI below 30. *)
Theorem candidate_lists_are_aligned (fuel : nat) (self : Options_Pricing) (st : locals) :
  run_to_settlement fuel self = Ret st ->
  (forall j d, nth_error (callDates st) j = Some d ->
     exists e,
       In d (df_index (getPriceData self)) /\
       fgtb (rsi_at (getPriceData self) d) (Fin 70) = true /\
       100 < close_at (getPriceData self) d < 200 /\
       nth_error (shortPrice st) j = Some (close_at (getPriceData self) d) /\
       expiration_of (df_index (getPriceData self)) d = Some e /\
       nth_error (shortExpPrice st) j = Some (close_at (getPriceData self) e)) /\
  (forall j d, nth_error (putDates st) j = Some d ->
     exists e,
       In d (df_index (getPriceData self)) /\
       fltb (rsi_at (getPriceData self) d) (Fin 30) = true /\
       100 < close_at (getPriceData self) d < 200 /\
       nth_error (longPrice st) j = Some (close_at (getPriceData self) d) /\
       expiration_of (df_index (getPriceData self)) d = Some e /\
       nth_error (longExpPrice st) j = Some (close_at (getPriceData self) e)).
Proof.
  intros Hrun.
  pose proof (run_to_settlement_expirations fuel self st Hrun) as Hexp.
  destruct (run_to_settlement_inv fuel self st Hrun)
    as (_ & HcD & HpD & HsP & HlP & HsE & HlE & _).
  set (df := getPriceData self) in *. split.
  - intros j d Hj.
    destruct (candidate_row df (is_short df) _ j d HcD Hj) as (Hin & Hk & Hband).
    destruct (Hexp d) as [e He].
    { apply in_or_app. left. rewrite <- HcD. eapply nth_error_In. exact Hj. }
    exists e. rewrite HsP, HsE, <- HcD, !nth_error_map, Hj. cbn [option_map].
    unfold exp_close, expiry. rewrite He. auto 10.
  - intros j d Hj.
    destruct (candidate_row df (is_long df) _ j d HpD Hj) as (Hin & Hk & Hband).
    destruct (Hexp d) as [e He].
    { apply in_or_app. right. rewrite <- HpD. eapply nth_error_In. exact Hj. }
    exists e. rewrite HlP, HlE, <- HpD, !nth_error_map, Hj. cbn [option_map].
    unfold exp_close, expiry. rewrite He.
    unfold is_long in Hk. apply andb_prop in Hk. destruct Hk as [_ Hk]. auto 10.
Qed.

Lemma flat_run_settled :
  run_to_settlement 7 (flat_run (1 / 12) 120 112)
  = Ret (flat_locals 120 112 [Fin (-491); Fin 9]).
Proof. apply flat_run_to_settlement; [lia | apply settle_first_at_loss]. Qed.

Lemma candidate_lists_are_aligned_witness :
  (forall j d, nth_error (callDates (flat_locals 120 112 [Fin (-491); Fin 9])) j = Some d ->
     exists e,
       In d (df_index (getPriceData (flat_run (1 / 12) 120 112))) /\
       fgtb (rsi_at (getPriceData (flat_run (1 / 12) 120 112)) d) (Fin 70) = true /\
       100 < close_at (getPriceData (flat_run (1 / 12) 120 112)) d < 200 /\
       nth_error (shortPrice (flat_locals 120 112 [Fin (-491); Fin 9])) j
       = Some (close_at (getPriceData (flat_run (1 / 12) 120 112)) d) /\
       expiration_of (df_index (getPriceData (flat_run (1 / 12) 120 112))) d = Some e /\
       nth_error (shortExpPrice (flat_locals 120 112 [Fin (-491); Fin 9])) j
       = Some (close_at (getPriceData (flat_run (1 / 12) 120 112)) e)) /\
  (forall j d, nth_error (putDates (flat_locals 120 112 [Fin (-491); Fin 9])) j = Some d ->
     exists e,
       In d (df_index (getPriceData (flat_run (1 / 12) 120 112))) /\
       fltb (rsi_at (getPriceData (flat_run (1 / 12) 120 112)) d) (Fin 30) = true /\
       100 < close_at (getPriceData (flat_run (1 / 12) 120 112)) d < 200 /\
       nth_error (longPrice (flat_locals 120 112 [Fin (-491); Fin 9])) j
       = Some (close_at (getPriceData (flat_run (1 / 12) 120 112)) d) /\
       expiration_of (df_index (getPriceData (flat_run (1 / 12) 120 112))) d = Some e /\
       nth_error (longExpPrice (flat_locals 120 112 [Fin (-491); Fin 9])) j
       = Some (close_at (getPriceData (flat_run (1 / 12) 120 112)) e)).
Proof.
  apply (candidate_lists_are_aligned 7 (flat_run (1 / 12) 120 112)
           (flat_locals 120 112 [Fin (-491); Fin 9])).
  exact flat_run_settled.
Defined.

Lemma trade_counts fuel self st :
  run_to_settlement fuel self = Ret st ->
  length (pricedShortCredit st) = Nat.min 15 (length (callDates st)) /\
  length (shortStrike st) = Nat.min 15 (length (callDates st)) /\
  length (shortCredit st) = Nat.min 15 (length (callDates st)) /\
  length (pricedLongCredit st) = Nat.min 15 (length (putDates st)) /\
  length (longStrike st) = Nat.min 15 (length (putDates st)) /\
  length (longCredit st) = Nat.min 15 (length (putDates st)).
Proof.
  intros Hrun.
  destruct (run_to_settlement_inv fuel self st Hrun)
    as (_ & HcD & HpD & HsP & HlP & HsE & HlE & HpriceC & HpriceP & HsetC & HsetP).
  apply price_spreads_ret_inv in HpriceC. destruct HpriceC as (dC & HFC & HresC).
  apply price_spreads_ret_inv in HpriceP. destruct HpriceP as (dP & HFP & HresP).
  cbn [app] in HresC, HresP. inversion HresC as [[HC1 HC2]].
  inversion HresP as [[HP1 HP2]].
  apply Forall2_length_eq in HFC. apply Forall2_length_eq in HFP.
  rewrite length_firstn in HFC, HFP.
  rewrite HsP, length_map, <- HcD in HFC. rewrite HlP, length_map, <- HpD in HFP.
  apply settle_length in HsetC. apply settle_length in HsetP.
  rewrite HsetC, HsetP, HC1, HP1, HC2, HP2.
  unfold credits_of, strikes_of. rewrite !length_map. lia.
Qed.

(** X14. Only the first fifteen candidates of a side are traded: the lists
    of credits and strikes of a side, before and after settlement, have
    min(15, number of candidates) entries. *)
Theorem at_most_fifteen_trades (fuel : nat) (self : Options_Pricing) (st : locals) :
  run_to_settlement fuel self = Ret st ->
  length (pricedShortCredit st) = Nat.min 15 (length (callDates st)) /\
  length (shortStrike st) = Nat.min 15 (length (callDates st)) /\
  length (shortCredit st) = Nat.min 15 (length (callDates st)) /\
  length (pricedLongCredit st) = Nat.min 15 (length (putDates st)) /\
  length (longStrike st) = Nat.min 15 (length (putDates st)) /\
  length (longCredit st) = Nat.min 15 (length (putDates st)).
Proof. exact (trade_counts fuel self st). Qed.

Lemma at_most_fifteen_trades_witness :
  length (pricedShortCredit (flat_locals 120 112 [Fin (-491); Fin 9]))
  = Nat.min 15 (length (callDates (flat_locals 120 112 [Fin (-491); Fin 9]))) /\
  length (shortStrike (flat_locals 120 112 [Fin (-491); Fin 9]))
  = Nat.min 15 (length (callDates (flat_locals 120 112 [Fin (-491); Fin 9]))) /\
  length (shortCredit (flat_locals 120 112 [Fin (-491); Fin 9]))
  = Nat.min 15 (length (callDates (flat_locals 120 112 [Fin (-491); Fin 9]))) /\
  length (pricedLongCredit (flat_locals 120 112 [Fin (-491); Fin 9]))
  = Nat.min 15 (length (putDates (flat_locals 120 112 [Fin (-491); Fin 9]))) /\
  length (longStrike (flat_locals 120 112 [Fin (-491); Fin 9]))
  = Nat.min 15 (length (putDates (flat_locals 120 112 [Fin (-491); Fin 9]))) /\
  length (longCredit (flat_locals 120 112 [Fin (-491); Fin 9]))
  = Nat.min 15 (length (putDates (flat_locals 120 112 [Fin (-491); Fin 9]))).
Proof.
  apply (at_most_fifteen_trades 7 (flat_run (1 / 12) 120 112)
           (flat_locals 120 112 [Fin (-491); Fin 9])).
  exact flat_run_settled.
Defined.

(* ------------------------------------------------------------------ *)
(** ** runBackTest: settlement in general *)

Lemma settle_step_cases s strike expPrice j credit k credit' :
  settle_step s strike expPrice j credit = Ret (k, credit') ->
  exists ck, nth_error credit k = Some ck /\
    (credit' = set_nth credit k ck \/
     credit' = set_nth credit k (fsub ck (Fin strikeWidth))).
Proof.
  unfold settle_step, py_index, list_index_of_slot. intros H.
  destruct (nth_error credit j) as [i|] eqn:Hi; cbn [bind] in H; [|discriminate].
  destruct (find_index _ credit 0%nat) as [k0|] eqn:Hk; cbn [bind] in H; [|discriminate].
  destruct (nth_error strike k0) as [sk|]; cbn [bind] in H; [|discriminate].
  destruct (nth_error expPrice k0) as [ek|]; cbn [bind] in H; [|discriminate].
  destruct (nth_error credit k0) as [ck|] eqn:Hck; cbn [bind] in H; [|discriminate].
  destruct (in_profit s sk ek); inversion H; subst; eauto.
Qed.

Lemma list_sum_set_nth_succ ns k :
  (k < length ns)%nat ->
  list_sum (set_nth ns k (Datatypes.S (nth k ns 0%nat))) = Datatypes.S (list_sum ns).
Proof.
  revert k. induction ns as [|n ns IH]; intros k H; [cbn in H; lia|].
  assert (Hcons : forall a l, list_sum (a :: l) = (a + list_sum l)%nat) by reflexivity.
  destruct k as [|k]; cbn [set_nth nth]; rewrite !Hcons; [lia|].
  rewrite IH by (cbn in H; lia). lia.
Qed.

Lemma nth_set_nth_same {A : Type} (l : list A) k v d :
  (k < length l)%nat -> nth k (set_nth l k v) d = v.
Proof.
  revert k. induction l as [|a l IH]; intros k H; [cbn in H; lia|].
  destruct k as [|k]; cbn; [reflexivity | apply IH; cbn in H; lia].
Qed.

Lemma nth_set_nth_other {A : Type} (l : list A) k v m d :
  m <> k -> nth m (set_nth l k v) d = nth m l d.
Proof.
  revert k m. induction l as [|a l IH]; intros k m H; [destruct k, m; reflexivity|].
  destruct k as [|k], m as [|m]; cbn; try reflexivity; try contradiction.
  apply IH. lia.
Qed.

Lemma list_sum_repeat_zero n : list_sum (repeat 0%nat n) = 0%nat.
Proof.
  induction n as [|n IH]; [reflexivity|]. cbn [repeat].
  change (list_sum (0%nat :: repeat 0%nat n)) with (0 + list_sum (repeat 0%nat n))%nat.
  rewrite IH. reflexivity.
Qed.

Lemma settle_loop_reduces s strike expPrice remaining j credit L :
  settle_loop s strike expPrice remaining j credit = Ret L ->
  exists ns,
    length ns = length credit /\
    (list_sum ns <= remaining)%nat /\
    forall m c, nth_error credit m = Some c ->
                nth_error L m = Some (reduced (nth m ns 0%nat) c).
Proof.
  revert j credit. induction remaining as [|rem IH]; intros j credit H.
  - cbn in H. inversion H; subst L. exists (repeat 0%nat (length credit)).
    split; [apply repeat_length|]. split.
    + rewrite list_sum_repeat_zero. lia.
    + intros m c Hm. rewrite nth_repeat. exact Hm.
  - cbn [settle_loop] in H.
    destruct (settle_step s strike expPrice j credit) as [[k c']| |] eqn:Hstep;
      cbn [bind snd] in H; try discriminate.
    destruct (settle_step_cases _ _ _ _ _ _ _ Hstep) as (ck & Hck & Hc').
    assert (Hk : (k < length credit)%nat) by (apply nth_error_Some; congruence).
    destruct (IH _ _ H) as (ns & Hlen & Hsum & Hnth).
    destruct Hc' as [-> | ->]; rewrite length_set_nth in Hlen.
    + exists ns. split; [exact Hlen|]. split; [lia|].
      intros m c Hm. apply Hnth. destruct (Nat.eq_dec m k) as [->|Hne].
      * rewrite nth_error_set_nth_same by exact Hk. congruence.
      * rewrite nth_error_set_nth_other by exact Hne. exact Hm.
    + exists (set_nth ns k (Datatypes.S (nth k ns 0%nat))).
      split; [rewrite length_set_nth; exact Hlen|]. split.
      * rewrite list_sum_set_nth_succ by lia. lia.
      * intros m c Hm. destruct (Nat.eq_dec m k) as [->|Hne].
        -- rewrite nth_set_nth_same by lia.
           rewrite (Hnth k (fsub ck (Fin strikeWidth))).
           ++ rewrite reduced_succ_inner. congruence.
           ++ apply nth_error_set_nth_same. exact Hk.
        -- rewrite nth_set_nth_other by exact Hne. apply Hnth.
           rewrite nth_error_set_nth_other by exact Hne. exact Hm.
Qed.

(** X15. Settlement only ever subtracts the strike width.  Whatever slots
    the lookups by value land on, the settled list has the length of the
    priced one, every settled credit is the priced credit of the same
    position less the strike width a whole number of times, and the whole
    side loses at most one strike width per trade. *)
Theorem settlement_only_subtracts (s : side) (strike expPrice : list R)
    (credit final : list fval) :
  settle s strike expPrice credit = Ret final ->
  length final = length credit /\
  exists ns : list nat,
    length ns = length credit /\
    (list_sum ns <= length credit)%nat /\
    forall m c, nth_error credit m = Some c ->
                nth_error final m = Some (reduced (nth m ns 0%nat) c).
Proof.
  intros H. split; [exact (settle_length _ _ _ _ _ H)|].
  exact (settle_loop_reduces _ _ _ _ _ _ _ H).
Qed.

Lemma settlement_only_subtracts_witness :
  length [Fin (-491); Fin 9] = length [Fin 9; Fin 9] /\
  exists ns : list nat,
    length ns = length [Fin 9; Fin 9] /\
    (list_sum ns <= length [Fin 9; Fin 9])%nat /\
    forall m c, nth_error [Fin 9; Fin 9] m = Some c ->
                nth_error [Fin (-491); Fin 9] m = Some (reduced (nth m ns 0%nat) c).
Proof.
  apply (settlement_only_subtracts CALL [115; 115] [120; 112]).
  exact (proj1 settle_first_at_loss).
Defined.

Lemma fold_fadd_nan l : fold_left fadd l NaN = NaN.
Proof. induction l as [|a l IH]; [reflexivity | exact IH]. Qed.

Lemma fadd_nan_r a : fadd a NaN = NaN.
Proof. destruct a; reflexivity. Qed.

Lemma fold_fadd_has_nan l acc : In NaN l -> fold_left fadd l acc = NaN.
Proof.
  revert acc. induction l as [|a l IH]; intros acc H; [contradiction|].
  cbn [fold_left]. destruct H as [->|H].
  - rewrite fadd_nan_r. apply fold_fadd_nan.
  - apply IH. exact H.
Qed.

Lemma reduced_nan n : reduced n NaN = NaN.
Proof.
  unfold reduced. induction n as [|n IH]; [reflexivity|].
  rewrite Nat.iter_succ, IH. reflexivity.
Qed.

Lemma settle_keeps_nan s strike expPrice credit final m :
  settle s strike expPrice credit = Ret final ->
  nth_error credit m = Some NaN -> In NaN final.
Proof.
  intros H Hm. destruct (settle_loop_reduces _ _ _ _ _ _ _ H) as (ns & _ & _ & Hnth).
  specialize (Hnth m NaN Hm). rewrite reduced_nan in Hnth.
  eapply nth_error_In. exact Hnth.
Qed.

(* ------------------------------------------------------------------ *)
(** ** runBackTest: how a run ends *)

Lemma runBackTest_short fuel self st :
  run_to_settlement fuel self = Ret st ->
  ((length (callDates st) < 16)%nat \/ (length (putDates st) < 16)%nat) ->
  runBackTest fuel self = Raise IndexError.
Proof.
  intros Hrun Hshort. unfold runBackTest. rewrite Hrun. cbn [bind]. unfold py_index.
  destruct (nth_error (callDates st) 0) eqn:E0; [|reflexivity].
  destruct (nth_error (callDates st) 15) eqn:E15; [|reflexivity].
  destruct (nth_error (putDates st) 0) eqn:P0; [|reflexivity].
  destruct (nth_error (putDates st) 15) eqn:P15; [|reflexivity].
  exfalso.
  assert (15 < length (callDates st))%nat by (apply nth_error_Some; congruence).
  assert (15 < length (putDates st))%nat by (apply nth_error_Some; congruence).
  lia.
Qed.

Lemma runBackTest_cases fuel self st :
  run_to_settlement fuel self = Ret st ->
  ((length (callDates st) < 16)%nat \/ (length (putDates st) < 16)%nat) /\
  runBackTest fuel self = Raise IndexError
  \/
  (16 <= length (callDates st))%nat /\ (16 <= length (putDates st))%nat /\
  runBackTest fuel self
  = Ret (mkReport (fadd (py_sum (shortCredit st)) (py_sum (longCredit st))) 15000).
Proof.
  intros Hst.
  destruct (Nat.lt_ge_cases (length (callDates st)) 16) as [Hc|Hc].
  { left. split; [left; exact Hc|]. apply (runBackTest_short fuel self st Hst). left. exact Hc. }
  destruct (Nat.lt_ge_cases (length (putDates st)) 16) as [Hp|Hp].
  { left. split; [right; exact Hp|]. apply (runBackTest_short fuel self st Hst). right. exact Hp. }
  right. split; [exact Hc|]. split; [exact Hp|].
  apply runBackTest_eq; assumption.
Qed.

Lemma flat_run_raises : runBackTest 7 (flat_run (1 / 12) 120 112) = Raise IndexError.
Proof.
  apply (runBackTest_short 7 _ _ flat_run_settled). right. cbn. lia.
Qed.

(** X16. On a history whose index has no repeated date a run can end with
    two exceptions only.  One is the OutOfBoundsDatetime of the expiration
    search, when some qualifying candidate has no index date between its
    target Friday and the last Timestamp.  The other is the IndexError of
    the final date lines (callDates[15], putDates[15]), when every search
    has ended, the trades are settled and a side has fewer than 16
    qualifying candidates.  The frame lookups, the lookups by value and the
    pricer calls cannot fail. *)
Theorem run_exceptions (fuel : nat) (self : Options_Pricing) (ex : exn) :
  NoDup (df_index (getPriceData self)) ->
  runBackTest fuel self = Raise ex ->
  (ex = OutOfBoundsDatetime /\
   exists d, In d (call_candidates (getPriceData self)
                   ++ put_candidates (getPriceData self)) /\
     forall e, In e (df_index (getPriceData self)) ->
               (first_friday (d + 30) <= e)%Z -> (max_date < e)%Z)
  \/
  (ex = IndexError /\
   (exists st, run_to_settlement fuel self = Ret st) /\
   ((length (call_candidates (getPriceData self)) < 16)%nat \/
    (length (put_candidates (getPriceData self)) < 16)%nat)).
Proof.
  intros _ H.
  destruct (run_to_settlement_cases fuel self) as [[st Hst] | [[Hr Hd] | [Hdiv _]]].
  - right. destruct (runBackTest_cases fuel self st Hst) as [[Hs Hr] | (_ & _ & Hr)];
      [|congruence].
    destruct (run_to_settlement_inv fuel self st Hst) as (_ & HcD & HpD & _).
    rewrite HcD, HpD in Hs.
    split; [congruence|]. split; [exists st; exact Hst | exact Hs].
  - left. rewrite (runBackTest_raise fuel self _ Hr) in H. split; [congruence | exact Hd].
  - exfalso. unfold runBackTest in H. rewrite Hdiv in H. discriminate.
Qed.

Lemma run_exceptions_witness :
  (IndexError = OutOfBoundsDatetime /\
   exists d, In d (call_candidates (getPriceData (flat_run (1 / 12) 120 112))
                   ++ put_candidates (getPriceData (flat_run (1 / 12) 120 112))) /\
     forall e, In e (df_index (getPriceData (flat_run (1 / 12) 120 112))) ->
               (first_friday (d + 30) <= e)%Z -> (max_date < e)%Z)
  \/
  (IndexError = IndexError /\
   (exists st, run_to_settlement 7 (flat_run (1 / 12) 120 112) = Ret st) /\
   ((length (call_candidates (getPriceData (flat_run (1 / 12) 120 112))) < 16)%nat \/
    (length (put_candidates (getPriceData (flat_run (1 / 12) 120 112))) < 16)%nat)).
Proof.
  apply (run_exceptions 7 (flat_run (1 / 12) 120 112) IndexError).
  - apply flat_history_NoDup.
  - exact flat_run_raises.
Defined.

(** X17. A history on which every expiration search ends but a side has
    fewer than 16 qualifying candidates gives no report: all trades are
    priced and settled, and then the run ends with an IndexError. *)
Theorem short_side_ends_in_index_error (fuel : nat) (self : Options_Pricing) :
  (7 <= fuel)%nat -> resolvable fuel (getPriceData self) ->
  ((length (call_candidates (getPriceData self)) < 16)%nat \/
   (length (put_candidates (getPriceData self)) < 16)%nat) ->
  (exists st, run_to_settlement fuel self = Ret st) /\
  runBackTest fuel self = Raise IndexError.
Proof.
  intros H7 Hres Hs.
  destruct (run_to_settlement_total fuel self H7 Hres) as [st Hst].
  split; [exists st; exact Hst|].
  destruct (run_to_settlement_inv fuel self st Hst) as (_ & HcD & HpD & _).
  apply (runBackTest_short fuel self st Hst). rewrite HcD, HpD. exact Hs.
Qed.

Lemma short_side_ends_in_index_error_witness :
  (exists st, run_to_settlement 7 (flat_run (1 / 12) 120 112) = Ret st) /\
  runBackTest 7 (flat_run (1 / 12) 120 112) = Raise IndexError.
Proof.
  apply (short_side_ends_in_index_error 7 (flat_run (1 / 12) 120 112)).
  - lia.
  - apply flat_resolvable. lia.
  - right. cbn [getPriceData flat_run]. rewrite flat_put_candidates. cbn. lia.
Defined.

Lemma runBackTest_ret_inv fuel self rep :
  runBackTest fuel self = Ret rep ->
  exists st,
    run_to_settlement fuel self = Ret st /\
    (16 <= length (callDates st))%nat /\ (16 <= length (putDates st))%nat /\
    rep = mkReport (fadd (py_sum (shortCredit st)) (py_sum (longCredit st))) 15000.
Proof.
  intros H. destruct (runBackTest_settles fuel self rep H) as [st Hst].
  destruct (runBackTest_cases fuel self st Hst) as [[_ Hr] | (Hc & Hp & Hr)];
    [congruence|].
  exists st. split; [exact Hst|]. split; [exact Hc|]. split; [exact Hp|]. congruence.
Qed.

(* ------------------------------------------------------------------ *)
(** ** runBackTest: trades opened before the volatility is defined *)

Lemma list_index_date_early valid d n :
  In d (firstn n valid) ->
  exists Date, list_index Z.eqb valid d = Ret Date /\
               (Date < n)%nat /\ (Date < length valid)%nat.
Proof.
  intros Hin. apply In_nth_error in Hin. destruct Hin as [j Hj].
  assert (Hjn : (j < length (firstn n valid))%nat) by (apply nth_error_Some; congruence).
  rewrite length_firstn in Hjn.
  assert (Hv : nth_error valid j = Some d).
  { rewrite <- Hj. rewrite <- (firstn_skipn n valid) at 1.
    apply nth_error_app1. rewrite length_firstn. exact Hjn. }
  destruct (find_index_found (fun _ a => Z.eqb a d) valid 0%nat j d Hv (Z.eqb_refl d))
    as (k & Hk & Hle).
  exists k. unfold list_index. rewrite Hk. split; [reflexivity|]. lia.
Qed.

Lemma first_trade_priced getData (valid dates : list date) price (d : date) x Date
    data credit strike :
  nth_error dates 0 = Some d -> nth_error price 0 = Some x ->
  list_index Z.eqb valid d = Ret Date ->
  getData x Date = Ret data ->
  price_spreads getData valid dates price (firstn 15 price) [] [] = Ret (credit, strike) ->
  nth_error credit 0 = Some (fmul (fst (fst data)) (Fin 100)).
Proof.
  intros Hd Hx HDate Hdata H.
  destruct price as [|x' rest]; [discriminate|]. cbn in Hx. inversion Hx; subst x'.
  change (firstn 15 (x :: rest)) with (x :: firstn 14 rest) in H.
  cbn [price_spreads] in H. unfold list_index at 1 in H.
  cbn [find_index] in H. rewrite Reqb_refl in H. cbn [bind] in H.
  unfold py_index at 1 in H. rewrite Hd in H. cbn [bind] in H.
  rewrite HDate in H. cbn [bind] in H. rewrite Hdata in H. cbn [bind app] in H.
  apply price_spreads_ret_inv in H. destruct H as (datas & _ & Hres).
  inversion Hres. reflexivity.
Qed.

Lemma early_first_trade_nan fuel self st d :
  run_to_settlement fuel self = Ret st ->
  nth_error (callDates st) 0 = Some d \/ nth_error (putDates st) 0 = Some d ->
  In d (firstn 252 (validDates st)) ->
  fadd (py_sum (shortCredit st)) (py_sum (longCredit st)) = NaN.
Proof.
  intros Hrun Hfirst Hearly.
  destruct (run_to_settlement_inv fuel self st Hrun)
    as (Hv & HcD & HpD & HsP & HlP & _ & _ & HpriceC & HpriceP & HsetC & HsetP).
  destruct (list_index_date_early _ _ _ Hearly) as (Date & HDate & H252 & Hlen).
  rewrite Hv in HDate, Hlen. unfold df_index in Hlen. rewrite length_map in Hlen.
  pose proof (getVol_early self Date Hlen H252) as Hvol.
  destruct Hfirst as [Hd|Hd].
  - assert (Hx : nth_error (shortPrice st) 0
                 = Some (close_at (getPriceData self) d)).
    { rewrite HsP, <- HcD, nth_error_map, Hd. reflexivity. }
    pose proof (first_trade_priced _ _ _ _ _ _ _ _ _ _ Hd Hx HDate
                  (getCallData_nan self _ Date Hvol) HpriceC) as Hnan.
    cbn [fst fmul] in Hnan.
    unfold py_sum. rewrite (fold_fadd_has_nan (shortCredit st)); [reflexivity|].
    exact (settle_keeps_nan _ _ _ _ _ _ HsetC Hnan).
  - assert (Hx : nth_error (longPrice st) 0
                 = Some (close_at (getPriceData self) d)).
    { rewrite HlP, <- HpD, nth_error_map, Hd. reflexivity. }
    pose proof (first_trade_priced _ _ _ _ _ _ _ _ _ _ Hd Hx HDate
                  (getPutData_nan self _ Date Hvol) HpriceP) as Hnan.
    cbn [fst fmul] in Hnan.
    unfold py_sum. rewrite (fold_fadd_has_nan (longCredit st)); [apply fadd_nan_r|].
    exact (settle_keeps_nan _ _ _ _ _ _ HsetP Hnan).
Qed.

Lemma busy_resolvable : resolvable 100 (busy_history (Fin 50)).
Proof.
  intros d Hd. apply busy_candidates_early in Hd.
  pose proof (first_friday_bounds (d + 30)%Z) as Hff.
  assert (Hin : In 737896%Z (df_index (busy_history (Fin 50)))).
  { rewrite busy_history_index. apply existsb_date_in. vm_compute. reflexivity. }
  destruct (earliest_from_exists (df_index (busy_history (Fin 50)))
              (first_friday (d + 30)%Z) 737896%Z Hin) as [e He]; [lia|].
  exists e. split; [exact He|].
  apply earliest_from_some in He. destruct He as (_ & Hle & Hmin).
  specialize (Hmin 737896%Z Hin). unfold max_date. split; lia.
Qed.

Lemma busy_first_call :
  nth_error (call_candidates (busy_history (Fin 50))) 0 = Some 737796%Z.
Proof.
  rewrite call_candidates_bars by apply busy_history_NoDup.
  rewrite busy_call_bars. reflexivity.
Qed.

Lemma busy_run_report :
  runBackTest 100 (busy_run (Fin 50)) = Ret (mkReport NaN 15000).
Proof.
  destruct (run_to_settlement_total 100 (busy_run (Fin 50))) as [st Hst];
    [lia | exact busy_resolvable |].
  destruct (run_to_settlement_inv 100 _ st Hst) as (Hv & HcD & HpD & _).
  cbn [getPriceData busy_run] in Hv, HcD, HpD.
  rewrite (runBackTest_eq 100 _ st Hst).
  - rewrite (early_first_trade_nan 100 _ st 737796%Z Hst); [reflexivity | |].
    + left. rewrite HcD. exact busy_first_call.
    + rewrite Hv, busy_history_index. apply (nth_error_In _ 0%nat). reflexivity.
  - rewrite HcD. apply busy_counts.
  - rewrite HpD. apply busy_counts.
Qed.

(** X18. A run that returns its report had at least 16 qualifying candidates
    on each side and an expiration for every one of them, yet it traded
    exactly 15 per side: the profit/loss is the sum of 15 settled call
    credits plus the sum of 15 settled put credits, and the collateral
    reported is 15000 whatever the history. *)
Theorem report_needs_sixteen_candidates (fuel : nat) (self : Options_Pricing)
    (rep : report) :
  runBackTest fuel self = Ret rep ->
  (16 <= length (call_candidates (getPriceData self)))%nat /\
  (16 <= length (put_candidates (getPriceData self)))%nat /\
  (forall d, In d (call_candidates (getPriceData self)
                   ++ put_candidates (getPriceData self)) ->
     exists e, expiration_of (df_index (getPriceData self)) d = Some e) /\
  collateral rep = 15000 /\
  exists st,
    run_to_settlement fuel self = Ret st /\
    length (shortCredit st) = 15%nat /\ length (longCredit st) = 15%nat /\
    pnl rep = fadd (py_sum (shortCredit st)) (py_sum (longCredit st)).
Proof.
  intros H. destruct (runBackTest_ret_inv fuel self rep H) as (st & Hst & Hc & Hp & ->).
  destruct (run_to_settlement_inv fuel self st Hst) as (_ & HcD & HpD & _).
  destruct (trade_counts fuel self st Hst) as (_ & _ & HlenC & _ & _ & HlenP).
  split; [rewrite <- HcD; exact Hc|]. split; [rewrite <- HpD; exact Hp|].
  split; [exact (run_to_settlement_expirations fuel self st Hst)|].
  split; [reflexivity|]. exists st.
  split; [exact Hst|]. split; [lia|]. split; [lia | reflexivity].
Qed.

Lemma report_needs_sixteen_candidates_witness :
  (16 <= length (call_candidates (getPriceData (busy_run (Fin 50)))))%nat /\
  (16 <= length (put_candidates (getPriceData (busy_run (Fin 50)))))%nat /\
  (forall d, In d (call_candidates (getPriceData (busy_run (Fin 50)))
                   ++ put_candidates (getPriceData (busy_run (Fin 50)))) ->
     exists e, expiration_of (df_index (getPriceData (busy_run (Fin 50)))) d = Some e) /\
  collateral (mkReport NaN 15000) = 15000 /\
  exists st,
    run_to_settlement 100 (busy_run (Fin 50)) = Ret st /\
    length (shortCredit st) = 15%nat /\ length (longCredit st) = 15%nat /\
    pnl (mkReport NaN 15000) = fadd (py_sum (shortCredit st)) (py_sum (longCredit st)).
Proof.
  apply (report_needs_sixteen_candidates 100 (busy_run (Fin 50)) (mkReport NaN 15000)).
  exact busy_run_report.
Defined.

(** X19. One early trade voids the whole report.  When the first call
    candidate or the first put candidate lies on one of the first 252 rows
    of the history, where the volatility is still undefined, its credit is
    NaN, it stays NaN through settlement, and a run that returns reports a
    NaN profit/loss. *)
Theorem early_first_trade_voids_report (fuel : nat) (self : Options_Pricing)
    (rep : report) (d : date) :
  runBackTest fuel self = Ret rep ->
  nth_error (call_candidates (getPriceData self)) 0 = Some d \/
  nth_error (put_candidates (getPriceData self)) 0 = Some d ->
  In d (firstn 252 (df_index (getPriceData self))) ->
  pnl rep = NaN.
Proof.
  intros H Hfirst Hearly.
  destruct (runBackTest_ret_inv fuel self rep H) as (st & Hst & _ & _ & ->).
  destruct (run_to_settlement_inv fuel self st Hst) as (Hv & HcD & HpD & _).
  cbn [pnl]. apply (early_first_trade_nan fuel self st d Hst).
  - rewrite HcD, HpD. exact Hfirst.
  - rewrite Hv. exact Hearly.
Qed.

Lemma early_first_trade_voids_report_witness : pnl (mkReport NaN 15000) = NaN.
Proof.
  apply (early_first_trade_voids_report 100 (busy_run (Fin 50)) (mkReport NaN 15000)
           737796%Z).
  - exact busy_run_report.
  - left. exact busy_first_call.
  - cbn [getPriceData busy_run]. rewrite busy_history_index.
    apply (nth_error_In _ 0%nat). reflexivity.
Defined.
